(* ===== verification/_CoqProject ===== *)
-Q . S2P
Prelude.v
Glm.v
Chain.v
Jacobian.v
Stepper.v
Gradient.v
Descent.v
Frame.v
Camera.v
Drawing.v
Session.v
Float32.v
Program.v
Console.v
