(* ===== verification/Prelude.v ===== *)
(** * A verification development of SimpleIKTest (src/IKTest.cpp)

    The repository is one OpenGL program, [src/IKTest.cpp], whose [main]
    drives a planar chain of five bones (lengths [{7, 13.5, 11, 3.5, 4}],
    line 149) towards a target point picked with the mouse.  Each iteration
    of the render loop (lines 158-360) does, in this order:

    - input (lines 167-182): when the left button is down, the cursor
      position is stored in [targetX]/[targetY], [targetSet] is raised and
      the world target [worldTargetX]/[worldTargetY] is computed from it;
    - forward kinematics (lines 246-329): a [glm::mat4] [Model] is built
      bone by bone from [glm::translate], [glm::rotate] and [glm::scale];
      column 3 of it is stored in [positions[i]] (the joint of bone [i]) and,
      after one more bone, in [endEffect] (the tip of the chain);
    - the Jacobian-transpose step (lines 332-351): unless the tip is within
      [0.00001] of the target, [jac[i] = cross(rotAxis, endEffect -
      positions[i])], [dtheta[i] = dot(jac[i], target - endEffect)] and
      [theta[i] += dtheta[i] * step] with [step = 0.00001].

    The only state carried from one frame to the next is [theta],
    [targetSet], [targetX], [targetY], [worldTargetX], [worldTargetY].
    Around the loop, [main] initialises GLFW, opens the window, loads GL
    with GLEW (lines 24-56, returning [-1] when one of them fails),
    creates a vertex array, a shader program and two buffers (lines
    58-138), and after the loop deletes them and terminates GLFW (lines
    362-371).

    ** Files, in dependency order

    - [Prelude] (this file): the notation scope [ik_scope], in-place array
      update [set_nth] (C++ [a[i] = v]) and its loop over the indices
      ([fold_set_nth_prefix]), finite sums [rsum] (exchange of
      double sums, prefix and suffix sums, Cauchy-Schwarz, vanishing terms
      of a bounded series), the
      reflexive-transitive closure [star] used for reachable states, the
      Euclidean norm of the plane [norm2] with its triangle inequality,
      derivative combinators [dpl_*] over [Ranalysis1], bounds on [sin]
      and [cos] ([|sin x| <= |x|], [|cos h - 1| <= h^2/2],
      [|sin h - h| <= h^2/2], Lipschitz shifts), the tactic
      [trig_expand] and the hint databases [ik] and [ik_rw].
    - [Glm]: the part of GLM the program calls ([vec3], [vec4], [mat4]
      column-major; [mat4 * mat4], [glm::translate], [glm::scale],
      [glm::rotate] with the axis normalised as GLM does, [cross], [dot],
      [length]) and their algebra: associativity, the identity, products of
      scalings, and the planar rigid frames [frame_mat] with the three
      composition laws that forward kinematics needs.
    - [Chain] (Chain Model, spec 4.1): [bone_body] is the body of the loop
      of lines 251-316 with its loop-carried variables [Model], [trans],
      [positions]; [bones_loop] is the loop as a [fold_left] over
      [seq 0 numBones]; [end_effector] is lines 317-329; [forward] returns
      both.  The abstract chain [angle_sum]/[joint] (closed form: joint
      [i+1] is joint [i] plus [l_i (cos phi_i, sin phi_i)]) is the
      specification; [forward_refines_joint] proves that the matrix code
      computes it, given non-zero lengths (the code divides by them).
      Geometric properties follow on the abstract chain: rest pose, rigid
      bones, reach.
    - [Jacobian] (spec 4.2): [jacobian] is the loop of lines 337-339; its
      columns are [(-dy, dx, 0)] for the lever arm [(dx, dy)], orthogonal
      to it, of the same length, and zero for a zero lever arm.
    - [Stepper] (spec 4.3): [error_vec] (line 341), [dtheta_of] (lines
      343-345), [apply_step] (lines 348-350, sequential in-place writes)
      and [solve_step] (lines 332-351 with the guard of line 333).  The
      sequential update is proved equal to the simultaneous one; the guard
      is proved to make converged frames no-ops.
    - [Gradient]: the link between the components.  [joint_derivative]
      differentiates the abstract chain with respect to one angle;
      [jacobian_is_derivative] shows that the Jacobian column the code
      computes is the derivative of the end effector the code computes, and
      [dtheta_is_negative_gradient] that [dtheta[i]] is minus the partial
      derivative of half the squared error, so the update is gradient
      descent with step [0.00001].
    - [Descent]: the second-order analysis of one solver step.  Its
      section [Step] fixes a chain, angles and target and proves, for the
      angles [stepped] of lines 348-350: the first-order change of the tip
      along the error is exactly [step * sum_i dtheta[i]^2]
      ([turn_torque]); the remainder of each bone is at most
      [l * (|Vx| + |Vy|) * h^2] ([bone_remainder], by the mean value
      theorem); hence [descent_core]: if [5 * step * (L W + L^2) <= 1/2]
      (with [L] the sum of the lengths and [W = |Vx| + |Vy|]) the squared
      error drops by at least [step * sum_i dtheta[i]^2].  For the lengths
      of line 149 ([L = 39]) and a target in the visible square
      [[-60, 60]^2] ([W <= 198]) the factor is [0.462 <= 1/2]
      ([window_step_small]), which gives the theorems on [solve_step].
      The solver meets the kinematics through the interface
      [PlanarChain fk] (a [Class]: [fk] returns the joints and the tip of
      a planar chain with non-negative lengths); [solver_descent] is
      proved against it in the section [Solver], and the instance
      [forward_chain] discharges it for the matrix code.
    - [Frame]: the whole loop body as a function [frame] of the carried
      state and the mouse input, the reachable states as [star] of frame
      steps from [init_state], and the behaviour of the program over many
      frames: the solver is a no-op until the first click, frames are
      no-ops once converged, a target on the x-axis leaves the rest pose
      stuck for ever, and, for a target in the visible square, the
      distance of the guard ([frame_error]) never grows along frames
      without a click, converges, and the solver's increments tend to
      zero.

    - [Camera]: [glm::ortho] and [glm::lookAt], the [Projection], [View] and
      [MVP] of lines 84-95, the target marker's model matrix (lines
      198-201) and vertex data (lines 99-112), and the pixel at which a
      vertex is drawn (OpenGL's viewport over the 1024 x 768 window).  The
      mouse mapping is proved inverse to the projection, and the marker
      centred on the click.
    - [Drawing]: the [Model] that line 274 sends to the shader for bone
      [i] ([bone_model], the loop's [Model] after iteration [i]) and the
      pixels of the base and tip vertices of the bone buffer.  Each bone
      is drawn between consecutive points of the chain, and once the
      guard of line 333 reports convergence the drawn tip is under the
      clicked pixel, within [threshold * 512/60] pixels.  [frame_draws]
      is the sequence of [MVP] matrices of one frame's draw calls (the
      marker when a target is set, then the five bones in order).
    - [Session]: the [do ... while] loop of lines 158-360 over a finite
      list of per-iteration inputs (mouse, [ESC], close request), as the
      function [run] and the big-step relation [loop_exec], [main]'s
      return after it, and the values the frames print (lines 181,
      330-331).
    - [Float32]: the single-precision arithmetic of the update.  [round32]
      rounds a real to the nearest binary32 number, ties to even (24-bit
      significands, subnormals below [2^-126], binade [mag2] and spacing
      [quantum32]); [step32] is the literal [0.00001f] and
      [apply_step_f32] the loop of lines 348-350 with the product and the
      sum each rounded; [solve_step_f32] is the whole block of lines
      332-351 in floats, with GLM's [-], [cross], [dot] and [length]
      rounded operation by operation ([vsub32], [cross32], [dot32],
      [vlength32]; SSE arithmetic without FMA contraction), for given
      float positions and tip.  The rounding error is at most [2^-24] of the
      exact value, or [2^-150] below the normal range ([round32_rel], the
      constants of LAProof's [default_rel]/[default_abs]), [step32] is
      [10995116 * 2^-40], and [SpecFloat]'s executable IEEE 754
      operations of the Standard Library agree with the model on the
      instances checked ([step32_specfloat], [update_specfloat]).
    - [Program]: the whole of [main] as the list of its library calls.
      [main p ins] is the sequence of GLFW, GLEW, OpenGL and C library
      calls [main] makes (with their arguments that matter) and its
      return value, for the answers [p] of [glfwInit], [glfwCreateWindow]
      and [glewInit] and the loop inputs [ins]: the three failure paths,
      the set-up ([gl_setup_calls], [buffer_calls] with the data of lines
      99-128), each iteration ([frame_calls]: input, the draws of
      [Drawing.frame_draws] as [draw_calls], the lines printed, the loop
      test with its short-circuit), and the cleanup.  [api_step] is the
      libraries' usage contract as an executable check on an abstract
      state ([api_state]: start-up phase, live names, the array-buffer
      binding, buffer sizes, attribute sources and enabled attributes);
      it is a specification of GLFW and OpenGL, not a model of code.
    - [Console]: the text of the trace.  [fixed6] is [printf]'s [%f]
      (the value rounded to six decimals, ties to even, written with
      [DecimalString]'s digits and six fractional digits), [target_text]
      and [point_text] the lines of 181 and 330-331, [stdout_text] and
      [stderr_text] the two streams; [parse_fixed6] reads a [%f] text
      back.

    ** Modelling choices

    Floats are modelled by the reals of the Standard Library: [float],
    [double], [glm::cos]/[glm::sin] and [sqrt] are [R], [cos], [sin],
    [sqrt]; rounding is modelled only for the update of lines 348-350, in
    [Float32].  The two literals [0.00001f] become the real [1/100000]
    (and [step32] in [Float32]).  [glm::mat4()] is the identity, as in the GLM
    releases this code was written against (before 0.9.9).  The arrays
    [positions], [theta], [jac], [dtheta] are lists indexed by [nth] and
    written with [set_nth]; [vec3 positions[5]] starts uninitialised in
    C++ and is modelled as five zero vectors (every element is written
    before it is read).  Trigonometry over [R] does not compute, so the
    concrete witnesses are discharged by rewriting [cos 0], [sin 0],
    [cos (PI/2)] and [lra]/[field] rather than by evaluation.

    Not modelled: what the libraries do beyond their contract (the
    pixels the GPU draws, the window system, the contents of the shaders,
    which are outside [src/], and [LoadShaders], modelled only as the
    creation of the program); the constant arguments of the GL calls
    ([GL_FLOAT], [GL_FALSE], stride and offset [0]), fixed in the
    contract rather than carried by the calls; the [%f]
    formatting of the traces (their values are modelled in [Session]), and
    float rounding outside the solver block: the forward kinematics is
    computed over the reals (and the float solver takes positions and
    tip as inputs), so the theorems bound no accumulated rounding of the
    pose, and a zero length, which in
    floats gives [inf * 0 = NaN], is excluded by hypothesis.  [round32]
    has no largest exponent: it is binary32 rounding wherever the result
    is below [2^128] in magnitude, and overflow to infinity and NaN are not
    modelled (the angles of [Float32.solve_step_f32_stalls] are finite
    by hypothesis).  Modelling the float rounding of the whole kinematics
    would need [cos] and [sin] as the C library computes them, which the
    source does not fix.  Mouse input is any
    sequence of [Released] and [Pressed x y] frames; the descent theorems
    assume the target lies in the visible square, which holds for clicks
    inside the window ([Frame.window_reachable]).

    ** Theorems, by group

    - Refinement: the GLM code of the bone loop computes the planar chain
      ([Chain.forward_refines_joint]); the Jacobian it computes is the
      derivative of its tip and [dtheta] the negative gradient of the
      squared error ([Gradient]).
    - Functional behaviour of each operation on both branches of the
      guard ([Stepper.solve_step_update], [Stepper.solve_step_converged]),
      the in-place loop equal to the simultaneous update
      ([Stepper.apply_step_map]).  The solver runs whether or not a target
      was set (no [targetSet] guard); this is harmless only because the
      rest pose and the default target lie on the x axis ([Frame]).
    - Geometry: rest pose, rigid bones, reach and the residual for
      unreachable targets ([Chain]); orthogonality, length and degenerate
      lever arms of the Jacobian ([Jacobian], [Stepper]).
    - Round trip between the mouse mapping and the camera, the marker
      centred on the click ([Camera]), the bones drawn along the chain,
      the converged tip drawn under the cursor, and no marker and the rest
      pose drawn before the first click ([Drawing], with the invariant
      [Frame.reachable_well_formed] of reachable states).
    - Behaviour over frames ([Frame]), by rule induction on reachable
      states: no-op before the first click, stability once converged, the
      rest pose stuck for targets on the x axis.
    - Descent ([Descent], [Frame]): for every target of the visible
      square, each solver step lowers the squared error by at least
      [step * sum_i dtheta[i]^2] ([solve_step_sufficient_decrease]); the
      distance never grows from frame to frame
      ([solve_step_error_nonincreasing], [idle_error_nonincreasing]); it
      converges ([idle_error_converges]); and the sum over all frames of
      the increments is bounded by the initial squared error, so they
      tend to zero ([idle_steps_vanish]).  For the states reached with
      clicks inside the window ([window_reachable]) the hypotheses are an
      invariant ([window_idle_error_nonincreasing]).  Convergence to the target is
      not a theorem: the pose can stop where every [dtheta[i]] vanishes
      away from the target, as [rest_pose_stuck_on_axis] shows.
    - Types and bounds: for any lengths the loop builds only planar
      affine matrices and keeps its arrays at five entries in the plane
      [z = 0] ([Chain.forward_shape], meaningful for positive lengths:
      over [R] the zero length divides to [0], in floats to [inf]); every
      drawn bone lies in the
      rectangle of its length and half-width [0.6]
      ([Drawing.bone_vertices_in_rectangle]).
    - The session ([Session]): the [do ... while] loop terminates exactly
      when an input asks to exit, at the first such input, never reading
      the later ones, and [main] returns [0] ([session_terminates],
      [run_stops_at_first_request], [loop_exec_first_request]); the
      function [run] and the relation [loop_exec] agree
      ([run_iff_loop_exec]); the console output has one [EE] line per
      iteration, [lengths[4]] away from the [P4] line before it.
    - The whole program ([Program]): every run of [main] keeps to the
      GLFW/OpenGL contract, each [glDrawArrays] reading within its
      buffers, and when it returns it has deleted every object it
      created and terminated GLFW exactly when [glfwInit] succeeded
      ([main_respects_api], by an invariant [steady] kept by every frame);
      it returns [-1] exactly when a start-up call fails, with one error
      message and no GL call ([main_startup_failure]); and what it prints
      is the trace of [Session] ([main_prints]).
    - Single precision ([Float32]): the float update stays within three
      rounding errors of the real one ([apply_step_f32_error]), and it is
      lost altogether when the increments are below a quarter of the
      spacing of the angles ([apply_step_f32_absorbed]): for angles in
      [(1, 2)] every [|dtheta[i]| <= 0.00149], which the real increments
      meet once [|Vx| + |Vy| <= 3.8e-5] ([dtheta_absorption_bound]),
      while the guard of line 333 still fires.  In general the float [dtheta[i]]
      is at most [2 L w (1 + 10^-6) + 2^-130] for lever arms of at most
      [L] and an error of at most [w] per component ([dtheta32_bound],
      the forward error of a two-term dot product), so the whole float
      block is a no-op for every error up to [1.9e-5] per component when
      [L = 39] and the angles are in [(1, 2)]
      ([solve_step_f32_stalls]).
    - The console text ([Console]): what [%f] writes parses back, with
      the sign of the value, to within [5e-7] of it ([fixed6_roundtrip]).

    No fuel is needed: every loop of the program that is modelled runs
    over [seq 0 numBones] ([numBones = 5]); the frame loop is modelled one
    frame at a time ([frame], [idle n] for [n] frames) and, with its exit
    test, by structural recursion over the finite list of per-iteration
    inputs ([Session.run]): a session that never asks to exit is a
    prefix of one that runs for ever, which [run] reports as [Running].

    ** What remains

    The forward kinematics in single precision: its [glm::rotate] calls
    [cosf] and [sinf], whose results the C library does not fix to the
    correctly rounded value, so the float positions can be bounded only
    against an assumed accuracy of those functions; the float solver
    therefore takes the positions and the tip as inputs.  The rest of
    [src/IKTest.cpp] not in the map is includes, comments, blank lines
    and the global [GLFWwindow* window] (line 10), which holds the
    window [Program] treats as the platform. *)

From Stdlib Require Export Reals Lra Lia List Psatz.
Export ListNotations.
Open Scope R_scope.

Declare Scope ik_scope.
Delimit Scope ik_scope with ik.

(** [l.[i]] is the C++ array read [l[i]], with [0] outside the array. *)
Notation "l .[ i ]" := (nth i l 0%R) (at level 1, format "l .[ i ]")
  : ik_scope.
Open Scope ik_scope.

(** ** In-place array update *)

(** [set_nth l i v] is the C++ write [l[i] = v]; out of range (undefined
    behaviour in C++, never reached by the program) it leaves [l] as is. *)
Fixpoint set_nth {A} (l : list A) (i : nat) (v : A) : list A :=
  match l, i with
  | [], _ => []
  | _ :: t, O => v :: t
  | h :: t, S j => h :: set_nth t j v
  end.

Lemma length_set_nth {A} (l : list A) i v :
  length (set_nth l i v) = length l.
Proof. revert i; induction l; intros [|i]; simpl; auto. Qed.

Lemma nth_set_nth_eq {A} (l : list A) i v d :
  (i < length l)%nat -> nth i (set_nth l i v) d = v.
Proof.
  revert i; induction l; intros [|i] H; simpl in *; try lia; auto.
  apply IHl; lia.
Qed.

Lemma nth_set_nth_ne {A} (l : list A) i j v d :
  i <> j -> nth j (set_nth l i v) d = nth j l d.
Proof.
  revert i j; induction l; intros [|i] [|j] H; simpl; auto; try lia.
Qed.

(** Writing back the value read leaves the array as it was. *)
Lemma set_nth_nth_self {A} (l : list A) i d : set_nth l i (nth i l d) = l.
Proof. revert i; induction l as [|h t IH]; intros [|i]; simpl; f_equal; auto. Qed.

(** Writing past a prefix of known length. *)
Lemma set_nth_app {A} (l1 l2 : list A) i v :
  (length l1 <= i)%nat -> set_nth (l1 ++ l2) i v = l1 ++ set_nth l2 (i - length l1) v.
Proof.
  revert i; induction l1 as [|h t IH]; intros i Hi; simpl in *.
  - now rewrite Nat.sub_0_r.
  - destruct i; [lia|]. simpl. rewrite IH by lia. reflexivity.
Qed.

Lemma skipn_nth_cons {A} (l : list A) k d :
  (k < length l)%nat -> skipn k l = nth k l d :: skipn (S k) l.
Proof.
  revert k; induction l as [|h t IH]; intros [|k] Hk; simpl in *; try lia; auto.
  apply IH. lia.
Qed.

(** Reading back a loop that wrote [f i] at every index [i < n]. *)
Lemma nth_map_seq {A} (f : nat -> A) n i d :
  (i < n)%nat -> nth i (map f (seq 0 n)) d = f i.
Proof.
  intros Hi. rewrite nth_indep with (d' := f 0%nat) by (rewrite length_map, length_seq; lia).
  rewrite map_nth, seq_nth by lia. reflexivity.
Qed.

(** A loop that reads every element back builds the same list. *)
Lemma map_nth_seq_self {A} (l : list A) d :
  map (fun i => nth i l d) (seq 0 (length l)) = l.
Proof.
  apply nth_ext with (d := d) (d' := d); [now rewrite length_map, length_seq|].
  intros n Hn. rewrite length_map, length_seq in Hn. now rewrite nth_map_seq.
Qed.

(** The in-place loop [for (i = 0; i < k; ++i) a[i] = g(i, a[i])] reads
    every index before it writes it, and writes it once: after [k] rounds
    the prefix holds [g i] of the original elements. *)
Lemma fold_set_nth_prefix (g : nat -> R -> R) (l : list R) k :
  (k <= length l)%nat ->
  fold_left (fun th i => set_nth th i (g i th.[i])) (seq 0 k) l
  = map (fun i => g i l.[i]) (seq 0 k) ++ skipn k l.
Proof.
  induction k as [|k IH]; intros Hk; [reflexivity|].
  rewrite seq_S, fold_left_app, IH by lia. cbn [fold_left Nat.add].
  rewrite (skipn_nth_cons l k 0) by lia.
  rewrite app_nth2 by (rewrite length_map, length_seq; lia).
  rewrite length_map, length_seq, Nat.sub_diag.
  rewrite set_nth_app by (rewrite length_map, length_seq; lia).
  rewrite length_map, length_seq, Nat.sub_diag, map_app, <- app_assoc. reflexivity.
Qed.

Lemma fold_set_nth_all (g : nat -> R -> R) (l : list R) n :
  length l = n ->
  fold_left (fun th i => set_nth th i (g i th.[i])) (seq 0 n) l = map (fun i => g i l.[i]) (seq 0 n).
Proof.
  intros Hl. rewrite fold_set_nth_prefix by lia.
  rewrite <- Hl, skipn_all, app_nil_r. reflexivity.
Qed.

(** A property kept by every step of a [fold_left] holds of its result. *)
Lemma fold_left_invariant {A B} (P : A -> Prop) (f : A -> B -> A) (l : list B) (a : A) :
  P a -> (forall x b, In b l -> P x -> P (f x b)) -> P (fold_left f l a).
Proof.
  revert a. induction l as [|b l IH]; intros a Ha Hs; cbn [fold_left]; [exact Ha|].
  apply IH; [apply Hs; [left; reflexivity | exact Ha]|].
  intros x c Hc. apply Hs. right. exact Hc.
Qed.

Create HintDb ik.
Create Rewrite HintDb ik_rw.
#[export] Hint Rewrite @length_set_nth : ik_rw.

(** ** Finite sums over indices *)

(** [rsum n f] is [f 0 + ... + f (n-1)]. *)
Fixpoint rsum (n : nat) (f : nat -> R) : R :=
  match n with
  | O => 0
  | S k => rsum k f + f k
  end.

Lemma rsum_ext n f g :
  (forall k, (k < n)%nat -> f k = g k) -> rsum n f = rsum n g.
Proof.
  induction n; intros H; simpl; auto.
  rewrite IHn, H; auto; lia.
Qed.

Lemma rsum_zero n f :
  (forall k, (k < n)%nat -> f k = 0) -> rsum n f = 0.
Proof.
  induction n; intros H; simpl; auto.
  rewrite IHn, H; [lra| lia | intros; apply H; lia].
Qed.

Lemma rsum_scale c n f : c * rsum n f = rsum n (fun k => c * f k).
Proof. induction n; simpl; [ring|]. rewrite <- IHn. ring. Qed.

Lemma rsum_nonneg n f :
  (forall k, (k < n)%nat -> 0 <= f k) -> 0 <= rsum n f.
Proof.
  induction n; intros H; simpl; [lra|].
  pose proof (H n ltac:(lia)). pose proof (IHn ltac:(intros; apply H; lia)). lra.
Qed.

Lemma rsum_plus n f g : rsum n (fun k => f k + g k) = rsum n f + rsum n g.
Proof. induction n as [|n IH]; cbn [rsum]; [ring|]. rewrite IH. ring. Qed.

Lemma rsum_minus n f g : rsum n f - rsum n g = rsum n (fun k => f k - g k).
Proof. induction n as [|n IH]; cbn [rsum]; [ring|]. rewrite <- IH. ring. Qed.

Lemma rsum_le n f g :
  (forall k, (k < n)%nat -> f k <= g k) -> rsum n f <= rsum n g.
Proof.
  induction n as [|n IH]; intros H; cbn [rsum]; [lra|].
  pose proof (H n ltac:(lia)). pose proof (IH ltac:(intros; apply H; lia)). lra.
Qed.

Lemma rsum_abs n f : Rabs (rsum n f) <= rsum n (fun k => Rabs (f k)).
Proof.
  induction n as [|n IH]; cbn [rsum]; [rewrite Rabs_R0; lra|].
  pose proof (Rabs_triang (rsum n f) (f n)). lra.
Qed.

(** Exchange of a double sum. *)
Lemma rsum_swap n m f :
  rsum n (fun k => rsum m (fun i => f i k)) = rsum m (fun i => rsum n (fun k => f i k)).
Proof.
  induction n as [|n IH]; cbn [rsum].
  - symmetry. now apply rsum_zero.
  - rewrite IH, <- rsum_plus. reflexivity.
Qed.

(** The terms of index below [m] are a prefix of the sum. *)
Lemma rsum_prefix m n f :
  (m <= n)%nat -> rsum n (fun k => if (k <? m)%nat then f k else 0) = rsum m f.
Proof.
  induction n as [|n IH]; intros Hm.
  - now replace m with 0%nat by lia.
  - destruct (Nat.eq_dec m (S n)) as [->|Hne].
    + apply rsum_ext. intros k Hk. now replace (k <? S n)%nat with true by (symmetry; apply Nat.ltb_lt; lia).
    + cbn [rsum]. rewrite IH by lia.
      replace (n <? m)%nat with false by (symmetry; apply Nat.ltb_ge; lia). ring.
Qed.

(** The terms of index at least [i] are what remains of the sum. *)
Lemma rsum_suffix i n f :
  (i <= n)%nat -> rsum n f - rsum i f = rsum n (fun k => if (i <=? k)%nat then f k else 0).
Proof.
  induction n as [|n IH]; intros Hi.
  - replace i with 0%nat by lia. cbn. ring.
  - destruct (Nat.eq_dec i (S n)) as [->|Hne].
    + rewrite Rminus_diag. symmetry. apply rsum_zero. intros k Hk.
      now replace (S n <=? k)%nat with false by (symmetry; apply Nat.leb_gt; lia).
    + cbn [rsum]. replace (i <=? n)%nat with true by (symmetry; apply Nat.leb_le; lia).
      rewrite <- IH by lia. ring.
Qed.

Lemma rsum_sq_shift n x y :
  rsum n (fun i => (x i - y) * (x i - y))
  = rsum n (fun i => x i * x i) - 2 * y * rsum n x + INR n * (y * y).
Proof.
  induction n as [|n IH]; cbn [rsum]; [cbn; ring|]. rewrite IH, S_INR. ring.
Qed.

(** Cauchy-Schwarz for a sum of [n] terms: [(sum x)^2 <= n * sum x^2]. *)
Lemma rsum_sq_le n x : rsum n x * rsum n x <= INR n * rsum n (fun i => x i * x i).
Proof.
  induction n as [|n IH]; cbn [rsum]; [cbn; lra|].
  pose proof (rsum_nonneg n (fun i => (x i - x n) * (x i - x n))
                (fun k _ => Rle_0_sqr (x k - x n))) as H.
  rewrite rsum_sq_shift in H. rewrite S_INR. nra.
Qed.

Lemma Un_cv_ext u v l : (forall n, u n = v n) -> Un_cv u l -> Un_cv v l.
Proof.
  intros He H eps Heps. destruct (H eps Heps) as [N HN].
  exists N. intros n Hn. rewrite <- He. now apply HN.
Qed.

(** The terms of a series of non-negative terms with bounded partial sums
    tend to zero. *)
Lemma summable_vanish (u : nat -> R) (B : R) :
  (forall n, 0 <= u n) -> (forall n, rsum n u <= B) -> Un_cv u 0.
Proof.
  intros Hpos Hb.
  destruct (growing_cv (fun n => rsum n u)) as [l Hl].
  - intros n. cbn [rsum]. pose proof (Hpos n). lra.
  - exists B. intros x [n ->]. apply Hb.
  - pose proof (CV_minus _ _ _ _ (CV_shift' _ 1 _ Hl) Hl) as H.
    replace (l - l) with 0 in H by ring.
    apply (Un_cv_ext (fun n => rsum (n + 1) u - rsum n u)); [|exact H].
    intros n. rewrite Nat.add_1_r. cbn [rsum]. ring.
Qed.

(** ** Reachability *)

Section Star.
Context {A : Type} (next : A -> A -> Prop).

(** Zero or more steps. *)
Inductive star : A -> A -> Prop :=
| star_refl a : star a a
| star_step a b c : next a b -> star b c -> star a c.

Lemma star_trans a b c : star a b -> star b c -> star a c.
Proof. induction 1; eauto using star. Qed.

Lemma star_snoc a b c : star a b -> next b c -> star a c.
Proof. intros H1 H2. eapply star_trans; eauto using star. Qed.

(** Rule induction: a property of the initial state preserved by every
    step holds of every reachable state. *)
Lemma star_invariant (P : A -> Prop) a b :
  P a -> (forall x y, P x -> next x y -> P y) -> star a b -> P b.
Proof. intros Ha Hs H. induction H; eauto. Qed.
End Star.

(** ** The Euclidean norm of the plane *)

Definition norm2 (a b : R) : R := sqrt (a * a + b * b).

Lemma norm2_nonneg a b : 0 <= norm2 a b.
Proof. apply sqrt_pos. Qed.

Lemma norm2_sqr a b : norm2 a b * norm2 a b = a * a + b * b.
Proof. apply sqrt_sqrt; nra. Qed.

Lemma norm2_0 : norm2 0 0 = 0.
Proof. unfold norm2. replace (0 * 0 + 0 * 0) with 0 by lra. apply sqrt_0. Qed.

(** A vector of the plane is determined to be zero by its norm. *)
Lemma norm2_eq_0 a b : norm2 a b = 0 -> a = 0 /\ b = 0.
Proof. intros H. pose proof (norm2_sqr a b) as Hs. rewrite H in Hs. nra. Qed.

Lemma norm2_scaled_unit l t : norm2 (l * cos t) (l * sin t) = Rabs l.
Proof.
  unfold norm2. rewrite <- sqrt_Rsqr_abs. f_equal.
  pose proof (sin2_cos2 t). unfold Rsqr in *. nra.
Qed.

Lemma norm2_x a : norm2 a 0 = Rabs a.
Proof. unfold norm2. rewrite <- sqrt_Rsqr_abs. f_equal. unfold Rsqr. ring. Qed.

(** Each coordinate is bounded by the norm. *)
Lemma norm2_bounds a b : Rabs a <= norm2 a b /\ Rabs b <= norm2 a b.
Proof.
  unfold norm2. split; rewrite <- sqrt_Rsqr_abs; apply sqrt_le_1_alt;
    unfold Rsqr; nra.
Qed.

(** Cauchy-Schwarz in the plane. *)
Lemma dot2_le_norm2 a b c d : a * c + b * d <= norm2 a b * norm2 c d.
Proof.
  unfold norm2. rewrite <- sqrt_mult_alt by nra.
  apply Rle_trans with (Rabs (a * c + b * d)); [apply Rle_abs|].
  rewrite <- sqrt_Rsqr_abs. apply sqrt_le_1_alt.
  pose proof (Rle_0_sqr (a * d - b * c)). unfold Rsqr in *. nra.
Qed.

Lemma norm2_triangle a b c d :
  norm2 (a + c) (b + d) <= norm2 a b + norm2 c d.
Proof.
  pose proof (norm2_nonneg a b). pose proof (norm2_nonneg c d).
  apply Rsqr_incr_0_var; [|lra]. unfold Rsqr.
  rewrite norm2_sqr.
  pose proof (norm2_sqr a b). pose proof (norm2_sqr c d).
  pose proof (dot2_le_norm2 a b c d). nra.
Qed.

Lemma norm2_reverse_triangle a b c d :
  norm2 a b - norm2 c d <= norm2 (a - c) (b - d).
Proof.
  pose proof (norm2_triangle (a - c) (b - d) c d) as H.
  replace (a - c + c) with a in H by lra.
  replace (b - d + d) with b in H by lra. lra.
Qed.

(** ** Trigonometry *)

(** Expand the cosine and sine of sums of angles. *)
Ltac trig_expand := repeat (rewrite cos_plus || rewrite sin_plus).

#[export] Hint Rewrite cos_0 sin_0 cos_PI2 sin_PI2 sqrt_1 sqrt_0 : ik_rw.

(** Bounds used by the descent of the stepper: [sin] and [cos] are
    1-Lipschitz and agree with their first-order expansion up to [h^2/2]. *)

Lemma Rabs_sin_le x : Rabs (sin x) <= Rabs x.
Proof.
  assert (Hpos : forall y, 0 < y -> Rabs (sin y) <= y).
  { intros y Hy. pose proof (sin_lt_x y Hy) as H1. pose proof (SIN_bound y) as H2.
    apply Rabs_le. split; [|lra].
    destruct (Rle_lt_dec 1 y); [lra|].
    pose proof PI2_1. assert (0 < sin y) by (apply sin_gt_0; lra). lra. }
  destruct (Rtotal_order x 0) as [Hx|[Hx|Hx]].
  - rewrite (Rabs_left x) by exact Hx.
    replace (sin x) with (- sin (- x)) by (rewrite sin_neg; ring).
    rewrite Rabs_Ropp. apply Hpos. lra.
  - subst. rewrite sin_0. lra.
  - rewrite (Rabs_right x) by lra. now apply Hpos.
Qed.

Lemma Rabs_half x : Rabs (x / 2) = Rabs x / 2.
Proof. unfold Rdiv. rewrite Rabs_mult, Rabs_inv, (Rabs_right 2) by lra. reflexivity. Qed.

Lemma cos_sub_1_bound h : Rabs (cos h - 1) <= h * h / 2.
Proof.
  replace h with (2 * (h / 2)) at 1 by field. rewrite cos_2a_sin.
  pose proof (Rsqr_le_abs_1 _ _ (Rabs_sin_le (h / 2))) as H. unfold Rsqr in H.
  rewrite Rabs_left1 by nra. nra.
Qed.

Lemma Rabs_le_bounds x a : Rabs x <= a -> - a <= x <= a.
Proof. intros H. split_Rabs; lra. Qed.

Lemma Rabs_bound_1 x : -1 <= x <= 1 -> Rabs x <= 1.
Proof. intros. apply Rabs_le. lra. Qed.

Lemma cos_shift_bound a h : Rabs (cos (a + h) - cos a) <= Rabs h.
Proof.
  rewrite form2. replace ((a + h - a) / 2) with (h / 2) by field.
  pose proof (Rabs_sin_le (h / 2)) as H. rewrite Rabs_half in H.
  pose proof (Rabs_bound_1 _ (SIN_bound ((a + h + a) / 2))) as H1.
  rewrite !Rabs_mult, (Rabs_left (-2)) by lra.
  pose proof (Rabs_pos (sin (h / 2))). pose proof (Rabs_pos (sin ((a + h + a) / 2))). nra.
Qed.

Lemma sin_shift_bound a h : Rabs (sin (a + h) - sin a) <= Rabs h.
Proof.
  rewrite form4. replace ((a + h - a) / 2) with (h / 2) by field.
  pose proof (Rabs_sin_le (h / 2)) as H. rewrite Rabs_half in H.
  pose proof (Rabs_bound_1 _ (COS_bound ((a + h + a) / 2))) as H1.
  rewrite !Rabs_mult, (Rabs_right 2) by lra.
  pose proof (Rabs_pos (sin (h / 2))). pose proof (Rabs_pos (cos ((a + h + a) / 2))). nra.
Qed.

Lemma sin_sub_id_bound h : Rabs h <= 1 -> Rabs (sin h - h) <= h * h / 2.
Proof.
  intros H1h.
  assert (Hpos : forall y, 0 < y <= 1 -> Rabs (sin y - y) <= y * y / 2).
  { intros y Hy.
    destruct (MVT_cor2 (fun t => sin t - t) (fun t => cos t - 1) 0 y) as (c & Hc & Hc0);
      [lra | |].
    { intros c _. exact (derivable_pt_lim_minus sin id c (cos c) 1 (derivable_pt_lim_sin c)
               (derivable_pt_lim_id c)). }
    rewrite sin_0, !Rminus_0_r in Hc. rewrite Hc.
    pose proof (cos_sub_1_bound c) as H1. rewrite Rabs_mult, (Rabs_right y) by lra.
    pose proof (Rabs_pos (cos c - 1)). nra. }
  destruct (Rtotal_order h 0) as [Hx|[Hx|Hx]].
  - replace (sin h - h) with (- (sin (- h) - (- h))) by (rewrite sin_neg; ring).
    rewrite Rabs_Ropp. replace (h * h) with ((- h) * (- h)) by ring.
    apply Hpos. apply Rabs_le_bounds in H1h. lra.
  - subst. rewrite sin_0. replace (0 - 0) with 0 by ring. rewrite Rabs_R0. lra.
  - apply Hpos. apply Rabs_le_bounds in H1h. lra.
Qed.

(** ** Derivatives

    The combinators of [Ranalysis1] for functions written as lambdas, so
    that [apply] need not unfold [derivable_pt_lim]. *)

Lemma dpl_plus f g x a b :
  derivable_pt_lim f x a -> derivable_pt_lim g x b ->
  derivable_pt_lim (fun t => f t + g t) x (a + b).
Proof. intros Hf Hg. exact (derivable_pt_lim_plus f g x a b Hf Hg). Qed.

Lemma dpl_const c x : derivable_pt_lim (fun _ => c) x 0.
Proof. exact (derivable_pt_lim_const c x). Qed.

(** Change the value of a derivative to an equal one. *)
Lemma dpl_value f x a b : a = b -> derivable_pt_lim f x a -> derivable_pt_lim f x b.
Proof. now intros ->. Qed.

Lemma dpl_lin p d b : derivable_pt_lim (fun t => p + d * (t - b)) b d.
Proof.
  apply (dpl_value _ _ (0 + d * (1 - 0))); [ring|].
  apply (dpl_plus (fun _ => p) (fun t => d * (t - b))); [apply dpl_const|].
  apply (derivable_pt_lim_scal (fun t => t - b)).
  apply (derivable_pt_lim_minus id (fct_cte b)); [apply derivable_pt_lim_id | apply derivable_pt_lim_const].
Qed.

Lemma dpl_cos_lin l p d b :
  derivable_pt_lim (fun t => l * cos (p + d * (t - b))) b (- (l * d * sin p)).
Proof.
  pose proof (derivable_pt_lim_comp (fun t => p + d * (t - b)) cos b d (- sin (p + d * (b - b))) (dpl_lin p d b)
                (derivable_pt_lim_cos _)) as H.
  apply (dpl_value _ _ (l * (- sin (p + d * (b - b)) * d))); [replace (p + d * (b - b)) with p by ring; ring|].
  exact (derivable_pt_lim_scal (comp cos (fun t => p + d * (t - b))) l b _ H).
Qed.

Lemma dpl_sin_lin l p d b :
  derivable_pt_lim (fun t => l * sin (p + d * (t - b))) b (l * d * cos p).
Proof.
  pose proof (derivable_pt_lim_comp (fun t => p + d * (t - b)) sin b d (cos (p + d * (b - b))) (dpl_lin p d b)
                (derivable_pt_lim_sin _)) as H.
  apply (dpl_value _ _ (l * (cos (p + d * (b - b)) * d))); [replace (p + d * (b - b)) with p by ring; ring|].
  exact (derivable_pt_lim_scal (comp sin (fun t => p + d * (t - b))) l b _ H).
Qed.

Lemma dpl_sq c f x a :
  derivable_pt_lim f x a ->
  derivable_pt_lim (fun t => (c - f t) * (c - f t)) x (- (2 * (c - f x) * a)).
Proof.
  intros Hf.
  assert (Hg : derivable_pt_lim (fun t => c - f t) x (0 - a))
    by exact (derivable_pt_lim_minus (fct_cte c) f x 0 a (derivable_pt_lim_const c x) Hf).
  apply (dpl_value _ _ ((0 - a) * (c - f x) + (c - f x) * (0 - a))); [ring|].
  exact (derivable_pt_lim_mult (fun t => c - f t) (fun t => c - f t) x _ _ Hg Hg).
Qed.
