(* ===== verification/Glm.v ===== *)
(** * The part of GLM that src/IKTest.cpp calls

    GLM is a header-only library: the program calls it but does not define
    it.  This file gives the definitions of GLM 0.9.x for the calls the
    program makes ([glm::mat4] products, [glm::translate], [glm::scale],
    [glm::rotate], [glm::cross], [glm::dot], [glm::length], the [vec3] of a
    [vec4]), over [R], with matrices column-major as in GLM ([m[3]] is the
    translation column).  It then proves the algebra forward kinematics
    relies on: associativity, identity, products of scalings, GLM's
    rotation about [(0,0,1)] as the planar rotation, and the planar rigid
    frames [frame_mat] with their composition laws. *)

From S2P Require Import Prelude.

Record vec3 := Vec3 { vx : R; vy : R; vz : R }.
Record vec4 := Vec4 { x4 : R; y4 : R; z4 : R; w4 : R }.
(** [Mat4 c0 c1 c2 c3] has columns [c0..c3]: [m[j]] in GLM is [colj m]. *)
Record mat4 := Mat4 { col0 : vec4; col1 : vec4; col2 : vec4; col3 : vec4 }.

(** ** Vectors *)

Definition vec3_zero : vec3 := Vec3 0 0 0.
Definition vadd (u v : vec3) : vec3 := Vec3 (vx u + vx v) (vy u + vy v) (vz u + vz v).
Definition vsub (u v : vec3) : vec3 := Vec3 (vx u - vx v) (vy u - vy v) (vz u - vz v).
Definition vscale (s : R) (u : vec3) : vec3 := Vec3 (s * vx u) (s * vy u) (s * vz u).

(** [glm::dot] and [glm::cross] on [vec3]. *)
Definition dot (u v : vec3) : R := vx u * vx v + vy u * vy v + vz u * vz v.
Definition cross (u v : vec3) : vec3 :=
  Vec3 (vy u * vz v - vy v * vz u)
       (vz u * vx v - vz v * vx u)
       (vx u * vy v - vx v * vy u).

(** [glm::length] and [glm::normalize] ([x * inversesqrt(dot(x, x))]). *)
Definition vlength (u : vec3) : R := sqrt (dot u u).
Definition normalize (u : vec3) : vec3 := vscale (/ sqrt (dot u u)) u.

(** [f 0 + ... + f (n-1)] for vectors. *)
Fixpoint vsum (n : nat) (f : nat -> vec3) : vec3 :=
  match n with
  | O => vec3_zero
  | S k => vadd (vsum k f) (f k)
  end.

(** [vec3(v)] for a [vec4] [v]: its first three components. *)
Definition vec3_of_vec4 (v : vec4) : vec3 := Vec3 (x4 v) (y4 v) (z4 v).

Definition v4add (u v : vec4) : vec4 :=
  Vec4 (x4 u + x4 v) (y4 u + y4 v) (z4 u + z4 v) (w4 u + w4 v).
Definition v4scale (u : vec4) (s : R) : vec4 :=
  Vec4 (x4 u * s) (y4 u * s) (z4 u * s) (w4 u * s).

(** ** Matrices *)

(** [glm::mat4(1.0f)]; [glm::mat4()] is the same matrix in GLM < 0.9.9. *)
Definition mat4_id : mat4 :=
  Mat4 (Vec4 1 0 0 0) (Vec4 0 1 0 0) (Vec4 0 0 1 0) (Vec4 0 0 0 1).

(** [m * v]: [m[0] * v.x + m[1] * v.y + m[2] * v.z + m[3] * v.w]. *)
Definition mat4_mul_vec4 (m : mat4) (v : vec4) : vec4 :=
  v4add (v4add (v4add (v4scale (col0 m) (x4 v)) (v4scale (col1 m) (y4 v)))
               (v4scale (col2 m) (z4 v)))
        (v4scale (col3 m) (w4 v)).

(** [m1 * m2], column by column as GLM computes it. *)
Definition mat4_mul (m1 m2 : mat4) : mat4 :=
  Mat4 (mat4_mul_vec4 m1 (col0 m2)) (mat4_mul_vec4 m1 (col1 m2))
       (mat4_mul_vec4 m1 (col2 m2)) (mat4_mul_vec4 m1 (col3 m2)).

Declare Scope glm_scope.
Delimit Scope glm_scope with glm.
Infix "**" := mat4_mul (at level 40, left associativity) : glm_scope.
Open Scope glm_scope.

(** [glm::translate(m, v)]: [Result[3] = m[0]*v[0] + m[1]*v[1] + m[2]*v[2] + m[3]]. *)
Definition translate (m : mat4) (v : vec3) : mat4 :=
  Mat4 (col0 m) (col1 m) (col2 m)
       (v4add (v4add (v4add (v4scale (col0 m) (vx v)) (v4scale (col1 m) (vy v)))
                     (v4scale (col2 m) (vz v))) (col3 m)).

(** [glm::scale(m, v)]: columns [m[0]*v[0], m[1]*v[1], m[2]*v[2], m[3]]. *)
Definition scale (m : mat4) (v : vec3) : mat4 :=
  Mat4 (v4scale (col0 m) (vx v)) (v4scale (col1 m) (vy v))
       (v4scale (col2 m) (vz v)) (col3 m).

(** [glm::rotate(m, angle, v)]: the rotation of [angle] radians about the
    normalised axis [v], multiplied on the right of [m]. *)
Definition rotate (m : mat4) (angle : R) (v : vec3) : mat4 :=
  let c := cos angle in
  let s := sin angle in
  let axis := normalize v in
  let temp := vscale (1 - c) axis in
  let r00 := c + vx temp * vx axis in
  let r01 := vx temp * vy axis + s * vz axis in
  let r02 := vx temp * vz axis - s * vy axis in
  let r10 := vy temp * vx axis - s * vz axis in
  let r11 := c + vy temp * vy axis in
  let r12 := vy temp * vz axis + s * vx axis in
  let r20 := vz temp * vx axis + s * vy axis in
  let r21 := vz temp * vy axis - s * vx axis in
  let r22 := c + vz temp * vz axis in
  Mat4 (v4add (v4add (v4scale (col0 m) r00) (v4scale (col1 m) r01)) (v4scale (col2 m) r02))
       (v4add (v4add (v4scale (col0 m) r10) (v4scale (col1 m) r11)) (v4scale (col2 m) r12))
       (v4add (v4add (v4scale (col0 m) r20) (v4scale (col1 m) r21)) (v4scale (col2 m) r22))
       (col3 m).

(** [glm::rotate(angle, v)] of [gtx/transform]: [rotate(mat4(1), angle, v)]. *)
Definition rotate_axis (angle : R) (v : vec3) : mat4 := rotate mat4_id angle v.

(** [rotAxis] of line 188. *)
Definition rotAxis : vec3 := Vec3 0 0 1.

(** ** The planar rigid frames *)

(** The rotation by [t] about the z axis. *)
Definition rot_z (t : R) : mat4 :=
  Mat4 (Vec4 (cos t) (sin t) 0 0) (Vec4 (- sin t) (cos t) 0 0)
       (Vec4 0 0 1 0) (Vec4 0 0 0 1).

(** The frame at [(px, py)] turned by [phi]: a translation after a
    rotation about the z axis. *)
Definition frame_mat (px py phi : R) : mat4 :=
  Mat4 (Vec4 (cos phi) (sin phi) 0 0) (Vec4 (- sin phi) (cos phi) 0 0)
       (Vec4 0 0 1 0) (Vec4 px py 0 1).

(** The shape every [Model] of the program has: an affine map of space
    that keeps the plane [z = 0], i.e. rows 2 and 3 are [(0, 0, 1, 0)] and
    [(0, 0, 0, 1)]. *)
Definition planar_affine (m : mat4) : Prop :=
  z4 (col0 m) = 0 /\ z4 (col1 m) = 0 /\ z4 (col2 m) = 1 /\ z4 (col3 m) = 0 /\
  w4 (col0 m) = 0 /\ w4 (col1 m) = 0 /\ w4 (col2 m) = 0 /\ w4 (col3 m) = 1.

(** ** Extensionality *)

Lemma vec4_eq_intro (a b : vec4) :
  x4 a = x4 b -> y4 a = y4 b -> z4 a = z4 b -> w4 a = w4 b -> a = b.
Proof. destruct a, b; simpl; intros; subst; reflexivity. Qed.

Lemma mat4_eq_intro (a b : mat4) :
  col0 a = col0 b -> col1 a = col1 b -> col2 a = col2 b -> col3 a = col3 b -> a = b.
Proof. destruct a, b; simpl; intros; subst; reflexivity. Qed.

Lemma vec3_eq_intro (a b : vec3) : vx a = vx b -> vy a = vy b -> vz a = vz b -> a = b.
Proof. destruct a, b; simpl; intros; subst; reflexivity. Qed.

(** The length of a vector of the plane [z = 0]. *)
Lemma vlength_planar v : vz v = 0 -> vlength v = norm2 (vx v) (vy v).
Proof. intros H. unfold vlength, dot, norm2. rewrite H. f_equal. ring. Qed.

Lemma vlength_vsub_comm u v : vlength (vsub u v) = vlength (vsub v u).
Proof. unfold vlength, dot, vsub. cbn [vx vy vz]. f_equal. ring. Qed.

Lemma dot_vsum n f v : dot (vsum n f) v = rsum n (fun i => dot (f i) v).
Proof.
  induction n as [|n IH]; cbn [vsum rsum].
  - unfold dot, vec3_zero; cbn; ring.
  - rewrite <- IH. unfold dot, vadd; cbn [vx vy vz]. ring.
Qed.

(** Unfold the GLM operations down to the entries ([cbv] with an explicit
    list: [unfold] is far slower on these records). *)
Ltac glm_unfold :=
  cbv [mat4_mul mat4_mul_vec4 v4add v4scale translate scale mat4_id rot_z frame_mat
       col0 col1 col2 col3 x4 y4 z4 w4 vx vy vz] in *.

(** Reduce an equation of matrices to its sixteen entries. *)
Ltac mat4_entries :=
  apply mat4_eq_intro; apply vec4_eq_intro; cbn [x4 y4 z4 w4 col0 col1 col2 col3].

(** ** Matrix algebra *)

Lemma mat4_mul_assoc a b c : a ** (b ** c) = a ** b ** c.
Proof.
  destruct a as [[] [] [] []], b as [[] [] [] []], c as [[] [] [] []].
  glm_unfold; mat4_entries; ring.
Qed.

(** A product applied to a vector applies the factors one after the other. *)
Lemma mat4_mul_vec4_mul a b v :
  mat4_mul_vec4 (a ** b) v = mat4_mul_vec4 a (mat4_mul_vec4 b v).
Proof.
  destruct a as [[] [] [] []], b as [[] [] [] []], v.
  glm_unfold; apply vec4_eq_intro; cbn [x4 y4 z4 w4]; ring.
Qed.

Lemma mat4_mul_id_r m : m ** mat4_id = m.
Proof.
  destruct m as [[] [] [] []].
  glm_unfold; mat4_entries; ring.
Qed.

Lemma mat4_mul_id_l m : mat4_id ** m = m.
Proof.
  destruct m as [[] [] [] []].
  glm_unfold; mat4_entries; ring.
Qed.

(** [glm::translate(m, v)] and [glm::scale(m, v)] multiply [m] on the right. *)
Lemma translate_mul m v : translate m v = m ** translate mat4_id v.
Proof.
  destruct m as [[] [] [] []], v.
  glm_unfold; mat4_entries; ring.
Qed.

Lemma scale_mul m v : scale m v = m ** scale mat4_id v.
Proof.
  destruct m as [[] [] [] []], v.
  glm_unfold; mat4_entries; ring.
Qed.

(** Two scalings in a row are one scaling by the componentwise product. *)
Lemma scale_scale a1 a2 a3 b1 b2 b3 :
  scale mat4_id (Vec3 a1 a2 a3) ** scale mat4_id (Vec3 b1 b2 b3)
  = scale mat4_id (Vec3 (a1 * b1) (a2 * b2) (a3 * b3)).
Proof.
  glm_unfold; mat4_entries; ring.
Qed.

Lemma scale_one : scale mat4_id (Vec3 1 1 1) = mat4_id.
Proof. glm_unfold; mat4_entries; ring. Qed.

(** A scaling followed by its inverse cancels. *)
Lemma scale_unscale m l h :
  l <> 0 -> h <> 0 ->
  m ** scale mat4_id (Vec3 l h 1) ** scale mat4_id (Vec3 (1 / l) (1 / h) 1) = m.
Proof.
  intros Hl Hh. rewrite <- mat4_mul_assoc, scale_scale.
  replace (Vec3 (l * (1 / l)) (h * (1 / h)) (1 * 1)) with (Vec3 1 1 1)
    by (f_equal; field; auto).
  rewrite scale_one. apply mat4_mul_id_r.
Qed.

(** A scaling on the right leaves the translation column. *)
Lemma col3_mul_scale m v : col3 (m ** scale mat4_id v) = col3 m.
Proof.
  destruct m as [[] [] [] []], v.
  glm_unfold; apply vec4_eq_intro; cbn [x4 y4 z4 w4]; ring.
Qed.

(** GLM's rotation about [rotAxis] is the planar rotation: the axis is
    already of unit length, so normalising it changes nothing. *)
Lemma rotate_rotAxis t : rotate_axis t rotAxis = rot_z t.
Proof.
  unfold rotate_axis, rotate, normalize, rotAxis, dot, vscale, rot_z, mat4_id, v4add, v4scale;
    simpl.
  replace (0 * 0 + 0 * 0 + 1 * 1) with 1 by ring. rewrite sqrt_1.
  mat4_entries; field.
Qed.

(** ** Composition laws of the planar frames *)

Lemma frame_mat_origin : frame_mat 0 0 0 = mat4_id.
Proof. glm_unfold. rewrite cos_0, sin_0. mat4_entries; ring. Qed.

Lemma frame_translate px py phi l :
  frame_mat px py phi ** translate mat4_id (Vec3 l 0 0)
  = frame_mat (px + l * cos phi) (py + l * sin phi) phi.
Proof.
  glm_unfold; mat4_entries; ring.
Qed.

Lemma frame_rotate px py phi t :
  frame_mat px py phi ** rot_z t = frame_mat px py (phi + t).
Proof.
  glm_unfold. trig_expand. mat4_entries; ring.
Qed.

Lemma translate_zero : translate mat4_id vec3_zero = mat4_id.
Proof. unfold vec3_zero; glm_unfold; mat4_entries; ring. Qed.

(** A rotation is the frame at the origin. *)
Lemma rot_z_frame t : rot_z t = frame_mat 0 0 t.
Proof. reflexivity. Qed.

Lemma col3_frame_mat px py phi : col3 (frame_mat px py phi) = Vec4 px py 0 1.
Proof. reflexivity. Qed.

#[export] Hint Rewrite mat4_mul_id_l mat4_mul_id_r col3_mul_scale frame_translate
  frame_rotate rotate_rotAxis : ik_rw.

(** ** Planar affine maps *)

Lemma planar_affine_mul a b : planar_affine a -> planar_affine b -> planar_affine (a ** b).
Proof.
  destruct a as [[] [] [] []], b as [[] [] [] []]. unfold planar_affine.
  cbn [col0 col1 col2 col3 z4 w4].
  intros (-> & -> & -> & -> & -> & -> & -> & ->) (-> & -> & -> & -> & -> & -> & -> & ->).
  glm_unfold. cbn [z4 w4]. repeat split; ring.
Qed.

Lemma planar_affine_id : planar_affine mat4_id.
Proof. unfold planar_affine; glm_unfold; repeat split; reflexivity. Qed.

Lemma planar_affine_translate v : vz v = 0 -> planar_affine (translate mat4_id v).
Proof. intros Hz. unfold planar_affine; glm_unfold. rewrite Hz. repeat split; ring. Qed.

Lemma planar_affine_scale v : vz v = 1 -> planar_affine (scale mat4_id v).
Proof. intros Hz. unfold planar_affine; glm_unfold. rewrite Hz. repeat split; ring. Qed.

Lemma planar_affine_rot_z t : planar_affine (rot_z t).
Proof. unfold planar_affine; glm_unfold. repeat split; reflexivity. Qed.

#[export] Hint Resolve planar_affine_mul planar_affine_id planar_affine_rot_z : ik.
