(* ===== verification/Chain.v ===== *)
(** * Chain Model: forward kinematics of src/IKTest.cpp (lines 149-155, 246-329)

    [bone_body] is one iteration of the bone loop of lines 251-316 with its
    loop-carried variables [Model], [trans] and [positions] ([scale] and
    [rot] are reassigned before every use, so they are locals of the body);
    [bones_loop] is the loop; [end_effector] is lines 317-329; [forward]
    returns [positions] and [endEffect].  The module [Spec] holds the
    abstract planar chain the code is meant to compute, and
    [forward_refines_joint] proves that it does. *)

From S2P Require Import Prelude Glm.

(** ** The configuration of lines 149-155 *)

Definition lengths : list R := [7; 13.5; 11; 3.5; 4].
Definition numBones : nat := 5.
Definition theta0 : list R := [0; 0; 0; 0; 0].

(** Bounds on bone indices. *)
Ltac bones_lia := unfold numBones in *; lia.
#[export] Hint Extern 1 (_ < numBones)%nat => bones_lia : ik.

(** ** The matrix code *)

Record fk_state := FkState { Model : mat4; trans : mat4; positions : list vec3 }.

(** Lines 246-247: [Model = mat4(1)], [trans = translate(mat4(), vec3(0))];
    [vec3 positions[5]] (line 152) as five zero vectors. *)
Definition fk_init : fk_state :=
  FkState mat4_id (translate mat4_id vec3_zero) (repeat vec3_zero numBones).

(** Lines 254-273: undo the previous bone's scaling, move to the end of the
    previous bone, rotate by [theta[i]], scale to draw bone [i]; record
    column 3 of the result as [positions[i]]. *)
Definition bone_body (lengths theta : list R) (st : fk_state) (i : nat) : fk_state :=
  let Model1 :=
    if (0 <? i)%nat
    then Model st ** scale mat4_id (Vec3 (1 / lengths.[i - 1]) (1 / 2) 1)
    else Model st in
  let trans1 :=
    if (0 <? i)%nat then translate mat4_id (Vec3 lengths.[i - 1] 0 0) else trans st in
  let rot := rotate_axis theta.[i] rotAxis in
  let scl := scale mat4_id (Vec3 lengths.[i] 2 1) in
  let Model2 := Model1 ** trans1 ** rot ** scl in
  FkState Model2 trans1 (set_nth (positions st) i (vec3_of_vec4 (col3 Model2))).

(** Line 251: [for (int i = 0; i < numBones; i++)]. *)
Definition bones_loop (lengths theta : list R) : fk_state :=
  fold_left (bone_body lengths theta) (seq 0 numBones) fk_init.

(** Lines 318-329: one more bone with the hard-coded index 4. *)
Definition end_effector (lengths theta : list R) (st : fk_state) : vec3 :=
  let Model1 := Model st ** scale mat4_id (Vec3 (1 / lengths.[4]) (1 / 2) 1) in
  let trans1 := translate mat4_id (Vec3 lengths.[4] 0 0) in
  let rot := rotate_axis theta.[4] rotAxis in
  let scl := scale mat4_id (Vec3 lengths.[4] 2 1) in
  vec3_of_vec4 (col3 (Model1 ** trans1 ** rot ** scl)).

(** The joint positions and the end effector of one frame. *)
Definition forward (lengths theta : list R) : list vec3 * vec3 :=
  let st := bones_loop lengths theta in
  (positions st, end_effector lengths theta st).

(** ** The abstract planar chain *)

Module Spec.

(** The absolute angle of bone [i]: [theta[0] + ... + theta[i]]. *)
Fixpoint angle_sum (theta : list R) (i : nat) : R :=
  match i with
  | O => theta.[0]
  | S k => angle_sum theta k + theta.[S k]
  end.

(** The joint of bone [i]; joint [numBones] is the tip. *)
Fixpoint joint (lengths theta : list R) (i : nat) : vec3 :=
  match i with
  | O => vec3_zero
  | S k =>
      let p := joint lengths theta k in
      Vec3 (vx p + lengths.[k] * cos (angle_sum theta k))
           (vy p + lengths.[k] * sin (angle_sum theta k)) 0
  end.

(** The frame of bone [i] while it is drawn. *)
Definition bone_frame (lengths theta : list R) (i : nat) : mat4 :=
  frame_mat (vx (joint lengths theta i)) (vy (joint lengths theta i))
            (angle_sum theta i)
  ** scale mat4_id (Vec3 lengths.[i] 2 1).

End Spec.
Import Spec.

(** ** The loop invariant *)

(** After [k >= 1] iterations, [Model] is the frame of bone [k-1] and the
    first [k] positions are the first [k] joints. *)
Definition fk_inv (lengths theta : list R) (k : nat) (st : fk_state) : Prop :=
  Model st = bone_frame lengths theta (k - 1) /\
  positions st = map (joint lengths theta) (seq 0 k) ++ repeat vec3_zero (numBones - k).

Lemma joint_z lengths theta i : vz (joint lengths theta i) = 0.
Proof. destruct i; reflexivity. Qed.

Lemma vec3_of_col3_bone_frame lengths theta i :
  vec3_of_vec4 (col3 (bone_frame lengths theta i)) = joint lengths theta i.
Proof.
  unfold bone_frame. rewrite col3_mul_scale, col3_frame_mat.
  apply vec3_eq_intro; simpl; auto. now rewrite joint_z.
Qed.

(** One more bone: the frame moves along the previous bone and turns. *)
Lemma bone_frame_next lengths theta i :
  lengths.[i] <> 0 ->
  bone_frame lengths theta i
    ** scale mat4_id (Vec3 (1 / lengths.[i]) (1 / 2) 1)
    ** translate mat4_id (Vec3 lengths.[i] 0 0)
    ** rotate_axis theta.[S i] rotAxis
    ** scale mat4_id (Vec3 lengths.[S i] 2 1)
  = bone_frame lengths theta (S i).
Proof.
  intros Hl. unfold bone_frame at 1.
  rewrite scale_unscale by lra.
  rewrite frame_translate, rotate_rotAxis, frame_rotate. reflexivity.
Qed.

Lemma positions_next lengths theta i :
  (S i < numBones)%nat ->
  set_nth (map (joint lengths theta) (seq 0 (S i)) ++ repeat vec3_zero (numBones - S i))
          (S i) (joint lengths theta (S i))
  = map (joint lengths theta) (seq 0 (S (S i))) ++ repeat vec3_zero (numBones - S (S i)).
Proof.
  intros Hi. rewrite set_nth_app by (rewrite length_map, length_seq; lia).
  rewrite length_map, length_seq, Nat.sub_diag.
  replace (numBones - S i)%nat with (S (numBones - S (S i))) by bones_lia.
  rewrite (seq_S (S i)), map_app, <- app_assoc. reflexivity.
Qed.

Lemma bone_body_first lengths theta :
  fk_inv lengths theta 1 (bone_body lengths theta fk_init 0).
Proof.
  unfold fk_inv, bone_body, fk_init; cbn [Nat.ltb Nat.leb Model trans positions].
  assert (Hm : mat4_id ** translate mat4_id vec3_zero ** rotate_axis theta.[0] rotAxis
               ** scale mat4_id (Vec3 lengths.[0] 2 1) = bone_frame lengths theta 0).
  { rewrite translate_zero, !mat4_mul_id_l, rotate_rotAxis, rot_z_frame.
    reflexivity. }
  rewrite Hm. split; [reflexivity|].
  rewrite vec3_of_col3_bone_frame. reflexivity.
Qed.

Lemma bone_body_next lengths theta i st :
  (S i < numBones)%nat -> lengths.[i] <> 0 ->
  fk_inv lengths theta (S i) st ->
  fk_inv lengths theta (S (S i)) (bone_body lengths theta st (S i)).
Proof.
  intros Hi Hl [HM HP].
  unfold fk_inv, bone_body; cbn [Nat.ltb Nat.leb Model trans positions].
  replace (S i - 1)%nat with i in * by lia. replace (S (S i) - 1)%nat with (S i) by lia.
  rewrite HM, HP, bone_frame_next, vec3_of_col3_bone_frame by assumption.
  split; [reflexivity|]. now apply positions_next.
Qed.

Lemma bones_loop_prefix lengths theta k :
  (forall i, (i < numBones)%nat -> lengths.[i] <> 0) ->
  (1 <= k <= numBones)%nat ->
  fk_inv lengths theta k (fold_left (bone_body lengths theta) (seq 0 k) fk_init).
Proof.
  intros Hl Hk. induction k as [|k IH]; [lia|].
  rewrite seq_S, fold_left_app. cbn [fold_left Nat.add].
  destruct k as [|k]; [apply bone_body_first|].
  apply bone_body_next; [lia | apply Hl; lia | apply IH; lia].
Qed.

Lemma end_effector_tip lengths theta st :
  lengths.[4] <> 0 -> fk_inv lengths theta numBones st ->
  end_effector lengths theta st = joint lengths theta numBones.
Proof.
  intros Hl [HM _]. unfold end_effector. rewrite HM.
  change (numBones - 1)%nat with 4%nat. unfold bone_frame.
  rewrite scale_unscale, frame_translate, rotate_rotAxis, frame_rotate, col3_mul_scale
    by lra.
  reflexivity.
Qed.

(** ** Refinement: the matrix code computes the planar chain *)

Lemma forward_joint lengths theta :
  (forall i, (i < numBones)%nat -> lengths.[i] <> 0) ->
  forward lengths theta =
  (map (joint lengths theta) (seq 0 numBones), joint lengths theta numBones).
Proof.
  intros Hl. unfold forward, bones_loop.
  pose proof (bones_loop_prefix lengths theta numBones Hl) as Hinv.
  destruct Hinv as [HM HP]; [bones_lia|].
  rewrite HP, (end_effector_tip lengths theta); [|apply Hl; bones_lia|split; auto].
  rewrite Nat.sub_diag, app_nil_r. reflexivity.
Qed.

(** C1: for any lengths the code can divide by and any angles, the
    positions recorded by the bone loop (lines 251-316) are the joints of
    the planar chain, and [endEffect] (lines 317-329) is its tip: the
    composition [Model * scale^-1 * translate * rotate * scale] of GLM
    matrices implements the rigid planar kinematics. *)
Theorem forward_refines_joint lengths theta :
  (forall i, (i < numBones)%nat -> lengths.[i] <> 0) ->
  forward lengths theta =
  (map (joint lengths theta) (seq 0 numBones), joint lengths theta numBones).
Proof.
  intros Hl. unfold forward, bones_loop.
  destruct (bones_loop_prefix lengths theta numBones Hl) as [HM HP]; [bones_lia|].
  rewrite HP, (end_effector_tip lengths theta); [|apply Hl; bones_lia|split; auto].
  rewrite Nat.sub_diag, app_nil_r. reflexivity.
Qed.

(** The lengths of line 149 are non-zero. *)
Lemma lengths_nonzero : forall i, (i < numBones)%nat -> lengths.[i] <> 0.
Proof.
  intros i Hi. unfold numBones in Hi.
  destruct i as [|[|[|[|[|i]]]]]; simpl; lra || lia.
Qed.

Lemma forward_refines_joint_witness :
  (forall i, (i < numBones)%nat -> lengths.[i] <> 0) /\
  forward lengths theta0 = (map (joint lengths theta0) (seq 0 numBones), joint lengths theta0 numBones).
Proof.
  split; [exact lengths_nonzero | exact (forward_refines_joint lengths theta0 lengths_nonzero)].
Defined.

(** ** Geometry of the abstract chain *)

Lemma nth_map_joint lengths theta k :
  (k <= numBones)%nat ->
  nth k (map (joint lengths theta) (seq 0 numBones) ++ [joint lengths theta numBones]) vec3_zero
  = joint lengths theta k.
Proof.
  intros Hk.
  change [joint lengths theta numBones] with (map (joint lengths theta) [(0 + numBones)%nat]).
  rewrite <- map_app, <- seq_S.
  change vec3_zero with (joint lengths theta 0).
  rewrite map_nth, seq_nth by lia. reflexivity.
Qed.

Lemma angle_sum_rest theta i :
  (forall k, (k <= i)%nat -> theta.[k] = 0) -> angle_sum theta i = 0.
Proof.
  induction i as [|i IH]; intros H; simpl.
  - apply H; lia.
  - rewrite IH, (H (S i)); [lra | lia | intros; apply H; lia].
Qed.

Lemma joint_rest lengths theta i :
  (forall k, (k < i)%nat -> theta.[k] = 0) ->
  joint lengths theta i = Vec3 (rsum i (fun j => lengths.[j])) 0 0.
Proof.
  induction i as [|i IH]; intros H; [reflexivity|].
  cbn [joint rsum]. rewrite IH, angle_sum_rest by (intros; apply H; lia).
  autorewrite with ik_rw. cbn [vx vy]. f_equal; ring.
Qed.

Lemma joint_segment lengths theta i :
  vsub (joint lengths theta (S i)) (joint lengths theta i)
  = Vec3 (lengths.[i] * cos (angle_sum theta i)) (lengths.[i] * sin (angle_sum theta i)) 0.
Proof.
  cbn [joint]. unfold vsub. cbn [vx vy vz]. rewrite joint_z. f_equal; ring.
Qed.

Lemma joint_reach lengths theta n :
  vlength (joint lengths theta n) <= rsum n (fun i => Rabs lengths.[i]).
Proof.
  induction n as [|n IH].
  - unfold vlength, dot. simpl. replace (0 * 0 + 0 * 0 + 0 * 0) with 0 by ring.
    rewrite sqrt_0. lra.
  - rewrite vlength_planar by reflexivity. cbn [joint vx vy rsum].
    rewrite vlength_planar in IH by apply joint_z.
    pose proof (norm2_triangle (vx (joint lengths theta n)) (vy (joint lengths theta n))
                 (lengths.[n] * cos (angle_sum theta n)) (lengths.[n] * sin (angle_sum theta n))).
    rewrite norm2_scaled_unit in H. lra.
Qed.

(** ** Properties of the forward kinematics of the code *)

(** The [numBones + 1] points of the chain: the joints, then the tip. *)
Definition chain_points (f : list vec3 * vec3) : list vec3 := fst f ++ [snd f].

Lemma positive_nonzero (lengths : list R) :
  (forall i, (i < numBones)%nat -> 0 < lengths.[i]) ->
  forall i, (i < numBones)%nat -> lengths.[i] <> 0.
Proof. intros H i Hi. specialize (H i Hi). lra. Qed.

Lemma theta0_zero k : theta0.[k] = 0.
Proof. destruct k as [|[|[|[|[|k]]]]]; try reflexivity. simpl. now destruct k. Qed.

Lemma lengths_positive : forall i, (i < numBones)%nat -> 0 < lengths.[i].
Proof.
  intros i Hi. unfold numBones in Hi.
  destruct i as [|[|[|[|[|i]]]]]; simpl; lra || lia.
Qed.

#[export] Hint Resolve lengths_nonzero lengths_positive joint_z : ik.

(** Solve an equation between concrete lists, pairs and vectors of reals. *)
Ltac vec_lra :=
  cbn;
  repeat match goal with
    | |- (_, _) = (_, _) => f_equal
    | |- _ :: _ = _ :: _ => f_equal
    | |- Vec3 _ _ _ = Vec3 _ _ _ => apply vec3_eq_intro; cbn [vx vy vz]
    end;
  lra.

(** C8: at the rest pose (all angles 0) joint [i] lies on the positive x
    axis at distance [lengths[0] + ... + lengths[i-1]] from the base, and
    the tip at the sum of all lengths (spec 8, first property). *)
Theorem forward_rest_pose lengths :
  (forall i, (i < numBones)%nat -> lengths.[i] <> 0) ->
  forward lengths theta0 =
  (map (fun i => Vec3 (rsum i (fun j => lengths.[j])) 0 0) (seq 0 numBones),
   Vec3 (rsum numBones (fun j => lengths.[j])) 0 0).
Proof.
  intros Hl. rewrite forward_joint by exact Hl. f_equal.
  - apply map_ext. intros i. apply joint_rest. intros k _. apply theta0_zero.
  - apply joint_rest. intros k _. apply theta0_zero.
Qed.

(** With the lengths of line 149 the rest pose reaches [x = 39]. *)
Lemma forward_rest_pose_witness :
  (forall i, (i < numBones)%nat -> lengths.[i] <> 0) /\
  forward lengths theta0 =
  ([Vec3 0 0 0; Vec3 7 0 0; Vec3 20.5 0 0; Vec3 31.5 0 0; Vec3 35 0 0], Vec3 39 0 0).
Proof.
  split; [exact lengths_nonzero|].
  rewrite (forward_rest_pose lengths lengths_nonzero). vec_lra.
Defined.

(** C14: the bones are rigid: whatever the angles, consecutive points of
    the chain computed by the code are exactly [lengths[i]] apart. *)
Theorem forward_bone_length lengths theta i :
  (forall k, (k < numBones)%nat -> 0 < lengths.[k]) -> (i < numBones)%nat ->
  vlength (vsub (nth (S i) (chain_points (forward lengths theta)) vec3_zero)
                (nth i (chain_points (forward lengths theta)) vec3_zero)) = lengths.[i].
Proof.
  intros Hl Hi.
  rewrite forward_joint by (apply positive_nonzero; exact Hl).
  unfold chain_points; cbn [fst snd].
  rewrite !nth_map_joint by lia.
  rewrite joint_segment, vlength_planar by reflexivity.
  cbn [vx vy]. rewrite norm2_scaled_unit.
  apply Rabs_right. specialize (Hl i Hi). lra.
Qed.

Lemma forward_bone_length_witness :
  (forall k, (k < numBones)%nat -> 0 < lengths.[k]) /\ (2 < numBones)%nat /\
  vlength (vsub (nth 3 (chain_points (forward lengths theta0)) vec3_zero)
                (nth 2 (chain_points (forward lengths theta0)) vec3_zero)) = 11.
Proof.
  split; [exact lengths_positive|]. split; [bones_lia|].
  exact (forward_bone_length lengths theta0 2 lengths_positive ltac:(bones_lia)).
Defined.

Lemma rsum_abs_lengths lengths :
  (forall i, (i < numBones)%nat -> 0 < lengths.[i]) ->
  rsum numBones (fun i => Rabs lengths.[i]) = rsum numBones (fun i => lengths.[i]).
Proof.
  intros Hl. apply rsum_ext. intros k Hk. apply Rabs_right. specialize (Hl k Hk). lra.
Qed.

(** C15: the tip computed by the code never leaves the disc of radius
    [lengths[0] + ... + lengths[4]] around the base (39 for line 149). *)
Theorem forward_reach lengths theta :
  (forall i, (i < numBones)%nat -> 0 < lengths.[i]) ->
  vlength (snd (forward lengths theta)) <= rsum numBones (fun i => lengths.[i]).
Proof.
  intros Hl.
  rewrite forward_joint by (apply positive_nonzero; exact Hl). cbn [snd].
  rewrite <- rsum_abs_lengths by exact Hl. apply joint_reach.
Qed.

Lemma forward_reach_witness :
  (forall i, (i < numBones)%nat -> 0 < lengths.[i]) /\
  vlength (snd (forward lengths theta0)) <= rsum numBones (fun i => lengths.[i]).
Proof. split; [exact lengths_positive | exact (forward_reach lengths theta0 lengths_positive)]. Defined.

(** For a target in the plane of the chain, the distance from the tip
    to the target is at least the target's distance from the base minus
    the reach: a target beyond the reach is never met (spec 8, unreachable
    target). *)
Theorem forward_residual lengths theta target :
  (forall i, (i < numBones)%nat -> 0 < lengths.[i]) -> vz target = 0 ->
  vlength target - rsum numBones (fun i => lengths.[i])
  <= vlength (vsub target (snd (forward lengths theta))).
Proof.
  intros Hl Hz. pose proof (joint_reach lengths theta numBones) as Hr.
  rewrite (rsum_abs_lengths lengths Hl) in Hr.
  rewrite forward_joint by (apply positive_nonzero; exact Hl). cbn [snd].
  rewrite (vlength_planar target Hz) in *.
  rewrite (vlength_planar (joint _ _ _)) in Hr by apply joint_z.
  rewrite vlength_planar by (cbn [vsub vz]; rewrite Hz, joint_z; ring).
  unfold vsub; cbn [vx vy].
  pose proof (norm2_reverse_triangle (vx target) (vy target)
                (vx (joint lengths theta numBones)) (vy (joint lengths theta numBones))).
  lra.
Qed.

Lemma forward_residual_witness :
  (forall i, (i < numBones)%nat -> 0 < lengths.[i]) /\ vz (Vec3 50 0 0) = 0 /\
  vlength (Vec3 50 0 0) - rsum numBones (fun i => lengths.[i])
  <= vlength (vsub (Vec3 50 0 0) (snd (forward lengths theta0))).
Proof.
  split; [exact lengths_positive|]. split; [reflexivity|].
  exact (forward_residual lengths theta0 (Vec3 50 0 0) lengths_positive eq_refl).
Defined.

(** ** The shapes of the loop's data *)

(** What the loop keeps true of its variables, for any lengths and angles:
    [Model] and [trans] are planar affine maps, and [positions] has its
    five entries, all in the plane [z = 0]. *)
Definition fk_shape (st : fk_state) : Prop :=
  planar_affine (Model st) /\ planar_affine (trans st) /\ length (positions st) = numBones /\
  forall k, vz (nth k (positions st) vec3_zero) = 0.

Lemma fk_shape_init : fk_shape fk_init.
Proof.
  unfold fk_shape, fk_init; cbn [Model trans positions].
  split; [exact planar_affine_id|]. split; [apply planar_affine_translate; reflexivity|].
  split; [apply repeat_length|].
  intros k. destruct (Nat.lt_ge_cases k numBones).
  - rewrite nth_repeat_lt by exact H. reflexivity.
  - rewrite nth_overflow by (rewrite repeat_length; exact H). reflexivity.
Qed.

Lemma bone_body_shape lengths theta st i :
  (i < numBones)%nat -> fk_shape st -> fk_shape (bone_body lengths theta st i).
Proof.
  intros Hi (HM & HT & HL & HZ). unfold bone_body. rewrite rotate_rotAxis.
  assert (H1 : planar_affine (if (0 <? i)%nat
                              then Model st ** scale mat4_id (Vec3 (1 / lengths.[i - 1]) (1 / 2) 1)
                              else Model st))
    by (destruct (0 <? i)%nat; [apply planar_affine_mul; [exact HM | apply planar_affine_scale; reflexivity] | exact HM]).
  assert (H2 : planar_affine (if (0 <? i)%nat then translate mat4_id (Vec3 lengths.[i - 1] 0 0) else trans st))
    by (destruct (0 <? i)%nat; [apply planar_affine_translate; reflexivity | exact HT]).
  set (M := _ ** _ ** rot_z _ ** _).
  assert (HP : planar_affine M).
  { unfold M. repeat apply planar_affine_mul; auto with ik. apply planar_affine_scale; reflexivity. }
  unfold fk_shape; cbn [Model trans positions].
  split; [exact HP|]. split; [exact H2|]. split; [rewrite length_set_nth; exact HL|].
  intros k. destruct (Nat.eq_dec i k) as [<-|Hne].
  - rewrite nth_set_nth_eq by lia. cbn [vec3_of_vec4 vz]. apply HP.
  - rewrite nth_set_nth_ne by exact Hne. apply HZ.
Qed.

(** For any lengths and angles, the bone loop and the end-effector block
    build only planar affine matrices, write [positions] within its five
    entries, and return points of the plane [z = 0].  The statement covers
    zero lengths only because the model's [Rinv 0] is [0], where the code's
    [1.0f / 0.0f] is infinite; it is meaningful for the positive lengths of
    line 154. *)
Theorem forward_shape lengths theta :
  planar_affine (Model (bones_loop lengths theta)) /\
  length (fst (forward lengths theta)) = numBones /\
  (forall k, vz (nth k (fst (forward lengths theta)) vec3_zero) = 0) /\
  vz (snd (forward lengths theta)) = 0.
Proof.
  assert (Hs : fk_shape (bones_loop lengths theta)).
  { unfold bones_loop. apply fold_left_invariant; [exact fk_shape_init|].
    intros st i Hi Hst. apply in_seq in Hi. apply bone_body_shape; [lia | exact Hst]. }
  destruct Hs as (HM & _ & HL & HZ).
  split; [exact HM|]. split; [exact HL|]. split; [exact HZ|].
  unfold forward, end_effector; cbn [snd vec3_of_vec4 vz]. rewrite rotate_rotAxis.
  apply planar_affine_mul; [apply planar_affine_mul; [apply planar_affine_mul|]|].
  - apply planar_affine_mul; [exact HM | apply planar_affine_scale; reflexivity].
  - apply planar_affine_translate; reflexivity.
  - apply planar_affine_rot_z.
  - apply planar_affine_scale; reflexivity.
Qed.
