(* ===== verification/Jacobian.v ===== *)
(** * Jacobian Estimator of src/IKTest.cpp (lines 335-339)

    [jacobian] is the loop [jac[i] = cross(rotAxis, endEffect -
    positions[i])] over the bones.  With [rotAxis = (0,0,1)] a column is
    the lever arm from joint [i] to the tip turned by a quarter turn:
    orthogonal to it, of the same length, and zero when the lever arm is
    zero (spec 4.2). *)

From S2P Require Import Prelude Glm Chain.

(** Lines 337-339; [vec3 jac[5]] (line 335) is written once per index, in
    order, so the array is the list of its values. *)
Definition jacobian (endEffect : vec3) (positions : list vec3) : list vec3 :=
  map (fun i => cross rotAxis (vsub endEffect (nth i positions vec3_zero)))
      (seq 0 numBones).

(** The lever arm of joint [i]: [endEffect - positions[i]]. *)
Definition lever (endEffect : vec3) (positions : list vec3) (i : nat) : vec3 :=
  vsub endEffect (nth i positions vec3_zero).

Lemma cross_rotAxis v : cross rotAxis v = Vec3 (- vy v) (vx v) 0.
Proof. unfold cross, rotAxis; cbn [vx vy vz]. apply vec3_eq_intro; cbn; ring. Qed.

Lemma length_jacobian ee ps : length (jacobian ee ps) = numBones.
Proof. unfold jacobian. now rewrite length_map, length_seq. Qed.

Lemma nth_jacobian ee ps i :
  (i < numBones)%nat ->
  nth i (jacobian ee ps) vec3_zero = Vec3 (- vy (lever ee ps i)) (vx (lever ee ps i)) 0.
Proof.
  intros Hi. unfold jacobian. rewrite nth_map_seq by exact Hi. apply cross_rotAxis.
Qed.

Lemma nth_jacobian_out ee ps i :
  (numBones <= i)%nat -> nth i (jacobian ee ps) vec3_zero = vec3_zero.
Proof. intros Hi. apply nth_overflow. now rewrite length_jacobian. Qed.

(** The column of a joint, in closed form: zero outside the chain. *)
Lemma nth_jacobian_cases ee ps i :
  nth i (jacobian ee ps) vec3_zero =
  if (i <? numBones)%nat then Vec3 (- vy (lever ee ps i)) (vx (lever ee ps i)) 0
  else vec3_zero.
Proof.
  destruct (Nat.ltb_spec i numBones).
  - now apply nth_jacobian.
  - now apply nth_jacobian_out.
Qed.

(** Every column of the Jacobian is orthogonal to the lever arm from
    its joint to the end effector (spec 8, Jacobian sanity), for every
    configuration. *)
Theorem jacobian_orthogonal ee ps i :
  dot (nth i (jacobian ee ps) vec3_zero) (lever ee ps i) = 0.
Proof.
  rewrite nth_jacobian_cases. destruct (i <? numBones)%nat;
    unfold dot, vec3_zero; cbn [vx vy vz]; ring.
Qed.

(** In the plane of the chain, a column is as long as its lever arm:
    the speed of the tip for a unit angular speed of joint [i] is its
    distance to the joint. *)
Theorem jacobian_length ee ps i :
  (i < numBones)%nat -> vz (lever ee ps i) = 0 ->
  vlength (nth i (jacobian ee ps) vec3_zero) = vlength (lever ee ps i).
Proof.
  intros Hi Hz. rewrite nth_jacobian by exact Hi.
  rewrite !vlength_planar by (cbn [vz]; auto). cbn [vx vy].
  unfold norm2. f_equal. ring.
Qed.

(** A joint at the end effector (zero lever arm) has a zero column,
    and this is not an error (spec 4.2, degenerate case). *)
Theorem jacobian_degenerate ee ps i :
  nth i ps vec3_zero = ee -> nth i (jacobian ee ps) vec3_zero = vec3_zero.
Proof.
  intros He. rewrite nth_jacobian_cases. destruct (i <? numBones)%nat; [|reflexivity].
  unfold lever. rewrite He. unfold vsub, vec3_zero. apply vec3_eq_intro; cbn; ring.
Qed.

