(* ===== verification/Stepper.v ===== *)
(** * Gradient Stepper of src/IKTest.cpp (lines 317, 332-351)

    [solve_step] is the block of lines 332-351: unless the end effector is
    within [0.00001] of the target (the guard of line 333), it computes the
    Jacobian, the error [V = target - endEffect], [dtheta[i] = dot(jac[i],
    V)] and adds [dtheta[i] * step] to every [theta[i]], in place and in
    index order.  The theorems show that the in-place loop is the
    simultaneous update of spec 4.3 ([apply_step_map]), give the update in
    closed form on both branches of the guard, and show that a joint at
    the end effector keeps its angle. *)

From S2P Require Import Prelude Glm Chain Jacobian.

(** [float step = 0.00001f] (line 317). *)
Definition step : R := 1 / 100000.

(** The literal [0.00001f] of the guard (line 333). *)
Definition threshold : R := 1 / 100000.

(** [vec3 V = target - endEffect] (line 341). *)
Definition error_vec (target endEffect : vec3) : vec3 := vsub target endEffect.

(** Lines 343-345: [dtheta[i] = dot(jac[i], V)]. *)
Definition dtheta_of (jac : list vec3) (V : vec3) : list R :=
  map (fun i => dot (nth i jac vec3_zero) V) (seq 0 numBones).

(** Lines 348-350: [theta[i] += dtheta[i] * step], one index after the
    other, in place. *)
Definition apply_step (theta dtheta : list R) : list R :=
  fold_left (fun th i => set_nth th i (th.[i] + dtheta.[i] * step))
            (seq 0 numBones) theta.

(** Lines 332-351. *)
Definition solve_step (positions : list vec3) (endEffect target : vec3)
  (theta : list R) : list R :=
  if Rlt_dec threshold (vlength (vsub endEffect target)) then
    let jac := jacobian endEffect positions in
    let V := error_vec target endEffect in
    apply_step theta (dtheta_of jac V)
  else theta.

(** ** The in-place loop *)

Lemma apply_step_map theta dtheta :
  length theta = numBones ->
  apply_step theta dtheta = map (fun i => theta.[i] + dtheta.[i] * step) (seq 0 numBones).
Proof. exact (fold_set_nth_all (fun i x => x + dtheta.[i] * step) theta numBones). Qed.

(** ** The two branches of the guard *)

Lemma nth_dtheta_of jac V i :
  (i < numBones)%nat -> (dtheta_of jac V).[i] = dot (nth i jac vec3_zero) V.
Proof. intros Hi. unfold dtheta_of. now rewrite nth_map_seq. Qed.

(** [dot(jac[i], V)] is the z component of [cross(endEffect - positions[i], V)]. *)
Lemma dtheta_torque ee ps t i :
  (i < numBones)%nat ->
  (dtheta_of (jacobian ee ps) (error_vec t ee)).[i]
  = (vx ee - vx (nth i ps vec3_zero)) * (vy t - vy ee)
    - (vy ee - vy (nth i ps vec3_zero)) * (vx t - vx ee).
Proof.
  intros Hi. rewrite nth_dtheta_of, nth_jacobian by exact Hi.
  unfold lever, error_vec, dot, vsub; cbn [vx vy vz]. ring.
Qed.

Lemma solve_step_active ps ee t theta :
  threshold < vlength (vsub ee t) -> length theta = numBones ->
  solve_step ps ee t theta =
  map (fun i => theta.[i] + (dtheta_of (jacobian ee ps) (error_vec t ee)).[i] * step)
      (seq 0 numBones).
Proof.
  intros Hg Hl. unfold solve_step.
  destruct (Rlt_dec threshold (vlength (vsub ee t))) as [_|Hn]; [|contradiction].
  now apply apply_step_map.
Qed.

(** C9: when the end effector is within [threshold] of the target the
    frame leaves the angles untouched (spec 4.3 step 2). *)
Theorem solve_step_converged ps ee t theta :
  vlength (vsub ee t) <= threshold -> solve_step ps ee t theta = theta.
Proof.
  intros Hc. unfold solve_step.
  destruct (Rlt_dec threshold (vlength (vsub ee t))); [lra | reflexivity].
Qed.

Lemma vlength_zero : vlength vec3_zero = 0.
Proof. unfold vlength, dot, vec3_zero; cbn. replace (0 * 0 + 0 * 0 + 0 * 0) with 0 by ring. apply sqrt_0. Qed.

Lemma solve_step_converged_witness :
  vlength (vsub (Vec3 39 0 0) (Vec3 39 0 0)) <= threshold /\
  solve_step [] (Vec3 39 0 0) (Vec3 39 0 0) theta0 = theta0.
Proof.
  assert (H : vlength (vsub (Vec3 39 0 0) (Vec3 39 0 0)) <= threshold).
  { replace (vsub (Vec3 39 0 0) (Vec3 39 0 0)) with vec3_zero
      by (unfold vsub, vec3_zero; apply vec3_eq_intro; cbn; ring).
    rewrite vlength_zero. unfold threshold. lra. }
  split; [exact H | exact (solve_step_converged [] _ _ theta0 H)].
Defined.

(** C2: away from the target, joint [i] turns by [step] times the z
    component of [(endEffect - positions[i]) x (target - endEffect)]: the
    Jacobian-transpose rule of spec 4.3, computed from the geometry before
    the update. *)
Theorem solve_step_update ps ee t theta :
  threshold < vlength (vsub ee t) -> length theta = numBones ->
  solve_step ps ee t theta =
  map (fun i => theta.[i] + step *
         ((vx ee - vx (nth i ps vec3_zero)) * (vy t - vy ee)
          - (vy ee - vy (nth i ps vec3_zero)) * (vx t - vx ee)))
      (seq 0 numBones).
Proof.
  intros Hg Hl. rewrite solve_step_active by assumption.
  apply map_ext_in. intros i Hi. apply in_seq in Hi.
  rewrite dtheta_torque by lia. ring.
Qed.

(** A vector of length at least 1 is beyond the threshold. *)
Lemma threshold_lt_vlength v : 1 <= dot v v -> threshold < vlength v.
Proof.
  intros H. unfold vlength. apply Rlt_le_trans with 1.
  - unfold threshold. lra.
  - rewrite <- sqrt_1. now apply sqrt_le_1_alt.
Qed.

Lemma solve_step_update_witness :
  threshold < vlength (vsub (Vec3 39 0 0) (Vec3 0 10 0)) /\ length theta0 = numBones /\
  solve_step [Vec3 0 0 0; Vec3 7 0 0; Vec3 20.5 0 0; Vec3 31.5 0 0; Vec3 35 0 0]
    (Vec3 39 0 0) (Vec3 0 10 0) theta0
  = map (fun i => theta0.[i] + step *
         ((39 - vx (nth i [Vec3 0 0 0; Vec3 7 0 0; Vec3 20.5 0 0; Vec3 31.5 0 0; Vec3 35 0 0]
                      vec3_zero)) * (10 - 0)
          - (0 - vy (nth i [Vec3 0 0 0; Vec3 7 0 0; Vec3 20.5 0 0; Vec3 31.5 0 0; Vec3 35 0 0]
                       vec3_zero)) * (0 - 39)))
      (seq 0 numBones).
Proof.
  assert (Hg : threshold < vlength (vsub (Vec3 39 0 0) (Vec3 0 10 0)))
    by (apply threshold_lt_vlength; unfold dot, vsub; cbn; lra).
  split; [exact Hg|]. split; [reflexivity|].
  exact (solve_step_update _ (Vec3 39 0 0) (Vec3 0 10 0) theta0 Hg eq_refl).
Defined.

(** C18: a joint that coincides with the end effector (zero lever arm)
    keeps its angle through the step: its [dtheta] contribution is exactly
    zero (spec 8, degenerate lever arm). *)
Theorem solve_step_degenerate_joint ps ee t theta i :
  (i < numBones)%nat -> nth i ps vec3_zero = ee -> length theta = numBones ->
  (solve_step ps ee t theta).[i] = theta.[i].
Proof.
  intros Hi He Hl. destruct (Rle_lt_dec (vlength (vsub ee t)) threshold) as [Hc|Hg].
  - unfold solve_step. destruct (Rlt_dec threshold (vlength (vsub ee t))); [lra|reflexivity].
  - rewrite solve_step_active, nth_map_seq, dtheta_torque, He by assumption. ring.
Qed.

Lemma solve_step_degenerate_joint_witness :
  (4 < numBones)%nat /\
  nth 4 [Vec3 0 0 0; Vec3 7 0 0; Vec3 20.5 0 0; Vec3 31.5 0 0; Vec3 35 0 0] vec3_zero
    = Vec3 35 0 0 /\
  length theta0 = numBones /\
  (solve_step [Vec3 0 0 0; Vec3 7 0 0; Vec3 20.5 0 0; Vec3 31.5 0 0; Vec3 35 0 0]
     (Vec3 35 0 0) (Vec3 0 10 0) theta0).[4] = theta0.[4].
Proof.
  split; [bones_lia|]. split; [reflexivity|]. split; [reflexivity|].
  apply solve_step_degenerate_joint; [bones_lia | reflexivity | reflexivity].
Defined.

(** ** Facts used by the frame loop *)

Lemma length_apply_step theta dtheta : length (apply_step theta dtheta) = length theta.
Proof.
  unfold apply_step. generalize (seq 0 numBones) as l. intros l. revert theta.
  induction l as [|i l IH]; intros theta; cbn [fold_left]; [reflexivity|].
  now rewrite IH, length_set_nth.
Qed.

Lemma length_solve_step ps ee t theta : length (solve_step ps ee t theta) = length theta.
Proof.
  unfold solve_step. destruct (Rlt_dec _ _); [apply length_apply_step | reflexivity].
Qed.

(** When the joints, the tip and the target all lie on the x axis every
    lever arm is parallel to the error, every [dtheta[i]] is zero, and the
    step changes nothing. *)
Lemma solve_step_on_axis ps ee t theta :
  (forall i, (i < numBones)%nat -> vy (nth i ps vec3_zero) = 0) ->
  vy ee = 0 -> vy t = 0 -> length theta = numBones ->
  solve_step ps ee t theta = theta.
Proof.
  intros Hp He Ht Hl. destruct (Rle_lt_dec (vlength (vsub ee t)) threshold) as [Hc|Hg].
  - unfold solve_step. destruct (Rlt_dec _ _); [lra | reflexivity].
  - rewrite solve_step_active by assumption.
    transitivity (map (fun i => theta.[i]) (seq 0 numBones)).
    + apply map_ext_in. intros i Hi. apply in_seq in Hi.
      rewrite dtheta_torque, Hp, He, Ht by lia. ring.
    + rewrite <- Hl. apply map_nth_seq_self.
Qed.
