(* ===== verification/Gradient.v ===== *)
(** * The Jacobian as a derivative (spec 4.2, 4.3)

    Spec 4.2 says a Jacobian column is the velocity of the end effector for
    a unit angular velocity of its joint, and spec 4.3 that the step is the
    Jacobian-transpose rule.  This file proves both of the code: the column
    computed by [Jacobian.jacobian] from the positions of [Chain.forward]
    is the derivative of [Chain.forward]'s end effector with respect to
    [theta[i]], and [dtheta[i]] of [Stepper.dtheta_of] is minus the partial
    derivative of half the squared error, so that the update of lines
    348-350 is a gradient-descent step of size [step]. *)

From S2P Require Import Prelude Glm Chain Jacobian Stepper.
Import Spec.

(** [1] for the bones at or after joint [i], whose angle [theta[i]] turns. *)
Definition after (i k : nat) : R := if (i <=? k)%nat then 1 else 0.

(** Half the squared distance from the tip to the target. *)
Definition half_sq_error (lengths : list R) (target : vec3) (theta : list R) : R :=
  let V := error_vec target (snd (forward lengths theta)) in
  / 2 * dot V V.

Lemma angle_sum_set theta i t k :
  (i < length theta)%nat ->
  angle_sum (set_nth theta i t) k = angle_sum theta k + after i k * (t - theta.[i]).
Proof.
  intros Hi. unfold after. induction k as [|k IH]; cbn [angle_sum].
  - destruct i as [|i]; cbn [Nat.leb].
    + rewrite nth_set_nth_eq by exact Hi. ring.
    + rewrite nth_set_nth_ne by lia. ring.
  - rewrite IH. destruct (Nat.eq_dec i (S k)) as [->|Hne].
    + rewrite nth_set_nth_eq by exact Hi.
      replace (S k <=? k)%nat with false by (symmetry; apply Nat.leb_gt; lia).
      rewrite Nat.leb_refl. ring.
    + rewrite nth_set_nth_ne by exact Hne.
      destruct (Nat.leb_spec i k), (Nat.leb_spec i (S k)); try lia; ring.
Qed.

(** Turning joint [i] moves joint [n] with the velocity of a rotation
    about joint [i] (joints before [i] do not move). *)
Lemma joint_derivative lengths theta i n :
  (i < length theta)%nat ->
  derivable_pt_lim (fun t => vx (joint lengths (set_nth theta i t) n)) theta.[i]
    (- (vy (joint lengths theta n) - vy (joint lengths theta (Nat.min n i)))) /\
  derivable_pt_lim (fun t => vy (joint lengths (set_nth theta i t) n)) theta.[i]
    (vx (joint lengths theta n) - vx (joint lengths theta (Nat.min n i))).
Proof.
  intros Hi. induction n as [|n [IHx IHy]].
  - split; (apply (dpl_value _ _ 0); [cbn; ring | exact (dpl_const 0 _)]).
  - cbn [joint vx vy].
    split.
    + eapply derivable_pt_lim_ext.
      { intros t. rewrite (angle_sum_set theta i t n Hi). reflexivity. }
      apply (dpl_value _ _ (- (vy (joint lengths theta n) - vy (joint lengths theta (Nat.min n i)))
                            + - (lengths.[n] * after i n * sin (angle_sum theta n)))).
      { unfold after. destruct (Nat.leb_spec i n).
        - rewrite !Nat.min_r by lia. ring.
        - rewrite Nat.min_l, Nat.min_l by lia. cbn [joint vx vy]. ring. }
      apply (dpl_plus (fun t => vx (joint lengths (set_nth theta i t) n))); [exact IHx|].
      apply dpl_cos_lin.
    + eapply derivable_pt_lim_ext.
      { intros t. rewrite (angle_sum_set theta i t n Hi). reflexivity. }
      apply (dpl_value _ _ ((vx (joint lengths theta n) - vx (joint lengths theta (Nat.min n i)))
                            + lengths.[n] * after i n * cos (angle_sum theta n))).
      { unfold after. destruct (Nat.leb_spec i n).
        - rewrite !Nat.min_r by lia. ring.
        - rewrite Nat.min_l, Nat.min_l by lia. cbn [joint vx vy]. ring. }
      apply (dpl_plus (fun t => vy (joint lengths (set_nth theta i t) n))); [exact IHy|].
      apply dpl_sin_lin.
Qed.

(** C13: the Jacobian column the code computes (lines 337-339, from the
    positions of lines 251-316) is the derivative of the end effector the
    code computes (lines 317-329) with respect to [theta[i]]: the velocity
    of the tip for a unit angular velocity of joint [i] (spec 4.2). *)
Theorem jacobian_is_derivative lengths theta i :
  (forall k, (k < numBones)%nat -> lengths.[k] <> 0) ->
  (i < numBones)%nat -> (i < length theta)%nat ->
  derivable_pt_lim (fun t => vx (snd (forward lengths (set_nth theta i t)))) (theta.[i])
    (vx (nth i (jacobian (snd (forward lengths theta)) (fst (forward lengths theta))) vec3_zero)) /\
  derivable_pt_lim (fun t => vy (snd (forward lengths (set_nth theta i t)))) (theta.[i])
    (vy (nth i (jacobian (snd (forward lengths theta)) (fst (forward lengths theta))) vec3_zero)).
Proof.
  intros Hl Hi Ht.
  rewrite (forward_joint lengths theta Hl); cbn [fst snd].
  rewrite nth_jacobian by exact Hi. unfold lever. rewrite nth_map_seq by exact Hi.
  destruct (joint_derivative lengths theta i numBones Ht) as [Hx Hy].
  rewrite Nat.min_r in Hx, Hy by lia.
  unfold vsub; cbn [vx vy]. split.
  - apply (derivable_pt_lim_ext (fun t => vx (joint lengths (set_nth theta i t) numBones))).
    { intros z. now rewrite (forward_joint lengths (set_nth theta i z) Hl). }
    eapply dpl_value; [|exact Hx]. ring.
  - apply (derivable_pt_lim_ext (fun t => vy (joint lengths (set_nth theta i t) numBones))).
    { intros z. now rewrite (forward_joint lengths (set_nth theta i z) Hl). }
    exact Hy.
Qed.

Lemma jacobian_is_derivative_witness :
  (forall k, (k < numBones)%nat -> lengths.[k] <> 0) /\ (2 < numBones)%nat /\
  (2 < length theta0)%nat /\
  derivable_pt_lim (fun t => vy (snd (forward lengths (set_nth theta0 2 t)))) (theta0.[2])
    (vy (nth 2 (jacobian (snd (forward lengths theta0)) (fst (forward lengths theta0))) vec3_zero)).
Proof.
  assert (H2 : (2 < numBones)%nat) by bones_lia.
  assert (H3 : (2 < length theta0)%nat) by (cbn; lia).
  split; [exact lengths_nonzero|]. split; [exact H2|]. split; [exact H3|].
  exact (proj2 (jacobian_is_derivative lengths theta0 2 lengths_nonzero H2 H3)).
Defined.

(** The squared error as a function of [theta[i]], with the tip in closed form. *)
Lemma half_sq_error_set lengths target theta i t :
  (forall k, (k < numBones)%nat -> lengths.[k] <> 0) ->
  half_sq_error lengths target (set_nth theta i t)
  = / 2 * ((vx target - vx (joint lengths (set_nth theta i t) numBones))
             * (vx target - vx (joint lengths (set_nth theta i t) numBones))
           + (vy target - vy (joint lengths (set_nth theta i t) numBones))
             * (vy target - vy (joint lengths (set_nth theta i t) numBones))
           + vz target * vz target).
Proof.
  intros Hl. unfold half_sq_error, error_vec, dot, vsub.
  rewrite forward_joint by exact Hl. cbn [fst snd vx vy vz]. rewrite joint_z. ring.
Qed.

(** C12: [dtheta[i]] of lines 343-345 is minus the partial derivative, with
    respect to [theta[i]], of half the squared distance from the code's end
    effector to the target: [theta[i] += dtheta[i] * step] is a step of
    gradient descent on the error (the Jacobian-transpose rule of spec
    4.3). *)
Theorem dtheta_is_negative_gradient lengths target theta i :
  (forall k, (k < numBones)%nat -> lengths.[k] <> 0) ->
  (i < numBones)%nat -> (i < length theta)%nat ->
  derivable_pt_lim (fun t => half_sq_error lengths target (set_nth theta i t)) (theta.[i])
    (- (dtheta_of (jacobian (snd (forward lengths theta)) (fst (forward lengths theta)))
                  (error_vec target (snd (forward lengths theta)))).[i]).
Proof.
  intros Hl Hi Ht.
  apply (derivable_pt_lim_ext _ _ _ _ (fun z => eq_sym (half_sq_error_set lengths target theta i z Hl))).
  destruct (joint_derivative lengths theta i numBones Ht) as [Hx Hy].
  rewrite Nat.min_r in Hx, Hy by lia.
  rewrite (forward_joint lengths theta Hl); cbn [fst snd].
  rewrite nth_dtheta_of, nth_jacobian by exact Hi.
  unfold lever, error_vec, dot, vsub. rewrite nth_map_seq by exact Hi. cbn [vx vy vz].
  rewrite joint_z.
  pose proof (dpl_plus _ _ _ _ _ (dpl_plus _ _ _ _ _ (dpl_sq (vx target) _ _ _ Hx)
                                  (dpl_sq (vy target) _ _ _ Hy))
                (dpl_const (vz target * vz target) (theta.[i]))) as H.
  pose proof (derivable_pt_lim_scal _ (/ 2) _ _ H) as H2.
  cbv beta in H2. rewrite set_nth_nth_self in H2.
  eapply dpl_value; [|exact H2]. field.
Qed.

Lemma dtheta_is_negative_gradient_witness :
  (forall k, (k < numBones)%nat -> lengths.[k] <> 0) /\ (1 < numBones)%nat /\
  (1 < length theta0)%nat /\
  derivable_pt_lim (fun t => half_sq_error lengths (Vec3 20 10 0) (set_nth theta0 1 t)) (theta0.[1])
    (- (dtheta_of (jacobian (snd (forward lengths theta0)) (fst (forward lengths theta0)))
                  (error_vec (Vec3 20 10 0) (snd (forward lengths theta0)))).[1]).
Proof.
  assert (H1 : (1 < numBones)%nat) by bones_lia.
  assert (H2 : (1 < length theta0)%nat) by (cbn; lia).
  split; [exact lengths_nonzero|]. split; [exact H1|]. split; [exact H2|].
  exact (dtheta_is_negative_gradient lengths (Vec3 20 10 0) theta0 1 lengths_nonzero H1 H2).
Defined.
