(* ===== verification/Descent.v ===== *)
(** * Each solver step decreases the error (spec 4.3, spec 8)

    [Gradient] shows that the update of lines 348-350 is a gradient step;
    this file bounds what the first-order picture leaves out.  With
    [a_k] the absolute angle of bone [k], [V = target - endEffect] and
    [c_k = l_k (Vy cos a_k - Vx sin a_k)], the code's [dtheta[i]] is
    [g_i = sum_{k >= i} c_k] ([grad_sum]) and the step turns bone [k] by
    [h_k = step * sum_{i <= k} g_i] ([angle_sum_stepped]); exchanging the
    double sum gives [sum_k h_k c_k = step * sum_i g_i^2] ([turn_torque]).
    The mean value theorem bounds each bone's remainder by
    [l_k (|Vx| + |Vy|) h_k^2] ([bone_remainder]); Cauchy-Schwarz on the
    five [g_i] closes the estimate ([descent_core]).  The last part
    instantiates it with the lengths of line 149, the step of line 317 and
    a target of the visible square, for [solve_step] of the code. *)

From S2P Require Import Prelude Glm Chain Jacobian Stepper Gradient.
Import Spec.

Lemma rsum_const n c : rsum n (fun _ => c) = INR n * c.
Proof. induction n as [|n IH]; cbn [rsum]; [cbn; ring|]. rewrite IH, S_INR. ring. Qed.

Lemma rsum_mult_r n f c : rsum n f * c = rsum n (fun k => f k * c).
Proof. rewrite Rmult_comm, rsum_scale. apply rsum_ext. intros; ring. Qed.

Lemma rsum_lin2 n f g u v :
  rsum n f * u - rsum n g * v = rsum n (fun k => f k * u - g k * v).
Proof. induction n as [|n IH]; cbn [rsum]; [ring|]. rewrite <- IH. ring. Qed.

(** The joints in closed form: sums of the bone vectors before them. *)
Lemma joint_rsum L th m :
  vx (joint L th m) = rsum m (fun k => L.[k] * cos (angle_sum th k)) /\
  vy (joint L th m) = rsum m (fun k => L.[k] * sin (angle_sum th k)).
Proof.
  induction m as [|m [IHx IHy]]; [split; reflexivity|].
  cbn [joint vx vy rsum]. rewrite IHx, IHy. split; reflexivity.
Qed.

Lemma step_pos : 0 < step.
Proof. unfold step. lra. Qed.

Lemma Rabs_sq_le h X : Rabs h <= X -> h * h <= X * X.
Proof. intros H. pose proof (Rabs_pos h). split_Rabs; nra. Qed.

Lemma Rabs_rot_le u v t : Rabs (u * cos t - v * sin t) <= Rabs u + Rabs v.
Proof.
  pose proof (Rabs_bound_1 _ (COS_bound t)). pose proof (Rabs_bound_1 _ (SIN_bound t)).
  eapply Rle_trans; [apply Rabs_triang|]. rewrite Rabs_Ropp, !Rabs_mult.
  pose proof (Rabs_pos u). pose proof (Rabs_pos v). nra.
Qed.

(** The step of one bone against its linearisation: with [|h| <= 1], the
    remainder is at most [l * (|u| + |v|) * h^2]. *)
Lemma bone_remainder u v l t h :
  0 <= l -> Rabs h <= 1 ->
  h * (l * (v * cos t - u * sin t)) - l * (Rabs u + Rabs v) * (h * h)
  <= u * (l * (cos (t + h) - cos t)) + v * (l * (sin (t + h) - sin t)).
Proof.
  intros Hl Hh. rewrite cos_plus, sin_plus.
  pose proof (cos_sub_1_bound h) as Hc. pose proof (sin_sub_id_bound h Hh) as Hs.
  assert (Hr : Rabs (u * (cos t * (cos h - 1) - sin t * (sin h - h))
                     + v * (sin t * (cos h - 1) + cos t * (sin h - h)))
               <= (Rabs u + Rabs v) * (h * h)).
  { pose proof (Rabs_bound_1 _ (COS_bound t)). pose proof (Rabs_bound_1 _ (SIN_bound t)).
    eapply Rle_trans; [apply Rabs_triang|]. rewrite !Rabs_mult.
    pose proof (Rabs_triang (cos t * (cos h - 1)) (- (sin t * (sin h - h)))) as H1.
    pose proof (Rabs_triang (sin t * (cos h - 1)) (cos t * (sin h - h))) as H2.
    rewrite Rabs_Ropp, !Rabs_mult in H1. rewrite !Rabs_mult in H2.
    replace (cos t * (cos h - 1) - sin t * (sin h - h))
      with (cos t * (cos h - 1) + - (sin t * (sin h - h))) by ring.
    pose proof (Rabs_pos u). pose proof (Rabs_pos v). pose proof (Rabs_pos (cos t)).
    pose proof (Rabs_pos (sin t)). pose proof (Rabs_pos (cos h - 1)). pose proof (Rabs_pos (sin h - h)).
    assert (Rabs (cos t) * Rabs (cos h - 1) + Rabs (sin t) * Rabs (sin h - h) <= h * h) by nra.
    assert (Rabs (sin t) * Rabs (cos h - 1) + Rabs (cos t) * Rabs (sin h - h) <= h * h) by nra.
    nra. }
  apply Rabs_le_bounds in Hr. nra.
Qed.

(** ** One step of the solver, for any chain with non-negative lengths *)

Section Step.
Variables (L theta : list R) (target : vec3).
Hypothesis L_nonneg : forall k, (k < numBones)%nat -> 0 <= L.[k].

(** The angles and the tip before the step, and the error [V]. *)
Local Abbreviation a k := (angle_sum theta k).
Local Abbreviation E := (joint L theta numBones).
Local Abbreviation Vx := (vx target - vx E).
Local Abbreviation Vy := (vy target - vy E).

(** What bone [k] contributes to every [dtheta[i]] with [i <= k]. *)
Definition torque_term (k : nat) : R := L.[k] * (Vy * cos (a k) - Vx * sin (a k)).

(** [dtheta[i]] in the form of [dtheta_torque]. *)
Definition grad (i : nat) : R :=
  (vx E - vx (joint L theta i)) * Vy - (vy E - vy (joint L theta i)) * Vx.

(** The angles after the step of lines 348-350. *)
Definition stepped : list R := map (fun i => theta.[i] + grad i * step) (seq 0 numBones).

(** How much the absolute angle of bone [k] turns in the step. *)
Definition turn (k : nat) : R := step * rsum (S k) grad.

Lemma grad_sum i :
  (i <= numBones)%nat -> grad i = rsum numBones (fun k => after i k * torque_term k).
Proof.
  intros Hi. unfold grad.
  destruct (joint_rsum L theta numBones) as [Ex Ey].
  destruct (joint_rsum L theta i) as [Px Py].
  assert (Hx : vx E - vx (joint L theta i)
               = rsum numBones (fun k => if (i <=? k)%nat then L.[k] * cos (a k) else 0))
    by (rewrite Ex, Px; now apply rsum_suffix).
  assert (Hy : vy E - vy (joint L theta i)
               = rsum numBones (fun k => if (i <=? k)%nat then L.[k] * sin (a k) else 0))
    by (rewrite Ey, Py; now apply rsum_suffix).
  rewrite Hx, Hy, rsum_lin2.
  apply rsum_ext. intros k _. unfold after, torque_term.
  destruct (i <=? k)%nat; ring.
Qed.

Lemma angle_sum_stepped k :
  (k < numBones)%nat -> angle_sum stepped k = a k + turn k.
Proof.
  unfold turn. induction k as [|k IH]; intros Hk; cbn [angle_sum rsum];
    unfold stepped; rewrite nth_map_seq by lia.
  - ring.
  - fold stepped. rewrite IH by lia. cbn [rsum]. ring.
Qed.

Lemma turn_after k :
  (k < numBones)%nat -> turn k = step * rsum numBones (fun i => after i k * grad i).
Proof.
  intros Hk. unfold turn. f_equal. rewrite <- (rsum_prefix (S k) numBones grad) by lia.
  apply rsum_ext. intros i _. unfold after. cbn [Nat.ltb Nat.leb].
  destruct (i <=? k)%nat; ring.
Qed.

(** The first-order change of the error is [step * sum_i dtheta[i]^2]. *)
Lemma turn_torque :
  rsum numBones (fun k => turn k * torque_term k) = step * rsum numBones (fun i => grad i * grad i).
Proof.
  transitivity (step * rsum numBones (fun i => rsum numBones (fun k => after i k * grad i * torque_term k))).
  - rewrite (rsum_ext _ _ (fun k => step * rsum numBones (fun i => after i k * grad i * torque_term k))).
    + rewrite <- rsum_scale. f_equal.
      exact (rsum_swap numBones numBones (fun i k => after i k * grad i * torque_term k)).
    + intros k Hk. rewrite turn_after, Rmult_assoc, rsum_mult_r by exact Hk. reflexivity.
  - f_equal. apply rsum_ext. intros i Hi.
    transitivity (grad i * rsum numBones (fun k => after i k * torque_term k)).
    + rewrite rsum_scale. apply rsum_ext. intros; ring.
    + rewrite <- grad_sum by lia. reflexivity.
Qed.

(** The size of the error and of the chain, and of the gradient. *)
Local Abbreviation W := (Rabs Vx + Rabs Vy).
Local Abbreviation Lam := (rsum numBones (fun k => L.[k])).
Local Abbreviation G := (rsum numBones (fun i => Rabs (grad i))).
Local Abbreviation Q := (rsum numBones (fun i => grad i * grad i)).
Local Abbreviation E' := (joint L stepped numBones).

Lemma Lam_nonneg : 0 <= Lam.
Proof. apply rsum_nonneg. exact L_nonneg. Qed.

Lemma turn_bound k : (k < numBones)%nat -> Rabs (turn k) <= step * G.
Proof.
  intros Hk. rewrite turn_after, Rabs_mult, (Rabs_right step) by (exact Hk || (pose proof step_pos; lra)).
  apply Rmult_le_compat_l; [pose proof step_pos; lra|].
  eapply Rle_trans; [apply rsum_abs|]. apply rsum_le. intros i _.
  unfold after. destruct (i <=? k)%nat; rewrite Rabs_mult;
    [rewrite Rabs_R1 | rewrite Rabs_R0]; pose proof (Rabs_pos (grad i)); lra.
Qed.

Lemma torque_bound k : (k < numBones)%nat -> Rabs (torque_term k) <= L.[k] * W.
Proof.
  intros Hk. unfold torque_term. rewrite Rabs_mult, (Rabs_right L.[k]) by (specialize (L_nonneg k Hk); lra).
  rewrite (Rplus_comm (Rabs Vx)). apply Rmult_le_compat_l; [exact (L_nonneg k Hk)|]. apply Rabs_rot_le.
Qed.

Lemma grad_bound i : (i <= numBones)%nat -> Rabs (grad i) <= Lam * W.
Proof.
  intros Hi. rewrite grad_sum by exact Hi. eapply Rle_trans; [apply rsum_abs|].
  rewrite rsum_mult_r. apply rsum_le. intros k Hk. rewrite Rabs_mult.
  pose proof (torque_bound k Hk). pose proof (Rabs_pos (torque_term k)).
  unfold after. destruct (i <=? k)%nat; [rewrite Rabs_R1 | rewrite Rabs_R0];
    pose proof (L_nonneg k Hk); pose proof (Rabs_pos Vx); pose proof (Rabs_pos Vy); nra.
Qed.

Lemma G_bound : G <= INR numBones * (Lam * W).
Proof.
  rewrite <- rsum_const. apply rsum_le. intros i Hi. apply grad_bound. lia.
Qed.

Lemma G_sq : G * G <= INR numBones * Q.
Proof.
  rewrite (rsum_ext numBones (fun i => grad i * grad i) (fun i => Rabs (grad i) * Rabs (grad i)))
    by (intros; rewrite <- Rabs_mult; symmetry; apply Rabs_right; apply Rle_ge, Rle_0_sqr).
  apply rsum_sq_le.
Qed.

(** The motion of the tip. *)
Lemma tip_shift :
  vx E' - vx E = rsum numBones (fun k => L.[k] * (cos (a k + turn k) - cos (a k))) /\
  vy E' - vy E = rsum numBones (fun k => L.[k] * (sin (a k + turn k) - sin (a k))).
Proof.
  destruct (joint_rsum L stepped numBones) as [-> ->].
  destruct (joint_rsum L theta numBones) as [-> ->].
  rewrite !rsum_minus. split; apply rsum_ext; intros k Hk; rewrite angle_sum_stepped by exact Hk; ring.
Qed.

Lemma tip_shift_bound :
  Rabs (vx E' - vx E) <= Lam * (step * G) /\ Rabs (vy E' - vy E) <= Lam * (step * G).
Proof.
  destruct tip_shift as [-> ->]. rewrite rsum_mult_r.
  split; (eapply Rle_trans; [apply rsum_abs|]); apply rsum_le; intros k Hk;
    rewrite Rabs_mult, (Rabs_right L.[k]) by (specialize (L_nonneg k Hk); lra);
    apply Rmult_le_compat_l; try exact (L_nonneg k Hk);
    (eapply Rle_trans; [apply cos_shift_bound || apply sin_shift_bound | exact (turn_bound k Hk)]).
Qed.

(** The error moves along the tip motion by at least the first-order
    amount [step * sum_i dtheta[i]^2], up to a second-order remainder. *)
Lemma first_order_bound :
  step * G <= 1 ->
  step * Q - Lam * W * ((step * G) * (step * G)) <= Vx * (vx E' - vx E) + Vy * (vy E' - vy E).
Proof.
  intros HX. destruct tip_shift as [-> ->]. rewrite <- turn_torque.
  rewrite (rsum_scale Vx), (rsum_scale Vy), <- rsum_plus.
  rewrite (rsum_mult_r numBones (fun k => L.[k]) W),
    (rsum_mult_r numBones (fun k => L.[k] * W)), rsum_minus.
  apply rsum_le. intros k Hk.
  pose proof (turn_bound k Hk) as Ht.
  pose proof (bone_remainder Vx Vy L.[k] (a k) (turn k) (L_nonneg k Hk) ltac:(lra)) as Hr.
  assert (L.[k] * W * (turn k * turn k) <= L.[k] * W * ((step * G) * (step * G))).
  { apply Rmult_le_compat_l; [|exact (Rabs_sq_le _ _ Ht)].
    pose proof (L_nonneg k Hk). pose proof (Rabs_pos Vx). pose proof (Rabs_pos Vy). nra. }
  unfold torque_term. lra.
Qed.

(** One step of the solver, for a step size small against the size of the
    chain and of the error, decreases the squared error by at least
    [step * sum_i dtheta[i]^2]. *)
Lemma descent_core :
  INR numBones * step * (Lam * W + Lam * Lam) <= / 2 ->
  (vx target - vx E') * (vx target - vx E') + (vy target - vy E') * (vy target - vy E')
  <= Vx * Vx + Vy * Vy - step * Q.
Proof.
  intros Hs.
  pose proof step_pos as Hstep. pose proof Lam_nonneg as HL.
  pose proof (Rabs_pos Vx). pose proof (Rabs_pos Vy).
  assert (Hn : 0 <= INR numBones) by apply pos_INR.
  assert (HG : 0 <= G) by (apply rsum_nonneg; intros; apply Rabs_pos).
  assert (HQ : 0 <= Q) by (apply rsum_nonneg; intros; apply Rle_0_sqr).
  assert (HK : 0 <= Lam * W + Lam * Lam) by nra.
  assert (HX : step * G <= 1).
  { assert (step * G <= step * (INR numBones * (Lam * W)))
      by (apply Rmult_le_compat_l; [lra | exact G_bound]).
    assert (0 <= INR numBones * step * (Lam * Lam))
      by (apply Rmult_le_pos; [apply Rmult_le_pos|]; nra).
    replace (INR numBones * step * (Lam * W + Lam * Lam))
      with (step * (INR numBones * (Lam * W)) + INR numBones * step * (Lam * Lam)) in Hs by ring.
    lra. }
  pose proof (first_order_bound HX) as HF.
  destruct tip_shift_bound as [Bx By].
  apply Rabs_sq_le in Bx. apply Rabs_sq_le in By.
  assert (HX2 : (step * G) * (step * G) <= step * step * (INR numBones * Q))
    by (pose proof G_sq; nra).
  assert (Hkey : (step * G) * (step * G) * (Lam * W + Lam * Lam) <= step * Q / 2).
  { apply Rle_trans with (step * step * (INR numBones * Q) * (Lam * W + Lam * Lam)).
    - apply Rmult_le_compat_r; assumption.
    - assert (0 <= step * Q) by nra.
      replace (step * step * (INR numBones * Q) * (Lam * W + Lam * Lam))
        with (step * Q * (INR numBones * step * (Lam * W + Lam * Lam))) by ring.
      nra. }
  replace (vx target - vx E') with (Vx - (vx E' - vx E)) by ring.
  replace (vy target - vy E') with (Vy - (vy E' - vy E)) by ring.
  nra.
Qed.

End Step.

(** ** The solver step of the code *)

Lemma sum_lengths : rsum numBones (fun k => lengths.[k]) = 39.
Proof. unfold numBones, lengths. cbn [rsum nth]. lra. Qed.

Lemma INR_numBones : INR numBones = 5.
Proof. unfold numBones. cbn [INR]. lra. Qed.

Lemma lengths_nonneg : forall k, (k < numBones)%nat -> 0 <= lengths.[k].
Proof. intros k Hk. pose proof (lengths_positive k Hk). lra. Qed.

(** The tip of the chain of line 149 stays in the square [[-39, 39]^2]. *)
Lemma tip_coords_bound theta :
  Rabs (vx (joint lengths theta numBones)) <= 39 /\ Rabs (vy (joint lengths theta numBones)) <= 39.
Proof.
  pose proof (joint_reach lengths theta numBones) as Hr.
  rewrite (rsum_abs_lengths lengths lengths_positive), sum_lengths in Hr.
  rewrite vlength_planar in Hr by apply joint_z.
  destruct (norm2_bounds (vx (joint lengths theta numBones)) (vy (joint lengths theta numBones))).
  lra.
Qed.

(** For a target of the visible square a step size of at most [0.00001]
    is small enough for [descent_core]. *)
Lemma window_step_small theta target :
  step <= / 100000 -> Rabs (vx target) <= 60 -> Rabs (vy target) <= 60 ->
  INR numBones * step *
    (rsum numBones (fun k => lengths.[k])
       * (Rabs (vx target - vx (joint lengths theta numBones))
          + Rabs (vy target - vy (joint lengths theta numBones)))
     + rsum numBones (fun k => lengths.[k]) * rsum numBones (fun k => lengths.[k])) <= / 2.
Proof.
  intros Hs Hx Hy. rewrite INR_numBones, sum_lengths. destruct (tip_coords_bound theta) as [Ex Ey].
  pose proof (Rabs_triang (vx target) (- vx (joint lengths theta numBones))) as H1.
  pose proof (Rabs_triang (vy target) (- vy (joint lengths theta numBones))) as H2.
  rewrite Rabs_Ropp in H1, H2. unfold Rminus in *.
  set (K := 39 * (Rabs (vx target + - vx (joint lengths theta numBones))
                  + Rabs (vy target + - vy (joint lengths theta numBones))) + 39 * 39).
  assert (HK : 0 <= K <= 9243).
  { unfold K. pose proof (Rabs_pos (vx target + - vx (joint lengths theta numBones))).
    pose proof (Rabs_pos (vy target + - vy (joint lengths theta numBones))). lra. }
  pose proof step_pos. assert (step * K <= / 100000 * 9243) by (apply Rmult_le_compat; lra).
  lra.
Qed.

(** ** The interface between the kinematics and the solver

    The solver of lines 332-351 reads only [positions] and [endEffect],
    and its analysis needs only that they are the joints and the tip of a
    planar chain with non-negative lengths.  [PlanarChain fk] is that
    promise of a forward kinematics [fk]; the section [Solver] proves the
    descent of the solver against it, and [forward_chain] discharges it
    for the matrix code of lines 246-329 by [Chain.forward_joint]. *)

Class PlanarChain (fk : list R -> list vec3 * vec3) := {
  chain_lengths : list R;
  chain_lengths_nonneg : forall k, (k < numBones)%nat -> 0 <= chain_lengths.[k];
  chain_fk : forall theta,
    fk theta = (map (joint chain_lengths theta) (seq 0 numBones), joint chain_lengths theta numBones)
}.

Section Solver.
Context (fk : list R -> list vec3 * vec3) `{PlanarChain fk}.

(** On the active branch of the guard the solver takes the step [stepped]. *)
Lemma solve_step_stepped theta target :
  length theta = numBones -> threshold < vlength (vsub (snd (fk theta)) target) ->
  solve_step (fst (fk theta)) (snd (fk theta)) target theta = stepped chain_lengths theta target.
Proof.
  intros Hl Hg. rewrite solve_step_active by assumption. unfold stepped.
  apply map_ext_in. intros i Hi. apply in_seq in Hi.
  rewrite dtheta_torque by lia. rewrite chain_fk. cbn [fst snd].
  rewrite nth_map_seq by lia. reflexivity.
Qed.

Lemma dtheta_grad theta target i :
  (i < numBones)%nat ->
  (dtheta_of (jacobian (snd (fk theta)) (fst (fk theta))) (error_vec target (snd (fk theta)))).[i]
  = grad chain_lengths theta target i.
Proof.
  intros Hi. rewrite dtheta_torque by exact Hi. rewrite chain_fk.
  cbn [fst snd]. rewrite nth_map_seq by exact Hi. reflexivity.
Qed.

(** [descent_core] for the solver on any planar chain. *)
Lemma solver_descent theta target :
  length theta = numBones ->
  INR numBones * step *
    (rsum numBones (fun k => chain_lengths.[k])
       * (Rabs (vx target - vx (snd (fk theta))) + Rabs (vy target - vy (snd (fk theta))))
     + rsum numBones (fun k => chain_lengths.[k]) * rsum numBones (fun k => chain_lengths.[k]))
  <= / 2 ->
  threshold < vlength (vsub (snd (fk theta)) target) ->
  let ps := fst (fk theta) in
  let ee := snd (fk theta) in
  let V := error_vec target ee in
  let V' := error_vec target (snd (fk (solve_step ps ee target theta))) in
  dot V' V' <= dot V V - step * rsum numBones (fun i => (dtheta_of (jacobian ee ps) V).[i]
                                                         * (dtheta_of (jacobian ee ps) V).[i]).
Proof.
  intros Hl Hs Hg. cbv zeta.
  rewrite chain_fk in Hs. cbn [snd] in Hs.
  pose proof (descent_core chain_lengths theta target chain_lengths_nonneg Hs) as Hd.
  rewrite solve_step_stepped by assumption.
  rewrite (rsum_ext _ _ (fun i => grad chain_lengths theta target i * grad chain_lengths theta target i))
    by (intros i Hi; rewrite dtheta_grad by exact Hi; reflexivity).
  rewrite !chain_fk. cbn [snd].
  unfold dot, error_vec, vsub. cbn [vx vy vz]. rewrite !joint_z. lra.
Qed.

End Solver.

(** The matrix code of [Chain] is a planar chain with the lengths of line 149. *)
#[export] Instance forward_chain : PlanarChain (forward lengths) := {
  chain_lengths := lengths;
  chain_lengths_nonneg := lengths_nonneg;
  chain_fk := fun theta => forward_joint lengths theta lengths_nonzero
}.

Lemma sq_error_step_small theta target :
  step <= / 100000 -> length theta = numBones -> Rabs (vx target) <= 60 -> Rabs (vy target) <= 60 ->
  threshold < vlength (vsub (snd (forward lengths theta)) target) ->
  let ps := fst (forward lengths theta) in
  let ee := snd (forward lengths theta) in
  let V := error_vec target ee in
  let V' := error_vec target (snd (forward lengths (solve_step ps ee target theta))) in
  dot V' V' <= dot V V - step * rsum numBones (fun i => (dtheta_of (jacobian ee ps) V).[i]
                                                         * (dtheta_of (jacobian ee ps) V).[i]).
Proof.
  intros Hs Hl Hx Hy Hg. apply (solver_descent (forward lengths) theta target Hl); [|exact Hg].
  cbn [chain_lengths forward_chain]. rewrite forward_joint by exact lengths_nonzero. cbn [snd].
  exact (window_step_small theta target Hs Hx Hy).
Qed.

(** C3: on the active branch of the guard of line 333, one solver step
    of the code, for a target in the visible square [[-60, 60]^2] (where
    every click of the 1024 x 768 window lands), decreases the squared
    distance from the tip to the target by at least [step * sum_i
    dtheta[i]^2]: the step of line 317 is small enough for the second-order
    terms of the chain of line 149, and every frame with a non-zero
    [dtheta] strictly improves the pose (spec 4.3, spec 8). *)
Theorem solve_step_sufficient_decrease theta target :
  length theta = numBones -> Rabs (vx target) <= 60 -> Rabs (vy target) <= 60 ->
  threshold < vlength (vsub (snd (forward lengths theta)) target) ->
  let ps := fst (forward lengths theta) in
  let ee := snd (forward lengths theta) in
  let V := error_vec target ee in
  let V' := error_vec target (snd (forward lengths (solve_step ps ee target theta))) in
  dot V' V' <= dot V V - step * rsum numBones (fun i => (dtheta_of (jacobian ee ps) V).[i]
                                                         * (dtheta_of (jacobian ee ps) V).[i]).
Proof. apply sq_error_step_small. unfold step. lra. Qed.

Lemma sq_error_step theta target :
  length theta = numBones -> Rabs (vx target) <= 60 -> Rabs (vy target) <= 60 ->
  threshold < vlength (vsub (snd (forward lengths theta)) target) ->
  let ps := fst (forward lengths theta) in
  let ee := snd (forward lengths theta) in
  let V := error_vec target ee in
  let V' := error_vec target (snd (forward lengths (solve_step ps ee target theta))) in
  dot V' V' <= dot V V - step * rsum numBones (fun i => (dtheta_of (jacobian ee ps) V).[i]
                                                         * (dtheta_of (jacobian ee ps) V).[i]).
Proof. apply sq_error_step_small. unfold step. lra. Qed.

Lemma Rabs_le_60 x : -60 <= x <= 60 -> Rabs x <= 60.
Proof. apply Rabs_le. Qed.

Lemma solve_step_sufficient_decrease_witness :
  length theta0 = numBones /\ Rabs (vx (Vec3 20 10 0)) <= 60 /\ Rabs (vy (Vec3 20 10 0)) <= 60 /\
  threshold < vlength (vsub (snd (forward lengths theta0)) (Vec3 20 10 0)) /\
  let ps := fst (forward lengths theta0) in
  let ee := snd (forward lengths theta0) in
  let V := error_vec (Vec3 20 10 0) ee in
  let V' := error_vec (Vec3 20 10 0) (snd (forward lengths (solve_step ps ee (Vec3 20 10 0) theta0))) in
  dot V' V' <= dot V V - step * rsum numBones (fun i => (dtheta_of (jacobian ee ps) V).[i]
                                                         * (dtheta_of (jacobian ee ps) V).[i]).
Proof.
  assert (H1 : Rabs (vx (Vec3 20 10 0)) <= 60) by (apply Rabs_le_60; cbn; lra).
  assert (H2 : Rabs (vy (Vec3 20 10 0)) <= 60) by (apply Rabs_le_60; cbn; lra).
  assert (H3 : threshold < vlength (vsub (snd (forward lengths theta0)) (Vec3 20 10 0))).
  { apply threshold_lt_vlength. rewrite forward_joint by auto with ik. cbn [snd].
    rewrite joint_rest by (intros; apply theta0_zero).
    unfold dot, vsub, vec3_zero, numBones, lengths. cbn. lra. }
  split; [reflexivity|]. split; [exact H1|]. split; [exact H2|]. split; [exact H3|].
  exact (solve_step_sufficient_decrease theta0 (Vec3 20 10 0) eq_refl H1 H2 H3).
Defined.

Lemma vlength_le_of_dot u v : dot u u <= dot v v -> vlength u <= vlength v.
Proof. intros H. unfold vlength. now apply sqrt_le_1_alt. Qed.

Lemma error_step_nonincreasing theta target :
  length theta = numBones -> Rabs (vx target) <= 60 -> Rabs (vy target) <= 60 ->
  vlength (error_vec target (snd (forward lengths
             (solve_step (fst (forward lengths theta)) (snd (forward lengths theta)) target theta))))
  <= vlength (error_vec target (snd (forward lengths theta))).
Proof.
  intros Hl Hx Hy.
  destruct (Rle_lt_dec (vlength (vsub (snd (forward lengths theta)) target)) threshold) as [Hc|Hg].
  - rewrite solve_step_converged by exact Hc. lra.
  - apply vlength_le_of_dot. pose proof (sq_error_step theta target Hl Hx Hy Hg) as H.
    cbv zeta in H. eapply Rle_trans; [exact H|].
    set (d := dtheta_of _ _).
    assert (0 <= step * rsum numBones (fun i => d.[i] * d.[i])).
    { apply Rmult_le_pos; [pose proof step_pos; lra|].
      apply rsum_nonneg. intros k _. apply Rle_0_sqr. }
    lra.
Qed.

(** C11: for a target in the visible square, no frame of the solver moves
    the tip away from the target: on both branches of the guard of line
    333 the distance [|target - endEffect|] after the step is at most the
    distance before (spec 8, monotone convergence). *)
Theorem solve_step_error_nonincreasing theta target :
  length theta = numBones -> Rabs (vx target) <= 60 -> Rabs (vy target) <= 60 ->
  vlength (error_vec target (snd (forward lengths
             (solve_step (fst (forward lengths theta)) (snd (forward lengths theta)) target theta))))
  <= vlength (error_vec target (snd (forward lengths theta))).
Proof. exact (error_step_nonincreasing theta target). Qed.

Lemma solve_step_error_nonincreasing_witness :
  length theta0 = numBones /\ Rabs (vx (Vec3 20 10 0)) <= 60 /\ Rabs (vy (Vec3 20 10 0)) <= 60 /\
  vlength (error_vec (Vec3 20 10 0) (snd (forward lengths
             (solve_step (fst (forward lengths theta0)) (snd (forward lengths theta0)) (Vec3 20 10 0) theta0))))
  <= vlength (error_vec (Vec3 20 10 0) (snd (forward lengths theta0))).
Proof.
  assert (H1 : Rabs (vx (Vec3 20 10 0)) <= 60) by (apply Rabs_le_60; cbn; lra).
  assert (H2 : Rabs (vy (Vec3 20 10 0)) <= 60) by (apply Rabs_le_60; cbn; lra).
  split; [reflexivity|]. split; [exact H1|]. split; [exact H2|].
  exact (solve_step_error_nonincreasing theta0 (Vec3 20 10 0) eq_refl H1 H2).
Defined.
