(* ===== verification/Frame.v ===== *)
(** * The frame loop of src/IKTest.cpp (lines 60-61, 141, 155-360)

    [state] is what one iteration of the [do ... while] loop hands to the
    next: the angles [theta], the flag [targetSet], the cursor position
    [targetX]/[targetY] and the world target [worldTargetX]/[worldTargetY]
    (all other variables of the loop body are recomputed every frame).
    [frame] is one iteration: the mouse input of lines 167-182, forward
    kinematics and the solver step.  The reachable states are [star] of
    frame steps from [init_state], for any mouse input; [window_reachable]
    restricts the clicks to the window.  The theorems describe the loop
    over many frames: before the first click, after convergence, on the x
    axis, and, from [Descent], the distance of the guard of line 333
    ([frame_error]) along frames without a click: non-increasing,
    convergent, with vanishing solver increments. *)

From S2P Require Import Prelude Glm Chain Jacobian Stepper Descent.
Import Spec.

Record state := State {
  theta : list R;
  targetSet : bool;
  targetX : R;
  targetY : R;
  worldTargetX : R;
  worldTargetY : R
}.

(** What [glfwGetMouseButton] and [glfwGetCursorPos] report in a frame. *)
Inductive mouse := Released | Pressed (xpos ypos : R).

(** Lines 60-61, 141 and 155. *)
Definition init_state : state := State theta0 false 0 0 0 0.

(** Lines 179-180: from window pixels (1024 x 768, y downwards) to world
    coordinates of the orthographic view [-60, 60] x [-60, 60]. *)
Definition world_of_cursor_x (targetX : R) : R := (targetX / 1024 - 0.5) * 120.
Definition world_of_cursor_y (targetY : R) : R := (- targetY / 768 + 0.5) * 120.

(** Lines 167-182. *)
Definition read_input (st : state) (m : mouse) : state :=
  match m with
  | Released => st
  | Pressed xpos ypos =>
      State (theta st) true xpos ypos (world_of_cursor_x xpos) (world_of_cursor_y ypos)
  end.

(** [vec3 target = vec3(worldTargetX, worldTargetY, 0.0f)] (line 332). *)
Definition target_of (st : state) : vec3 := Vec3 (worldTargetX st) (worldTargetY st) 0.

(** One iteration of the loop: input, forward kinematics, solver step. *)
Definition frame (st : state) (m : mouse) : state :=
  let st1 := read_input st m in
  let fk := forward lengths (theta st1) in
  State (solve_step (fst fk) (snd fk) (target_of st1) (theta st1))
        (targetSet st1) (targetX st1) (targetY st1)
        (worldTargetX st1) (worldTargetY st1).

Definition frame_step (s s' : state) : Prop := exists m, s' = frame s m.

Definition reachable (s : state) : Prop := star frame_step init_state s.

(** [n] frames in which the mouse button stays up. *)
Definition idle (n : nat) (st : state) : state := Nat.iter n (fun s => frame s Released) st.

(** ** The rest pose lies on the x axis *)

Lemma forward_rest_on_axis :
  (forall i, (i < numBones)%nat -> vy (nth i (fst (forward lengths theta0)) vec3_zero) = 0) /\
  vy (snd (forward lengths theta0)) = 0.
Proof.
  rewrite forward_joint by auto with ik. cbn [fst snd].
  split.
  - intros i Hi. rewrite nth_map_seq by exact Hi.
    rewrite joint_rest by (intros; apply theta0_zero). reflexivity.
  - rewrite joint_rest by (intros; apply theta0_zero). reflexivity.
Qed.

(** A frame at the rest pose towards a target on the x axis changes no angle. *)
Lemma frame_rest_on_axis st m :
  theta (read_input st m) = theta0 -> worldTargetY (read_input st m) = 0 ->
  theta (frame st m) = theta0.
Proof.
  intros Ht Hy. unfold frame. cbn [theta]. rewrite Ht.
  destruct forward_rest_on_axis as [Hp He].
  apply solve_step_on_axis; auto.
Qed.

(** ** Before the first click *)

(** No click, no target: the angles are still those of the rest pose and
    the world target is still the origin (rule induction on frame steps). *)
Lemma reachable_unset st :
  reachable st -> targetSet st = false ->
  theta st = theta0 /\ worldTargetX st = 0 /\ worldTargetY st = 0.
Proof.
  intros Hr. revert Hr.
  apply (star_invariant frame_step
           (fun s => targetSet s = false ->
                     theta s = theta0 /\ worldTargetX s = 0 /\ worldTargetY s = 0)).
  - intros _. repeat split.
  - intros x y IH [m ->]. destruct m as [|xp yp]; cbn [frame read_input targetSet]; [|discriminate].
    intros Hu. destruct (IH Hu) as (Ht & Hx & Hy). cbn [worldTargetX worldTargetY].
    repeat split; auto. now apply frame_rest_on_axis.
Qed.

Lemma frame_released_fixed st :
  theta (frame st Released) = theta st -> frame st Released = st.
Proof.
  intros H. destruct st as [th ts tx ty wx wy].
  change (frame _ Released)
    with (State (theta (frame (State th ts tx ty wx wy) Released)) ts tx ty wx wy).
  now rewrite H.
Qed.

Lemma idle_fixed st n : frame st Released = st -> idle n st = st.
Proof.
  intros H. induction n as [|n IH]; [reflexivity|].
  unfold idle in *. rewrite Nat.iter_succ, IH. exact H.
Qed.

(** C5: before the user has ever clicked, any number of frames leave the
    whole state, the angles included, unchanged (spec 8, no-op before the
    target is set).  The code has no [targetSet] guard on the solver: the
    property holds because the rest pose and the default target [(0,0)]
    lie on the x axis, where every [dtheta[i]] is zero. *)
Theorem frame_noop_before_click st n :
  reachable st -> targetSet st = false -> idle n st = st.
Proof.
  intros Hr Hu. apply idle_fixed, frame_released_fixed.
  destruct (reachable_unset st Hr Hu) as (Ht & _ & Hy).
  rewrite (frame_rest_on_axis st Released Ht Hy). now symmetry.
Qed.

Lemma frame_noop_before_click_witness :
  reachable init_state /\ targetSet init_state = false /\ idle 1000 init_state = init_state.
Proof.
  split; [constructor|]. split; [reflexivity|].
  apply (frame_noop_before_click init_state 1000); [constructor | reflexivity].
Defined.

(** ** After convergence *)

(** The tip of the rest pose with the lengths of line 149. *)
Lemma tip_rest : snd (forward lengths theta0) = Vec3 39 0 0.
Proof.
  rewrite forward_joint by auto with ik. cbn [snd].
  rewrite joint_rest by (intros; apply theta0_zero). vec_lra.
Qed.

(** C10: once the end effector is within [threshold] of the target, frames
    without a click leave the state unchanged for ever: the loop settles
    instead of oscillating (spec 8, convergence). *)
Theorem frame_converged_stable st n :
  vlength (vsub (snd (forward lengths (theta st))) (target_of st)) <= threshold ->
  idle n st = st.
Proof.
  intros Hc. apply idle_fixed, frame_released_fixed.
  unfold frame, solve_step; cbn [theta read_input].
  destruct (Rlt_dec _ _); [lra | reflexivity].
Qed.

Lemma frame_converged_stable_witness :
  vlength (vsub (snd (forward lengths (theta (State theta0 true 0 0 39 0))))
                (target_of (State theta0 true 0 0 39 0))) <= threshold /\
  idle 100 (State theta0 true 0 0 39 0) = State theta0 true 0 0 39 0.
Proof.
  assert (Hc : vlength (vsub (snd (forward lengths (theta (State theta0 true 0 0 39 0))))
                             (target_of (State theta0 true 0 0 39 0))) <= threshold).
  { cbn [theta]. rewrite tip_rest.
    replace (vsub (Vec3 39 0 0) (target_of (State theta0 true 0 0 39 0))) with vec3_zero
      by (unfold vsub, vec3_zero, target_of; apply vec3_eq_intro; cbn; ring).
    rewrite vlength_zero. unfold threshold. lra. }
  split; [exact Hc | exact (frame_converged_stable _ 100 Hc)].
Defined.

(** ** A target on the horizontal centre line *)

Lemma world_of_cursor_y_centre : world_of_cursor_y 384 = 0.
Proof. unfold world_of_cursor_y. lra. Qed.

(** C6: from the rest pose (in particular before any click), a click
    anywhere on the pixel row 384 puts the target on the x axis, and then
    no number of frames moves the chain: the angles stay at the rest pose
    and the error stays [|39 - x|], above [threshold] for every target but
    the tip itself.  A target such as [(20, 0)], within reach, is never
    approached: the Jacobian-transpose step is zero at this singular
    configuration, against the convergence expected by spec 8. *)
Theorem rest_pose_stuck_on_axis st xpos n :
  reachable st -> targetSet st = false ->
  let st' := idle n (frame st (Pressed xpos 384)) in
  theta st' = theta0 /\
  vlength (vsub (snd (forward lengths (theta st'))) (target_of st'))
  = Rabs (39 - world_of_cursor_x xpos).
Proof.
  intros Hr Hu. destruct (reachable_unset st Hr Hu) as (Ht & _ & _).
  assert (Hy : worldTargetY (read_input st (Pressed xpos 384)) = 0)
    by exact world_of_cursor_y_centre.
  assert (H1 : theta (frame st (Pressed xpos 384)) = theta0)
    by (apply frame_rest_on_axis; [exact Ht | exact Hy]).
  assert (Hfix : idle n (frame st (Pressed xpos 384)) = frame st (Pressed xpos 384)).
  { apply idle_fixed, frame_released_fixed. rewrite H1.
    apply frame_rest_on_axis; [exact H1 | exact Hy]. }
  cbv zeta. rewrite Hfix, H1, tip_rest. split; [reflexivity|].
  unfold target_of, vsub. cbn [frame read_input worldTargetX worldTargetY vx vy vz].
  rewrite world_of_cursor_y_centre, vlength_planar by (cbn; ring). cbn [vx vy].
  replace (0 - 0) with 0 by ring. apply norm2_x.
Qed.

Lemma rest_pose_stuck_on_axis_witness :
  reachable init_state /\ targetSet init_state = false /\
  theta (idle 1000 (frame init_state (Pressed 700 384))) = theta0.
Proof.
  split; [constructor|]. split; [reflexivity|].
  exact (proj1 (rest_pose_stuck_on_axis init_state 700 1000 (star_refl _ _) eq_refl)).
Defined.

(** ** Idle frames never move the tip away from the target *)

(** [glm::length(endEffect - target)] of the guard of line 333. *)
Definition frame_error (st : state) : R :=
  vlength (vsub (snd (forward lengths (theta st))) (target_of st)).

Lemma idle_S n st : idle (S n) st = frame (idle n st) Released.
Proof. unfold idle. now rewrite Nat.iter_succ. Qed.

Lemma idle_target st n : target_of (idle n st) = target_of st.
Proof. induction n as [|n IH]; [reflexivity|]. rewrite idle_S. exact IH. Qed.

Lemma idle_length st n : length (theta (idle n st)) = length (theta st).
Proof.
  induction n as [|n IH]; [reflexivity|]. rewrite idle_S. cbn [frame read_input theta].
  rewrite length_solve_step. exact IH.
Qed.

Lemma frame_error_step st :
  length (theta st) = numBones ->
  Rabs (worldTargetX st) <= 60 -> Rabs (worldTargetY st) <= 60 ->
  frame_error (frame st Released) <= frame_error st.
Proof.
  intros Hl Hx Hy. unfold frame_error. cbn [frame read_input theta].
  change (target_of (frame st Released)) with (target_of st).
  rewrite !(vlength_vsub_comm (snd (forward _ _))).
  apply error_step_nonincreasing; assumption.
Qed.

Lemma idle_error_mono st m n :
  length (theta st) = numBones ->
  Rabs (worldTargetX st) <= 60 -> Rabs (worldTargetY st) <= 60 ->
  (m <= n)%nat -> frame_error (idle n st) <= frame_error (idle m st).
Proof.
  intros Hl Hx Hy Hmn. induction Hmn as [|n _ IH]; [lra|].
  rewrite idle_S. eapply Rle_trans; [|exact IH].
  pose proof (idle_target st n) as Ht. unfold target_of in Ht. injection Ht as Htx Hty.
  apply frame_error_step; [rewrite idle_length; exact Hl | rewrite Htx; exact Hx | rewrite Hty; exact Hy].
Qed.

(** C4: once the user has clicked inside the visible square, the distance
    from the tip to the target never grows while the button stays up:
    along the frames of the loop it is a non-increasing sequence (spec 8,
    monotone convergence, for the whole frame loop of lines 158-360). *)
Theorem idle_error_nonincreasing st m n :
  length (theta st) = numBones ->
  Rabs (worldTargetX st) <= 60 -> Rabs (worldTargetY st) <= 60 ->
  (m <= n)%nat -> frame_error (idle n st) <= frame_error (idle m st).
Proof. exact (idle_error_mono st m n). Qed.

Lemma world_of_cursor_bounds xpos ypos :
  0 <= xpos <= 1024 -> 0 <= ypos <= 768 ->
  Rabs (world_of_cursor_x xpos) <= 60 /\ Rabs (world_of_cursor_y ypos) <= 60.
Proof.
  intros Hx Hy. unfold world_of_cursor_x, world_of_cursor_y.
  split; apply Rabs_le; split; lra.
Qed.

(** A click at pixel [(700, 200)] from the initial state. *)
Lemma click_700_200 :
  length (theta (frame init_state (Pressed 700 200))) = numBones /\
  Rabs (worldTargetX (frame init_state (Pressed 700 200))) <= 60 /\
  Rabs (worldTargetY (frame init_state (Pressed 700 200))) <= 60.
Proof.
  split; [cbn [frame read_input theta]; now rewrite length_solve_step|].
  exact (world_of_cursor_bounds 700 200 ltac:(lra) ltac:(lra)).
Qed.

Lemma idle_error_nonincreasing_witness :
  let st := frame init_state (Pressed 700 200) in
  length (theta st) = numBones /\
  Rabs (worldTargetX st) <= 60 /\ Rabs (worldTargetY st) <= 60 /\ (10 <= 1000)%nat /\
  frame_error (idle 1000 st) <= frame_error (idle 10 st).
Proof.
  cbv zeta. destruct click_700_200 as (Hl & Hx & Hy).
  split; [exact Hl|]. split; [exact Hx|]. split; [exact Hy|]. split; [lia|].
  exact (idle_error_nonincreasing _ 10 1000 Hl Hx Hy ltac:(lia)).
Defined.

(** While the button stays up the distance from the tip to the target
    converges: the loop of lines 158-360 settles towards a limit instead of
    oscillating, whatever the target of the visible square. *)
Theorem idle_error_converges st :
  length (theta st) = numBones ->
  Rabs (worldTargetX st) <= 60 -> Rabs (worldTargetY st) <= 60 ->
  exists l, Un_cv (fun n => frame_error (idle n st)) l.
Proof.
  intros Hl Hx Hy.
  destruct (decreasing_cv (fun n => frame_error (idle n st))) as [l Hcv].
  - intros n. apply idle_error_mono; auto.
  - exists 0. intros x [n ->]. unfold opp_seq.
    pose proof (sqrt_pos (dot (vsub (snd (forward lengths (theta (idle n st)))) (target_of (idle n st)))
                             (vsub (snd (forward lengths (theta (idle n st)))) (target_of (idle n st))))).
    unfold frame_error, vlength. lra.
  - now exists l.
Qed.

Lemma idle_error_converges_witness :
  let st := frame init_state (Pressed 700 200) in
  length (theta st) = numBones /\
  Rabs (worldTargetX st) <= 60 /\ Rabs (worldTargetY st) <= 60 /\
  exists l, Un_cv (fun n => frame_error (idle n st)) l.
Proof.
  cbv zeta. destruct click_700_200 as (Hl & Hx & Hy).
  split; [exact Hl|]. split; [exact Hx|]. split; [exact Hy|].
  exact (idle_error_converges _ Hl Hx Hy).
Defined.

(** ** The steps of the solver vanish *)

(** The squared distance from the tip to the target. *)
Definition frame_sq_error (st : state) : R :=
  dot (error_vec (target_of st) (snd (forward lengths (theta st))))
      (error_vec (target_of st) (snd (forward lengths (theta st)))).

(** [step * sum_i dtheta[i]^2] when the guard of line 333 lets the solver
    run, and [0] when it does not. *)
Definition step_gain (st : state) : R :=
  let fk := forward lengths (theta st) in
  let d := dtheta_of (jacobian (snd fk) (fst fk)) (error_vec (target_of st) (snd fk)) in
  if Rlt_dec threshold (vlength (vsub (snd fk) (target_of st))) then
    step * rsum numBones (fun i => d.[i] * d.[i])
  else 0.

Lemma step_gain_nonneg st : 0 <= step_gain st.
Proof.
  unfold step_gain. destruct (Rlt_dec _ _); [|lra].
  apply Rmult_le_pos; [unfold step; lra|]. apply rsum_nonneg. intros; apply Rle_0_sqr.
Qed.

Lemma frame_sq_error_nonneg st : 0 <= frame_sq_error st.
Proof. unfold frame_sq_error, dot. nra. Qed.

Lemma frame_gain st :
  length (theta st) = numBones ->
  Rabs (worldTargetX st) <= 60 -> Rabs (worldTargetY st) <= 60 ->
  frame_sq_error (frame st Released) <= frame_sq_error st - step_gain st.
Proof.
  intros Hl Hx Hy. unfold frame_sq_error, step_gain. cbn [frame read_input theta].
  change (target_of (frame st Released)) with (target_of st).
  destruct (Rlt_dec _ _) as [Hg|Hc].
  - exact (sq_error_step (theta st) (target_of st) Hl Hx Hy Hg).
  - rewrite solve_step_converged by lra. lra.
Qed.

Lemma idle_gain_sum st n :
  length (theta st) = numBones ->
  Rabs (worldTargetX st) <= 60 -> Rabs (worldTargetY st) <= 60 ->
  rsum n (fun j => step_gain (idle j st)) <= frame_sq_error st - frame_sq_error (idle n st).
Proof.
  intros Hl Hx Hy. induction n as [|n IH]; cbn [rsum]; [cbn; lra|].
  rewrite idle_S.
  pose proof (idle_target st n) as Ht. unfold target_of in Ht. injection Ht as Htx Hty.
  pose proof (frame_gain (idle n st)) as H.
  rewrite idle_length, Htx, Hty in H. specialize (H Hl Hx Hy). lra.
Qed.

(** C7: while the button stays up, the increments the solver adds to the
    angles tend to zero: the sum over all frames of [step * sum_i
    dtheta[i]^2] is at most the initial squared error, so the chain comes
    to rest, either within [threshold] of the target or at a pose where
    every [dtheta[i]] vanishes (such as the stuck pose of C6). *)
Theorem idle_steps_vanish st :
  length (theta st) = numBones ->
  Rabs (worldTargetX st) <= 60 -> Rabs (worldTargetY st) <= 60 ->
  Un_cv (fun n => step_gain (idle n st)) 0.
Proof.
  intros Hl Hx Hy. apply (summable_vanish _ (frame_sq_error st)).
  - intros n. apply step_gain_nonneg.
  - intros n. pose proof (idle_gain_sum st n Hl Hx Hy).
    pose proof (frame_sq_error_nonneg (idle n st)). lra.
Qed.

Lemma idle_steps_vanish_witness :
  let st := frame init_state (Pressed 700 200) in
  length (theta st) = numBones /\
  Rabs (worldTargetX st) <= 60 /\ Rabs (worldTargetY st) <= 60 /\
  Un_cv (fun n => step_gain (idle n st)) 0.
Proof.
  cbv zeta. destruct click_700_200 as (Hl & Hx & Hy).
  split; [exact Hl|]. split; [exact Hx|]. split; [exact Hy|].
  exact (idle_steps_vanish _ Hl Hx Hy).
Defined.

(** ** The stored cursor and the world target agree after a click *)

(** In every reachable state where a target has been set, the world target
    is the image under lines 179-180 of the stored cursor position (rule
    induction on frame steps: only a click writes either). *)
Lemma reachable_target_cursor st :
  reachable st -> targetSet st = true ->
  worldTargetX st = world_of_cursor_x (targetX st) /\
  worldTargetY st = world_of_cursor_y (targetY st).
Proof.
  intros Hr. revert Hr.
  apply (star_invariant frame_step
           (fun s => targetSet s = true ->
                     worldTargetX s = world_of_cursor_x (targetX s) /\
                     worldTargetY s = world_of_cursor_y (targetY s))).
  - discriminate.
  - intros x y IH [m ->]. destruct m as [|xp yp]; cbn [frame read_input targetSet
      worldTargetX worldTargetY targetX targetY]; [exact IH | split; reflexivity].
Qed.

(** ** Clicks inside the window *)

(** A mouse input whose cursor lies in the 1024 x 768 window (GLFW also
    reports positions outside it while a button is held; those inputs are
    excluded here). *)
Definition in_window (m : mouse) : Prop :=
  match m with
  | Released => True
  | Pressed xpos ypos => 0 <= xpos <= 1024 /\ 0 <= ypos <= 768
  end.

Definition window_step (s s' : state) : Prop := exists m, in_window m /\ s' = frame s m.

Definition window_reachable (s : state) : Prop := star window_step init_state s.

(** Every state reached with clicks inside the window has five angles and
    a target in the visible square. *)
Lemma window_reachable_inv st :
  window_reachable st ->
  length (theta st) = numBones /\ Rabs (worldTargetX st) <= 60 /\ Rabs (worldTargetY st) <= 60.
Proof.
  apply (star_invariant window_step (fun s => length (theta s) = numBones /\
           Rabs (worldTargetX s) <= 60 /\ Rabs (worldTargetY s) <= 60)).
  - cbn [init_state theta worldTargetX worldTargetY]. rewrite Rabs_R0.
    split; [reflexivity | split; lra].
  - intros x y (Hl & Hx & Hy) (m & Hm & ->).
    cbn [frame read_input theta worldTargetX worldTargetY]. rewrite length_solve_step.
    destruct m as [|xp yp]; cbn [theta worldTargetX worldTargetY read_input].
    + auto.
    + destruct Hm as [Hxp Hyp]. split; [exact Hl|]. exact (world_of_cursor_bounds xp yp Hxp Hyp).
Qed.

(** C23: in every state the program reaches with clicks inside the window,
    the distance from the tip to the target never grows over the frames
    that follow without a click: the hypotheses of C4 are an invariant of
    the loop. *)
Theorem window_idle_error_nonincreasing st m n :
  window_reachable st -> (m <= n)%nat -> frame_error (idle n st) <= frame_error (idle m st).
Proof.
  intros Hr Hmn. destruct (window_reachable_inv st Hr) as (Hl & Hx & Hy).
  exact (idle_error_mono st m n Hl Hx Hy Hmn).
Qed.

Lemma window_idle_error_nonincreasing_witness :
  window_reachable (frame init_state (Pressed 700 200)) /\ (10 <= 1000)%nat /\
  frame_error (idle 1000 (frame init_state (Pressed 700 200)))
  <= frame_error (idle 10 (frame init_state (Pressed 700 200))).
Proof.
  assert (Hr : window_reachable (frame init_state (Pressed 700 200))).
  { eapply star_step; [|apply star_refl]. exists (Pressed 700 200). split; [cbn; lra | reflexivity]. }
  split; [exact Hr|]. split; [lia|].
  exact (window_idle_error_nonincreasing _ 10 1000 Hr ltac:(lia)).
Defined.

(** C25: every reachable state is well formed: five angles, and once a
    target is set the world target is the image under lines 179-180 of the
    stored cursor position, whatever the sequence of mouse inputs. *)
Theorem reachable_well_formed st :
  reachable st ->
  length (theta st) = numBones /\
  (targetSet st = true ->
   worldTargetX st = world_of_cursor_x (targetX st) /\ worldTargetY st = world_of_cursor_y (targetY st)).
Proof.
  intros Hr. split; [|exact (reachable_target_cursor st Hr)].
  revert Hr. apply (star_invariant frame_step (fun s => length (theta s) = numBones)); [reflexivity|].
  intros x y Hl [m ->]. cbn [frame theta]. rewrite length_solve_step.
  destruct m; exact Hl.
Qed.

Lemma reachable_well_formed_witness :
  reachable (frame init_state (Pressed 700 200)) /\
  length (theta (frame init_state (Pressed 700 200))) = numBones /\
  (targetSet (frame init_state (Pressed 700 200)) = true ->
   worldTargetX (frame init_state (Pressed 700 200))
   = world_of_cursor_x (targetX (frame init_state (Pressed 700 200))) /\
   worldTargetY (frame init_state (Pressed 700 200))
   = world_of_cursor_y (targetY (frame init_state (Pressed 700 200)))).
Proof.
  assert (Hr : reachable (frame init_state (Pressed 700 200)))
    by (eapply star_step; [exists (Pressed 700 200); reflexivity | apply star_refl]).
  split; [exact Hr|]. exact (reachable_well_formed _ Hr).
Defined.
