(* ===== verification/Camera.v ===== *)
(** * Camera and target marker of src/IKTest.cpp (lines 84-95, 99-112, 185-202)

    The program draws in a 1024 x 768 window with [Projection =
    glm::ortho(-60, 60, -60, 60, 0, 120)] and [View = glm::lookAt((0,0,100),
    (0,0,0), (0,1,0))], and converts the cursor to world coordinates by
    lines 179-180.  This file models [glm::ortho] and [glm::lookAt] as GLM
    0.9.x defines them, the projection of a world point to window pixels
    (OpenGL's viewport over the whole window, with the cursor's y axis
    pointing down as GLFW reports it), and the model matrix of the target
    marker (lines 198-201).  The theorems show that the mouse mapping is
    the inverse of the projection, and that the marker is drawn centred on
    the pixel that was clicked. *)

From S2P Require Import Prelude Glm Chain Jacobian Stepper Frame.

(** [glm::ortho(left, right, bottom, top, zNear, zFar)]. *)
Definition ortho (left right bottom top zNear zFar : R) : mat4 :=
  Mat4 (Vec4 (2 / (right - left)) 0 0 0)
       (Vec4 0 (2 / (top - bottom)) 0 0)
       (Vec4 0 0 (- 2 / (zFar - zNear)) 0)
       (Vec4 (- (right + left) / (right - left)) (- (top + bottom) / (top - bottom))
             (- (zFar + zNear) / (zFar - zNear)) 1).

(** [glm::lookAt(eye, center, up)] (right-handed). *)
Definition lookAt (eye center up : vec3) : mat4 :=
  let f := normalize (vsub center eye) in
  let s := normalize (cross f up) in
  let u := cross s f in
  Mat4 (Vec4 (vx s) (vx u) (- vx f) 0)
       (Vec4 (vy s) (vy u) (- vy f) 0)
       (Vec4 (vz s) (vz u) (- vz f) 0)
       (Vec4 (- dot s eye) (- dot u eye) (dot f eye) 1).

(** Line 84. *)
Definition Projection : mat4 := ortho (-60) 60 (-60) 60 0 120.

(** Lines 87-91. *)
Definition View : mat4 := lookAt (Vec3 0 0 100) (Vec3 0 0 0) (Vec3 0 1 0).

(** Lines 95, 192 and 202: [MVP = Projection * View * Model]. *)
Definition MVP (Model : mat4) : mat4 := Projection ** View ** Model.

(** Lines 198-201: the target marker, a bone shape scaled by [(1, 10/6, 1)]
    and moved to [(worldTargetX - .5, worldTargetY, 0)]. *)
Definition marker_model (st : state) : mat4 :=
  translate mat4_id (Vec3 (worldTargetX st - 0.5) (worldTargetY st) 0)
  ** scale mat4_id (Vec3 1 (10 / 6) 1).

(** Lines 99-112: the twelve vertices of the bone shape. *)
Definition g_vertex_buffer_data : list vec3 :=
  [Vec3 0 0 0; Vec3 0.3 0.3 0; Vec3 0.3 0 0;
   Vec3 0.3 0 0; Vec3 0.3 0.3 0; Vec3 1 0 0;
   Vec3 0 0 0; Vec3 0.3 (-0.3) 0; Vec3 0.3 0 0;
   Vec3 0.3 0 0; Vec3 0.3 (-0.3) 0; Vec3 1 0 0].

(** The window pixel (GLFW cursor coordinates) of a point in clip
    coordinates, for the default viewport of the 1024 x 768 window. *)
Definition pixel_of_clip (c : vec4) : R * R :=
  ((x4 c / w4 c + 1) / 2 * 1024, (1 - y4 c / w4 c) / 2 * 768).

(** The pixel at which a vertex is drawn with a model matrix. *)
Definition pixel_of (Model : mat4) (v : vec3) : R * R :=
  pixel_of_clip (mat4_mul_vec4 (MVP Model) (Vec4 (vx v) (vy v) (vz v) 1)).

(** ** The two camera matrices *)

Lemma Projection_entries :
  Projection = Mat4 (Vec4 (1 / 60) 0 0 0) (Vec4 0 (1 / 60) 0 0)
                    (Vec4 0 0 (- 1 / 60) 0) (Vec4 0 0 (-1) 1).
Proof. unfold Projection, ortho. mat4_entries; field. Qed.

Lemma View_entries :
  View = Mat4 (Vec4 1 0 0 0) (Vec4 0 1 0 0) (Vec4 0 0 1 0) (Vec4 0 0 (-100) 1).
Proof.
  unfold View, lookAt, normalize, vsub, cross, dot, vscale; cbn [vx vy vz].
  replace ((0 - 0) * (0 - 0) + (0 - 0) * (0 - 0) + (0 - 100) * (0 - 100)) with (100 * 100)
    by ring.
  rewrite sqrt_square by lra. cbn [vx vy vz].
  match goal with |- context [sqrt ?a] => replace a with (1 * 1) by field end.
  rewrite sqrt_square by lra. mat4_entries; field.
Qed.

(** The camera maps the world point [(x, y, z)] to clip coordinates
    [(x/60, y/60, (100 - z)/60 - 1, 1)]. *)
Lemma camera_clip x y z :
  mat4_mul_vec4 (Projection ** View) (Vec4 x y z 1)
  = Vec4 (x / 60) (y / 60) ((100 - z) / 60 - 1) 1.
Proof.
  rewrite Projection_entries, View_entries. glm_unfold.
  apply vec4_eq_intro; cbn [x4 y4 z4 w4]; field.
Qed.

(** The pixel of a vertex whose world position is [(x, y, z)]. *)
Lemma pixel_of_world M v x y z :
  mat4_mul_vec4 M (Vec4 (vx v) (vy v) (vz v) 1) = Vec4 x y z 1 ->
  pixel_of M v = ((x / 60 + 1) / 2 * 1024, (1 - y / 60) / 2 * 768).
Proof.
  intros HM. unfold pixel_of, MVP. rewrite mat4_mul_vec4_mul, HM, camera_clip.
  unfold pixel_of_clip; cbn [x4 y4 w4]. f_equal; field.
Qed.

Lemma identity_point x y :
  mat4_mul_vec4 mat4_id (Vec4 (vx (Vec3 x y 0)) (vy (Vec3 x y 0)) (vz (Vec3 x y 0)) 1)
  = Vec4 x y 0 1.
Proof. glm_unfold. apply vec4_eq_intro; cbn; ring. Qed.

(** C19: the mouse mapping of lines 179-180 and the projection of lines
    84-95 are inverse to each other: a world point of the plane [z = 0] is
    drawn at the pixel that the mapping sends back to it, and the world
    target of a click is drawn under the cursor.  So the target the solver
    chases is the point the user clicked. *)
Theorem cursor_world_roundtrip xpos ypos x y :
  pixel_of mat4_id (Vec3 (world_of_cursor_x xpos) (world_of_cursor_y ypos) 0) = (xpos, ypos) /\
  (world_of_cursor_x (fst (pixel_of mat4_id (Vec3 x y 0))),
   world_of_cursor_y (snd (pixel_of mat4_id (Vec3 x y 0)))) = (x, y).
Proof.
  rewrite !pixel_of_world with (x := _) (y := _) (z := 0) by apply identity_point.
  unfold world_of_cursor_x, world_of_cursor_y; cbn [fst snd].
  split; f_equal; lra.
Qed.

(** The world position of a vertex of the marker. *)
Lemma marker_point st v :
  mat4_mul_vec4 (marker_model st) (Vec4 (vx v) (vy v) (vz v) 1)
  = Vec4 (worldTargetX st - 0.5 + vx v) (worldTargetY st + 10 / 6 * vy v) (vz v) 1.
Proof. unfold marker_model. destruct v. glm_unfold. apply vec4_eq_intro; cbn; ring. Qed.

(** The pixel of a vertex of the marker drawn after a click at [(xpos, ypos)]. *)
Lemma marker_pixel st xpos ypos v :
  pixel_of (marker_model (frame st (Pressed xpos ypos))) v
  = (xpos + (vx v - 0.5) * (512 / 60), ypos - vy v * (32 / 3)).
Proof.
  erewrite pixel_of_world by apply marker_point.
  cbn [frame read_input worldTargetX worldTargetY].
  unfold world_of_cursor_x, world_of_cursor_y. f_equal; lra.
Qed.

Lemma g_vertex_buffer_data_bounds v :
  In v g_vertex_buffer_data -> 0 <= vx v <= 1 /\ -0.3 <= vy v <= 0.3.
Proof.
  intros Hv. unfold g_vertex_buffer_data in Hv.
  repeat (destruct Hv as [<- | Hv]; [cbn; split; lra |]).
  destruct Hv.
Qed.

(** C20: after a click at [(xpos, ypos)] the target marker is drawn centred
    on the clicked pixel, as the comment of line 199 intends: the two tips
    of the bone shape (vertices [(0,0,0)] and [(1,0,0)] of lines 99-112) land
    [512/120] pixels left and right of the click on its row, and every
    vertex lies within [512/120] pixels horizontally and [16/5] pixels
    vertically of it. *)
Theorem marker_centred st xpos ypos :
  pixel_of (marker_model (frame st (Pressed xpos ypos))) (Vec3 0 0 0) = (xpos - 512 / 120, ypos) /\
  pixel_of (marker_model (frame st (Pressed xpos ypos))) (Vec3 1 0 0) = (xpos + 512 / 120, ypos) /\
  Forall (fun v =>
            Rabs (fst (pixel_of (marker_model (frame st (Pressed xpos ypos))) v) - xpos) <= 512 / 120 /\
            Rabs (snd (pixel_of (marker_model (frame st (Pressed xpos ypos))) v) - ypos) <= 16 / 5)
         g_vertex_buffer_data.
Proof.
  rewrite !marker_pixel. cbn [vx vy fst snd].
  split; [f_equal; lra|]. split; [f_equal; lra|].
  apply Forall_forall. intros v Hv. destruct (g_vertex_buffer_data_bounds v Hv) as [Hx Hy].
  rewrite marker_pixel; cbn [fst snd]. split.
  - apply Rabs_le. lra.
  - apply Rabs_le. lra.
Qed.
