(* ===== verification/Drawing.v ===== *)
(** * The bones on the screen (src/IKTest.cpp lines 251-316)

    Inside the bone loop, line 274 sets [MVP = Projection * View * Model]
    with the [Model] of line 272, and the draw call of line 309 draws the
    twelve vertices of [g_vertex_buffer_data] with it: the bone buffer
    runs from [(0, 0, 0)] to [(1, 0, 0)], so the [Model] of bone [i] maps
    its base and its tip into the world.  This file proves that bone [i]
    is drawn from the pixel of [positions[i]] to the pixel of
    [positions[i + 1]] (of [endEffect] for the last bone), and that once
    the solver has converged the tip of the drawn chain lies within a
    ten-thousandth of a pixel of the point the user clicked. *)

From S2P Require Import Prelude Glm Chain Jacobian Stepper Frame Camera.
Import Spec.

(** The [Model] of line 272 in iteration [i] of the loop of line 251: the
    matrix line 274 sends to the shader for bone [i]. *)
Definition bone_model (lengths theta : list R) (i : nat) : mat4 :=
  Model (fold_left (bone_body lengths theta) (seq 0 (S i)) fk_init).

(** The base and the tip of the bone buffer (lines 100 and 105). *)
Definition bone_base : vec3 := Vec3 0 0 0.
Definition bone_tip : vec3 := Vec3 1 0 0.

(** The pixel at which the tip of the last bone is drawn in the frame that
    starts from [st] without a click. *)
Definition drawn_tip (st : state) : R * R := pixel_of (bone_model lengths (theta st) 4) bone_tip.

Lemma bone_model_frame lengths theta i :
  (forall k, (k < numBones)%nat -> lengths.[k] <> 0) -> (i < numBones)%nat ->
  bone_model lengths theta i = bone_frame lengths theta i.
Proof.
  intros Hl Hi. unfold bone_model.
  destruct (bones_loop_prefix lengths theta (S i) Hl ltac:(lia)) as [HM _].
  rewrite HM. now replace (S i - 1)%nat with i by lia.
Qed.

(** Bone [i]'s frame maps a vertex [(x, y, z)] of the buffer to the joint
    plus the vertex scaled by [(lengths[i], 2)] and turned by the absolute
    angle of the bone. *)
Lemma bone_frame_point lengths theta i x y z :
  mat4_mul_vec4 (bone_frame lengths theta i) (Vec4 x y z 1)
  = Vec4 (vx (joint lengths theta i) + lengths.[i] * x * cos (angle_sum theta i)
            - 2 * y * sin (angle_sum theta i))
         (vy (joint lengths theta i) + lengths.[i] * x * sin (angle_sum theta i)
            + 2 * y * cos (angle_sum theta i)) z 1.
Proof.
  unfold bone_frame. rewrite mat4_mul_vec4_mul. glm_unfold.
  apply vec4_eq_intro; cbn [x4 y4 z4 w4 vx vy vz]; ring.
Qed.

(** Two vertices with the same world position are drawn at the same pixel. *)
Lemma pixel_of_same M N v w :
  mat4_mul_vec4 M (Vec4 (vx v) (vy v) (vz v) 1) = mat4_mul_vec4 N (Vec4 (vx w) (vy w) (vz w) 1) ->
  pixel_of M v = pixel_of N w.
Proof. intros H. unfold pixel_of, MVP. now rewrite !mat4_mul_vec4_mul, H. Qed.

Lemma identity_joint lengths theta i :
  mat4_mul_vec4 mat4_id (Vec4 (vx (joint lengths theta i)) (vy (joint lengths theta i))
                              (vz (joint lengths theta i)) 1)
  = Vec4 (vx (joint lengths theta i)) (vy (joint lengths theta i)) 0 1.
Proof. rewrite joint_z. glm_unfold. apply vec4_eq_intro; cbn [x4 y4 z4 w4]; ring. Qed.

Lemma bone_drawn lengths theta i :
  (forall k, (k < numBones)%nat -> lengths.[k] <> 0) -> (i < numBones)%nat ->
  pixel_of (bone_model lengths theta i) bone_base = pixel_of mat4_id (joint lengths theta i) /\
  pixel_of (bone_model lengths theta i) bone_tip = pixel_of mat4_id (joint lengths theta (S i)).
Proof.
  intros Hl Hi. rewrite bone_model_frame by assumption.
  split; apply pixel_of_same; rewrite identity_joint, bone_frame_point;
    cbn [bone_base bone_tip joint vx vy vz]; apply vec4_eq_intro; cbn [x4 y4 z4 w4]; ring.
Qed.

(** C21: with lengths the code can divide by, bone [i] is drawn (line 274
    and the draw call of line 309) with its base at the pixel of
    [positions[i]] and its tip at the pixel of [positions[i + 1]], or of
    [endEffect] for the last bone: the picture on the screen is the chain
    whose joints the solver uses (spec 4.1). *)
Theorem bones_drawn_along_chain lengths theta i :
  (forall k, (k < numBones)%nat -> lengths.[k] <> 0) -> (i < numBones)%nat ->
  pixel_of (bone_model lengths theta i) bone_base
  = pixel_of mat4_id (nth i (chain_points (forward lengths theta)) vec3_zero) /\
  pixel_of (bone_model lengths theta i) bone_tip
  = pixel_of mat4_id (nth (S i) (chain_points (forward lengths theta)) vec3_zero).
Proof.
  intros Hl Hi. unfold chain_points. rewrite forward_joint by exact Hl. cbn [fst snd].
  rewrite !nth_map_joint by lia. exact (bone_drawn lengths theta i Hl Hi).
Qed.

Lemma bones_drawn_along_chain_witness :
  (forall k, (k < numBones)%nat -> lengths.[k] <> 0) /\ (2 < numBones)%nat /\
  pixel_of (bone_model lengths theta0 2) bone_base
  = pixel_of mat4_id (nth 2 (chain_points (forward lengths theta0)) vec3_zero) /\
  pixel_of (bone_model lengths theta0 2) bone_tip
  = pixel_of mat4_id (nth 3 (chain_points (forward lengths theta0)) vec3_zero).
Proof.
  assert (H2 : (2 < numBones)%nat) by bones_lia.
  split; [exact lengths_nonzero|]. split; [exact H2|].
  exact (bones_drawn_along_chain lengths theta0 2 lengths_nonzero H2).
Defined.

(** The pixel of a point of the plane [z = 0]. *)
Lemma pixel_of_plane p :
  vz p = 0 -> pixel_of mat4_id p = ((vx p / 60 + 1) / 2 * 1024, (1 - vy p / 60) / 2 * 768).
Proof.
  intros Hz. apply pixel_of_world with (z := 0).
  rewrite Hz. glm_unfold. apply vec4_eq_intro; cbn [x4 y4 z4 w4]; ring.
Qed.

Lemma drawn_tip_joint st :
  drawn_tip st = pixel_of mat4_id (joint lengths (theta st) numBones).
Proof.
  unfold drawn_tip. apply (proj2 (bone_drawn lengths (theta st) 4 lengths_nonzero ltac:(bones_lia))).
Qed.

(** C22: once the solver has converged on a clicked target ([|endEffect -
    target| <= threshold], the guard of line 333), the tip of the chain
    drawn in the next frame lies within [threshold * 512/60] pixels
    horizontally and [threshold * 32/5] pixels vertically of the pixel the
    user clicked: under the cursor, to a ten-thousandth of a pixel
    (spec 8, the tip reaches the target). *)
Theorem converged_tip_under_cursor st :
  reachable st -> targetSet st = true -> frame_error st <= threshold ->
  Rabs (fst (drawn_tip st) - targetX st) <= 512 / 60 * threshold /\
  Rabs (snd (drawn_tip st) - targetY st) <= 32 / 5 * threshold.
Proof.
  intros Hr Hs Hc. destruct (reachable_target_cursor st Hr Hs) as [Hx Hy].
  unfold frame_error in Hc. rewrite forward_joint in Hc by exact lengths_nonzero. cbn [snd] in Hc.
  rewrite vlength_planar in Hc by (cbn [vsub vz target_of]; rewrite joint_z; ring).
  destruct (norm2_bounds (vx (vsub (joint lengths (theta st) numBones) (target_of st)))
                         (vy (vsub (joint lengths (theta st) numBones) (target_of st)))) as [Bx By].
  apply (fun H => Rle_trans _ _ _ H Hc) in Bx. apply (fun H => Rle_trans _ _ _ H Hc) in By.
  unfold vsub, target_of in Bx, By. cbn [vx vy] in Bx, By.
  rewrite Hx in Bx. rewrite Hy in By. unfold world_of_cursor_x, world_of_cursor_y in Bx, By.
  rewrite drawn_tip_joint, pixel_of_plane by apply joint_z. cbn [fst snd].
  split.
  - replace ((vx (joint lengths (theta st) numBones) / 60 + 1) / 2 * 1024 - targetX st)
      with (512 / 60 * (vx (joint lengths (theta st) numBones) - (targetX st / 1024 - 0.5) * 120))
      by lra.
    rewrite Rabs_mult, (Rabs_right (512 / 60)) by lra. apply Rmult_le_compat_l; lra.
  - replace ((1 - vy (joint lengths (theta st) numBones) / 60) / 2 * 768 - targetY st)
      with (32 / 5 * ((- targetY st / 768 + 0.5) * 120 - vy (joint lengths (theta st) numBones)))
      by lra.
    rewrite Rabs_mult, (Rabs_right (32 / 5)), Rabs_minus_sym by lra.
    apply Rmult_le_compat_l; lra.
Qed.

(** A click on the pixel of the tip of the rest pose, [(844.8, 384)]: the
    target is [(39, 0)] and the solver has converged at once. *)
Lemma click_on_tip :
  reachable (frame init_state (Pressed 844.8 384)) /\
  targetSet (frame init_state (Pressed 844.8 384)) = true /\
  frame_error (frame init_state (Pressed 844.8 384)) <= threshold.
Proof.
  split; [eapply star_step; [exists (Pressed 844.8 384); reflexivity | apply star_refl]|].
  split; [reflexivity|].
  unfold frame_error.
  rewrite (frame_rest_on_axis init_state (Pressed 844.8 384) eq_refl world_of_cursor_y_centre), tip_rest.
  replace (vsub (Vec3 39 0 0) (target_of (frame init_state (Pressed 844.8 384)))) with vec3_zero
    by (unfold vsub, vec3_zero, target_of; cbn [frame read_input worldTargetX worldTargetY];
        unfold world_of_cursor_x, world_of_cursor_y; apply vec3_eq_intro; cbn [vx vy vz]; lra).
  rewrite vlength_zero. unfold threshold. lra.
Qed.

Lemma converged_tip_under_cursor_witness :
  reachable (frame init_state (Pressed 844.8 384)) /\
  targetSet (frame init_state (Pressed 844.8 384)) = true /\
  frame_error (frame init_state (Pressed 844.8 384)) <= threshold /\
  Rabs (fst (drawn_tip (frame init_state (Pressed 844.8 384)))
        - targetX (frame init_state (Pressed 844.8 384))) <= 512 / 60 * threshold /\
  Rabs (snd (drawn_tip (frame init_state (Pressed 844.8 384)))
        - targetY (frame init_state (Pressed 844.8 384))) <= 32 / 5 * threshold.
Proof.
  destruct click_on_tip as (Hr & Hs & Hc).
  split; [exact Hr|]. split; [exact Hs|]. split; [exact Hc|].
  exact (converged_tip_under_cursor _ Hr Hs Hc).
Defined.

(** ** The draw calls of a frame *)

(** The matrices sent as [MVP] with the draw calls of one frame, in order:
    the target marker when a target is set (lines 196-243), then bones
    [0] to [4] (lines 251-312).  Every call draws the twelve vertices of
    [g_vertex_buffer_data]. *)
Definition frame_draws (st : state) (m : mouse) : list mat4 :=
  let st1 := read_input st m in
  (if targetSet st1 then [MVP (marker_model st1)] else [])
  ++ map (fun i => MVP (bone_model lengths (theta st1) i)) (seq 0 numBones).

(** C24: until the user first clicks, every frame draws no marker and
    exactly the five bones of the rest pose, in order along the chain
    (spec 8, before the target is set). *)
Theorem draws_before_click st :
  reachable st -> targetSet st = false ->
  frame_draws st Released = map (fun i => MVP (bone_frame lengths theta0 i)) (seq 0 numBones).
Proof.
  intros Hr Hu. destruct (reachable_unset st Hr Hu) as (Ht & _ & _).
  unfold frame_draws. cbn [read_input]. rewrite Hu, Ht. cbn [app].
  apply map_ext_in. intros i Hi. apply in_seq in Hi.
  rewrite bone_model_frame by (exact lengths_nonzero || lia). reflexivity.
Qed.

Lemma draws_before_click_witness :
  reachable init_state /\ targetSet init_state = false /\
  frame_draws init_state Released = map (fun i => MVP (bone_frame lengths theta0 i)) (seq 0 numBones).
Proof.
  split; [apply star_refl|]. split; [reflexivity|].
  exact (draws_before_click init_state (star_refl _ _) eq_refl).
Defined.

(** ** The shape of a drawn bone *)

(** C28: every vertex of [g_vertex_buffer_data] drawn for bone [i] lies in
    the rectangle along the bone from [positions[i]], of length
    [lengths[i]] and half-width [0.6]: the scaling by [1 / lengths[i-1]]
    and [1/2] that each iteration undoes (line 257) keeps the previous
    bones' scales from compounding, so every bone is drawn with the same
    width whatever its place in the chain. *)
Theorem bone_vertices_in_rectangle lengths theta i v :
  (forall k, (k < numBones)%nat -> 0 < lengths.[k]) -> (i < numBones)%nat ->
  In v g_vertex_buffer_data ->
  let w := mat4_mul_vec4 (bone_model lengths theta i) (Vec4 (vx v) (vy v) (vz v) 1) in
  let p := joint lengths theta i in
  let a := angle_sum theta i in
  0 <= (x4 w - vx p) * cos a + (y4 w - vy p) * sin a <= lengths.[i] /\
  Rabs (- (x4 w - vx p) * sin a + (y4 w - vy p) * cos a) <= 0.6.
Proof.
  intros Hl Hi Hv. cbv zeta.
  rewrite bone_model_frame, bone_frame_point by (exact (positive_nonzero _ Hl) || exact Hi).
  cbn [x4 y4]. destruct (g_vertex_buffer_data_bounds v Hv) as [Hx Hy].
  pose proof (sin2_cos2 (angle_sum theta i)) as Hsc. unfold Rsqr in Hsc.
  pose proof (Hl i Hi) as HL.
  split.
  - match goal with |- 0 <= ?e <= _ =>
      replace e with (lengths.[i] * vx v * (sin (angle_sum theta i) * sin (angle_sum theta i)
                                            + cos (angle_sum theta i) * cos (angle_sum theta i)))
        by ring end.
    rewrite Hsc, Rmult_1_r. nra.
  - match goal with |- Rabs ?e <= _ =>
      replace e with (2 * vy v * (sin (angle_sum theta i) * sin (angle_sum theta i)
                                  + cos (angle_sum theta i) * cos (angle_sum theta i)))
        by ring end.
    rewrite Hsc, Rmult_1_r. apply Rabs_le. lra.
Qed.

Lemma bone_vertices_in_rectangle_witness :
  (forall k, (k < numBones)%nat -> 0 < lengths.[k]) /\ (1 < numBones)%nat /\
  In (Vec3 0.3 0.3 0) g_vertex_buffer_data /\
  let w := mat4_mul_vec4 (bone_model lengths theta0 1) (Vec4 (vx (Vec3 0.3 0.3 0)) (vy (Vec3 0.3 0.3 0)) (vz (Vec3 0.3 0.3 0)) 1) in
  let p := joint lengths theta0 1 in
  let a := angle_sum theta0 1 in
  0 <= (x4 w - vx p) * cos a + (y4 w - vy p) * sin a <= lengths.[1] /\
  Rabs (- (x4 w - vx p) * sin a + (y4 w - vy p) * cos a) <= 0.6.
Proof.
  assert (H1 : (1 < numBones)%nat) by bones_lia.
  assert (H2 : In (Vec3 0.3 0.3 0) g_vertex_buffer_data)
    by (unfold g_vertex_buffer_data; right; left; reflexivity).
  split; [exact lengths_positive|]. split; [exact H1|]. split; [exact H2|].
  exact (bone_vertices_in_rectangle lengths theta0 1 _ lengths_positive H1 H2).
Defined.
