(* ===== verification/Session.v ===== *)
(** * A session of the program: the [do ... while] loop and its exit
    (src/IKTest.cpp lines 158, 352-371)

    Each iteration runs the loop body ([Frame.frame] with the frame's mouse
    input), then [glfwPollEvents] (line 355) updates the keys, and the
    condition of lines 359-360 continues the loop unless [ESC] is down or
    the window was asked to close.  After the loop, [main] releases the GL
    objects and returns [0] (lines 362-371).  A session is a finite
    sequence of [input]s, one per iteration; [run] is the loop as a
    function of it, and [loop_exec] the same loop as a big-step relation.
    The theorems: the loop stops at the first iteration whose input asks to
    exit, having run exactly that many bodies and read nothing after it;
    it never stops otherwise; and the function and the relation agree. *)

From Stdlib Require Import Bool.
From S2P Require Import Prelude Glm Chain Jacobian Stepper Frame.
Import Spec.

(** What one iteration reads: the mouse during the body, and the [ESC] key
    and the close flag after [glfwPollEvents]. *)
Record input := Input { mouse_in : mouse; esc_pressed : bool; close_requested : bool }.

(** The negation of the condition of lines 359-360:
    [glfwGetKey(window, GLFW_KEY_ESCAPE) != GLFW_PRESS &&
     glfwWindowShouldClose(window) == 0]. *)
Definition exit_requested (i : input) : bool := esc_pressed i || close_requested i.

(** A session either left the loop, after [frames] iterations, or is still
    in it when the inputs run out. *)
Inductive outcome := Exited (st : state) (frames : nat) | Running (st : state).

(** Lines 158-360: the body, then the test. *)
Fixpoint run (ins : list input) (st : state) : outcome :=
  match ins with
  | [] => Running st
  | i :: rest =>
      let st' := frame st (mouse_in i) in
      if exit_requested i then Exited st' 1
      else match run rest st' with
           | Exited s n => Exited s (S n)
           | Running s => Running s
           end
  end.

(** Lines 362-371: once the loop is left, [main] returns [0]. *)
Definition main_exit (ins : list input) : option nat :=
  match run ins init_state with
  | Exited _ _ => Some 0%nat
  | Running _ => None
  end.

(** The loop as a big-step relation: [loop_exec st ins st' n] when the loop
    started in [st] on the inputs [ins] exits in [st'] after [n]
    iterations. *)
Inductive loop_exec : state -> list input -> state -> nat -> Prop :=
| loop_exit st i rest :
    exit_requested i = true -> loop_exec st (i :: rest) (frame st (mouse_in i)) 1
| loop_continue st i rest st' n :
    exit_requested i = false -> loop_exec (frame st (mouse_in i)) rest st' n ->
    loop_exec st (i :: rest) st' (S n).

(** The states of the frames of a sequence of inputs that does not exit. *)
Definition frames (ins : list input) (st : state) : state :=
  fold_left (fun s i => frame s (mouse_in i)) ins st.

Definition no_exit (ins : list input) : bool := forallb (fun i => negb (exit_requested i)) ins.

(** ** The loop exits at the first request *)

Lemma run_app_exit pre i post st :
  no_exit pre = true -> exit_requested i = true ->
  run (pre ++ i :: post) st = Exited (frame (frames pre st) (mouse_in i)) (S (length pre)).
Proof.
  revert st. induction pre as [|j pre IH]; intros st Hpre Hi; cbn [app run].
  - now rewrite Hi.
  - cbn [no_exit forallb] in Hpre. apply andb_true_iff in Hpre as [Hj Hpre].
    apply negb_true_iff in Hj. rewrite Hj, IH by assumption. reflexivity.
Qed.

Lemma run_no_exit ins st : no_exit ins = true -> run ins st = Running (frames ins st).
Proof.
  revert st. induction ins as [|j ins IH]; intros st H; [reflexivity|].
  cbn [no_exit forallb] in H. apply andb_true_iff in H as [Hj H].
  apply negb_true_iff in Hj. cbn [run]. rewrite Hj, IH by exact H. reflexivity.
Qed.

Lemma existsb_no_exit ins : existsb exit_requested ins = false -> no_exit ins = true.
Proof.
  induction ins as [|j ins IH]; [reflexivity|]. cbn [existsb no_exit forallb].
  destruct (exit_requested j); [discriminate|]. exact IH.
Qed.

(** C26: the session loop terminates exactly when, after some iteration's
    [glfwPollEvents], [ESC] is pressed or the window was asked to close:
    then it stops after at most as many iterations as there are inputs
    and [main] returns [0]; if neither happens in any input, [main] has
    not returned when the inputs run out. *)
Theorem session_terminates ins :
  (existsb (fun i => esc_pressed i || close_requested i) ins = true ->
   exists st' n, run ins init_state = Exited st' n /\ (1 <= n <= length ins)%nat /\
                 main_exit ins = Some 0%nat) /\
  (existsb (fun i => esc_pressed i || close_requested i) ins = false -> main_exit ins = None).
Proof.
  change (existsb (fun i => esc_pressed i || close_requested i) ins)
    with (existsb exit_requested ins).
  split.
  - intros H.
    assert (Hr : forall st, existsb exit_requested ins = true ->
                 exists st' n, run ins st = Exited st' n /\ (1 <= n <= length ins)%nat).
    { clear H. induction ins as [|i ins IH]; intros st H; [discriminate|].
      cbn [run existsb length] in *. destruct (exit_requested i).
      - exists (frame st (mouse_in i)), 1%nat. split; [reflexivity | lia].
      - destruct (IH (frame st (mouse_in i)) H) as (st' & n & Hrun & Hn). rewrite Hrun.
        exists st', (S n). split; [reflexivity | lia]. }
    destruct (Hr init_state H) as (st' & n & Hrun & Hn).
    exists st', n. unfold main_exit. rewrite Hrun. auto.
  - intros H. unfold main_exit. now rewrite run_no_exit by (now apply existsb_no_exit).
Qed.

(** C27: the inputs after the first exit request are never read: the
    session exits in the state of the frames before it and of its own
    frame, after exactly one iteration per input up to it. *)
Theorem run_stops_at_first_request pre i post st :
  no_exit pre = true -> exit_requested i = true ->
  run (pre ++ i :: post) st = Exited (frame (frames pre st) (mouse_in i)) (S (length pre)).
Proof. exact (run_app_exit pre i post st). Qed.

Lemma run_stops_at_first_request_witness :
  no_exit [Input (Pressed 700 200) false false; Input Released false false] = true /\
  exit_requested (Input Released true false) = true /\
  run ([Input (Pressed 700 200) false false; Input Released false false]
         ++ Input Released true false :: [Input (Pressed 10 10) false false]) init_state
  = Exited (frame (frames [Input (Pressed 700 200) false false; Input Released false false] init_state)
                  Released) 3.
Proof.
  split; [reflexivity|]. split; [reflexivity|].
  exact (run_stops_at_first_request [Input (Pressed 700 200) false false; Input Released false false]
           (Input Released true false) [Input (Pressed 10 10) false false] init_state eq_refl eq_refl).
Defined.

(** ** The function and the relation *)

Lemma loop_exec_run st ins st' n : loop_exec st ins st' n -> run ins st = Exited st' n.
Proof.
  induction 1 as [st i rest Hi | st i rest st' n Hi _ IH]; cbn [run]; rewrite Hi; [reflexivity|].
  now rewrite IH.
Qed.

Lemma run_loop_exec ins st st' n : run ins st = Exited st' n -> loop_exec st ins st' n.
Proof.
  revert st n. induction ins as [|i ins IH]; intros st n H; cbn [run] in H; [discriminate|].
  destruct (exit_requested i) eqn:Hi.
  - injection H as <- <-. now apply loop_exit.
  - destruct (run ins (frame st (mouse_in i))) as [s m|s] eqn:Hr; [|discriminate].
    injection H as <- <-. apply loop_continue; [exact Hi|]. now apply IH.
Qed.

(** [run] is the big-step semantics of the loop: it returns
    [Exited st' n] exactly when the loop started in [st] exits in [st']
    after [n] iterations; in particular the exit state and the number of
    iterations are determined by the inputs. *)
Theorem run_iff_loop_exec ins st st' n : run ins st = Exited st' n <-> loop_exec st ins st' n.
Proof. split; [apply run_loop_exec | apply loop_exec_run]. Qed.

(** The loop never stops before an exit request and never runs past
    one: any execution that exits after [n] iterations read an exit
    request at input [n] and none before it. *)
Theorem loop_exec_first_request st ins st' n :
  loop_exec st ins st' n ->
  no_exit (firstn (n - 1) ins) = true /\
  exists i, nth_error ins (n - 1) = Some i /\ exit_requested i = true.
Proof.
  induction 1 as [st i rest Hi | st i rest st' n Hi Hl IH].
  - split; [reflexivity|]. now exists i.
  - destruct n as [|n]; [inversion Hl|].
    destruct IH as [Hpre [j [Hj Hex]]]. cbn [Nat.sub] in *. rewrite Nat.sub_0_r in Hpre, Hj.
    cbn [firstn nth_error]. unfold no_exit in *. cbn [forallb].
    rewrite Hi. split; [exact Hpre|]. now exists j.
Qed.

(** ** Console output *)

(** The lines a frame prints, with their values (the [%f] formatting is
    not modelled): [Wx Wy] after a click (line 181), then [P4] and [EE]
    (lines 330-331). *)
Inductive trace_line := TraceTarget (wx wy : R) | TraceP4 (x y : R) | TraceEE (x y : R).

Definition frame_trace (st : state) (m : mouse) : list trace_line :=
  let st1 := read_input st m in
  let fk := forward lengths (theta st1) in
  match m with
  | Pressed _ _ => [TraceTarget (worldTargetX st1) (worldTargetY st1)]
  | Released => []
  end
  ++ [TraceP4 (vx (nth 4 (fst fk) vec3_zero)) (vy (nth 4 (fst fk) vec3_zero));
      TraceEE (vx (snd fk)) (vy (snd fk))].

(** Everything a session prints, frame after frame, up to the exit. *)
Fixpoint run_trace (ins : list input) (st : state) : list trace_line :=
  match ins with
  | [] => []
  | i :: rest =>
      frame_trace st (mouse_in i) ++
      (if exit_requested i then [] else run_trace rest (frame st (mouse_in i)))
  end.

(** C29: every frame ends its console output with one [P4] line and one
    [EE] line (a click adds a [Wx Wy] line before them), and the two
    printed points are the ends of the last bone: they are always exactly
    [lengths[4] = 4] apart. *)
Theorem frame_trace_last_bone st m :
  exists x y ex ey,
    skipn (length (frame_trace st m) - 2) (frame_trace st m) = [TraceP4 x y; TraceEE ex ey] /\
    norm2 (ex - x) (ey - y) = 4.
Proof.
  unfold frame_trace. rewrite forward_joint by exact lengths_nonzero. cbn [fst snd].
  rewrite nth_map_seq by bones_lia.
  set (th := theta (read_input st m)).
  exists (vx (joint lengths th 4)), (vy (joint lengths th 4)),
         (vx (joint lengths th numBones)), (vy (joint lengths th numBones)).
  split.
  - destruct m; cbn [app length Nat.sub skipn]; reflexivity.
  - change numBones with (S 4).
    change (vx (joint lengths th 5) - vx (joint lengths th 4))
      with (vx (vsub (joint lengths th 5) (joint lengths th 4))).
    change (vy (joint lengths th 5) - vy (joint lengths th 4))
      with (vy (vsub (joint lengths th 5) (joint lengths th 4))).
    rewrite joint_segment. cbn [vx vy].
    rewrite norm2_scaled_unit. cbn [nth lengths]. apply Rabs_right. lra.
Qed.

(** A session prints exactly one [EE] line per iteration of the loop
    it runs: when it exits after [n] iterations, its output has [n] [EE]
    lines. *)
Theorem run_trace_frames ins st st' n :
  run ins st = Exited st' n ->
  length (filter (fun l => match l with TraceEE _ _ => true | _ => false end) (run_trace ins st)) = n.
Proof.
  revert st n. induction ins as [|i ins IH]; intros st n H; cbn [run] in H; [discriminate|].
  cbn [run_trace]. rewrite filter_app, length_app.
  assert (Hf : length (filter (fun l => match l with TraceEE _ _ => true | _ => false end)
                              (frame_trace st (mouse_in i))) = 1%nat)
    by (unfold frame_trace; destruct (mouse_in i); reflexivity).
  rewrite Hf. destruct (exit_requested i).
  - injection H as _ <-. reflexivity.
  - destruct (run ins (frame st (mouse_in i))) as [s m|s] eqn:Hr; [|discriminate].
    injection H as -> <-. rewrite (IH _ m Hr). reflexivity.
Qed.

