(* ===== verification/Float32.v ===== *)
(** * The solver in single precision (lines 317, 332-351)

    [theta], [dtheta], [step], the positions and the target are [float]s,
    so every operation of the solver block rounds: GLM's [-], [cross],
    [dot] and [length], the products and the sum of [theta[i] +=
    dtheta[i] * step].  [round32] is IEEE 754 round-to-nearest-even on the
    binary32 grid (24-bit significands, subnormals below [2^-126]) with an
    unbounded exponent, which is binary32 rounding wherever the result is
    below [2^128] in magnitude (overflow to infinity is not modelled).
    Each operation is rounded on its own, as with SSE arithmetic and no
    FMA contraction.  [step32] and [threshold32] are the literals
    [0.00001f], [apply_step_f32] the loop of lines 348-350 and
    [solve_step_f32] the whole block for given float positions and tip.
    The theorems give the rounding error bound (relative [2^-24] in the
    normal range, absolute [2^-150] below it), the exact value of
    [step32], that increments below a quarter of the spacing of
    [theta[i]]'s binade are lost, and a state where the float block
    stalls above the threshold. *)

From Stdlib Require Import ZArith Floats.SpecFloat.
From S2P Require Import Prelude Glm Chain Jacobian Stepper Descent.

(** ** The binary32 grid *)

(** Round to the nearest integer, ties to even. *)
Definition round_ne (y : R) : Z :=
  let n := Int_part y in
  let f := y - IZR n in
  if Rlt_dec f (/ 2) then n
  else if Rlt_dec (/ 2) f then (n + 1)%Z
  else if Z.even n then n else (n + 1)%Z.

(** The binade of [x]: [floor (log2 |x|)]. *)
Definition mag2 (x : R) : Z := Int_part (ln (Rabs x) / ln 2).

(** The spacing of the binary32 numbers around [x]: [2^(e-23)] in the
    binade [e], and [2^-149] for the subnormals. *)
Definition quantum32 (x : R) : R := powerRZ 2 (Z.max (mag2 x) (-126) - 23).

(** Round to nearest, ties to even, on the binary32 grid. *)
Definition round32 (x : R) : R := quantum32 x * IZR (round_ne (x / quantum32 x)).

(** ** Lines 317 and 348-350 in single precision *)

(** [float step = 0.00001f] (line 317): the literal rounded to binary32. *)
Definition step32 : R := round32 (1 / 100000).

(** [theta[i] += dtheta[i] * step] (lines 348-350) with [float] operands:
    the product and the sum are each rounded, in index order, in place. *)
Definition apply_step_f32 (theta dtheta : list R) : list R :=
  fold_left (fun th i => set_nth th i (round32 (th.[i] + round32 (dtheta.[i] * step32))))
            (seq 0 numBones) theta.

(** ** Lines 332-351 in single precision *)

(** GLM's [vec3] operations on [float]s, each operation rounded:
    [operator-], [glm::dot] (the products, then [(x + y) + z]),
    [glm::cross] and [glm::length] ([sqrt] is correctly rounded). *)
Definition vsub32 (u v : vec3) : vec3 :=
  Vec3 (round32 (vx u - vx v)) (round32 (vy u - vy v)) (round32 (vz u - vz v)).

Definition dot32 (u v : vec3) : R :=
  round32 (round32 (round32 (vx u * vx v) + round32 (vy u * vy v)) + round32 (vz u * vz v)).

Definition cross32 (u v : vec3) : vec3 :=
  Vec3 (round32 (round32 (vy u * vz v) - round32 (vy v * vz u)))
       (round32 (round32 (vz u * vx v) - round32 (vz v * vx u)))
       (round32 (round32 (vx u * vy v) - round32 (vx v * vy u))).

Definition vlength32 (u : vec3) : R := round32 (sqrt (dot32 u u)).

(** The literal [0.00001f] of the guard (line 333). *)
Definition threshold32 : R := round32 (1 / 100000).

(** Lines 337-339. *)
Definition jacobian32 (endEffect : vec3) (positions : list vec3) : list vec3 :=
  map (fun i => cross32 rotAxis (vsub32 endEffect (nth i positions vec3_zero))) (seq 0 numBones).

(** Lines 343-345. *)
Definition dtheta_of32 (jac : list vec3) (V : vec3) : list R :=
  map (fun i => dot32 (nth i jac vec3_zero) V) (seq 0 numBones).

(** Lines 332-351 on [float]s. *)
Definition solve_step_f32 (positions : list vec3) (endEffect target : vec3) (theta : list R) : list R :=
  if Rlt_dec threshold32 (vlength32 (vsub32 endEffect target)) then
    apply_step_f32 theta (dtheta_of32 (jacobian32 endEffect positions) (vsub32 target endEffect))
  else theta.

(** ** Rounding to an integer *)

Lemma Int_part_unique n y : IZR n <= y < IZR n + 1 -> Int_part y = n.
Proof.
  intros [H1 H2]. destruct (base_Int_part y) as [B1 B2].
  assert (IZR (Int_part y) < IZR n + 1) by lra.
  assert (IZR n < IZR (Int_part y) + 1) by lra.
  rewrite <- plus_IZR in *. apply lt_IZR in H. apply lt_IZR in H0. lia.
Qed.

Lemma round_ne_near n y : Rabs (y - IZR n) < / 2 -> round_ne y = n.
Proof.
  intros H. apply Rabs_def2 in H as [H1 H2]. unfold round_ne.
  destruct (Rle_lt_dec (IZR n) y) as [Hy|Hy].
  - rewrite (Int_part_unique n y) by lra.
    destruct (Rlt_dec (y - IZR n) (/ 2)); [reflexivity | lra].
  - rewrite (Int_part_unique (n - 1) y) by (rewrite minus_IZR; lra).
    rewrite minus_IZR.
    destruct (Rlt_dec (y - (IZR n - 1)) (/ 2)); [lra|].
    destruct (Rlt_dec (/ 2) (y - (IZR n - 1))); [lia | lra].
Qed.

Lemma round_ne_error y : Rabs (IZR (round_ne y) - y) <= / 2.
Proof.
  unfold round_ne. destruct (base_Int_part y) as [B1 B2].
  set (n := Int_part y) in *.
  destruct (Rlt_dec (y - IZR n) (/ 2)); [apply Rabs_le; lra|].
  destruct (Rlt_dec (/ 2) (y - IZR n)); [rewrite plus_IZR; apply Rabs_le; lra|].
  destruct (Z.even n); [|rewrite plus_IZR]; apply Rabs_le; lra.
Qed.

(** ** Powers of two *)

Lemma ln2_pos : 0 < ln 2.
Proof. pose proof ln_lt_2. lra. Qed.

Lemma powerRZ2_pos e : 0 < powerRZ 2 e.
Proof. apply powerRZ_lt. lra. Qed.

Lemma powerRZ2_exp e : powerRZ 2 e = exp (IZR e * ln 2).
Proof. rewrite powerRZ_Rpower by lra. reflexivity. Qed.

Lemma ln_powerRZ2 e : ln (powerRZ 2 e) = IZR e * ln 2.
Proof. rewrite powerRZ2_exp. apply ln_exp. Qed.

Lemma powerRZ2_shift e d : powerRZ 2 (e + d) = powerRZ 2 e * powerRZ 2 d.
Proof. apply powerRZ_add. lra. Qed.

Lemma powerRZ2_neg (p : positive) : powerRZ 2 (Zneg p) = / IZR (Z.pow_pos 2 p).
Proof. simpl. f_equal. rewrite pow_IZR. f_equal. rewrite positive_nat_Z. reflexivity. Qed.

Lemma powerRZ2_posp (p : positive) : powerRZ 2 (Zpos p) = IZR (Z.pow_pos 2 p).
Proof. simpl. rewrite pow_IZR. f_equal. rewrite positive_nat_Z. reflexivity. Qed.

Lemma ln_le_mono a b : 0 < a -> a <= b -> ln a <= ln b.
Proof.
  intros Ha Hab. destruct (Rle_lt_or_eq_dec a b Hab) as [H|<-]; [|lra].
  left. now apply ln_increasing.
Qed.

Lemma exp_le_mono a b : a <= b -> exp a <= exp b.
Proof. intros H. destruct (Rle_lt_or_eq_dec a b H) as [H'|<-]; [left; now apply exp_increasing | lra]. Qed.

Lemma powerRZ2_le e1 e2 : (e1 <= e2)%Z -> powerRZ 2 e1 <= powerRZ 2 e2.
Proof.
  intros He. rewrite !powerRZ2_exp. apply exp_le_mono.
  apply Rmult_le_compat_r; [pose proof ln2_pos; lra | now apply IZR_le].
Qed.

#[export] Hint Resolve powerRZ2_pos : ik.

(** Evaluates powers of two to [c] or [/ c] with a numeral [c]. *)
Ltac pow2_num :=
  rewrite ?powerRZ_O, ?powerRZ2_neg, ?powerRZ2_posp;
  repeat match goal with
  | |- context [Z.pow_pos 2 ?p] =>
      let v := eval vm_compute in (Z.pow_pos 2 p) in change (Z.pow_pos 2 p) with v
  end.

(** ** Binades *)

Lemma mag2_spec e x : powerRZ 2 e <= Rabs x < powerRZ 2 (e + 1) -> mag2 x = e.
Proof.
  intros [H1 H2]. pose proof (powerRZ2_pos e) as Hp. pose proof ln2_pos as Hl.
  assert (Hx : 0 < Rabs x) by lra.
  apply ln_le_mono in H1; [|exact Hp]. apply ln_increasing in H2; [|exact Hx].
  rewrite ln_powerRZ2 in H1, H2. rewrite plus_IZR in H2.
  unfold mag2. apply Int_part_unique.
  set (L := ln (Rabs x)) in *. assert (HL : L / ln 2 * ln 2 = L) by (field; lra).
  split.
  - apply (Rmult_le_reg_r (ln 2)); [exact Hl|]. rewrite HL. exact H1.
  - apply (Rmult_lt_reg_r (ln 2)); [exact Hl|]. rewrite Rmult_plus_distr_r, HL. lra.
Qed.

Lemma mag2_bounds x : x <> 0 -> powerRZ 2 (mag2 x) <= Rabs x < powerRZ 2 (mag2 x + 1).
Proof.
  intros Hx. pose proof (Rabs_pos_lt x Hx) as Ha. pose proof ln2_pos as Hl.
  destruct (base_Int_part (ln (Rabs x) / ln 2)) as [B1 B2]. fold (mag2 x) in B1, B2.
  set (L := ln (Rabs x)) in *. assert (HL : L / ln 2 * ln 2 = L) by (field; lra).
  rewrite !powerRZ2_exp, plus_IZR. rewrite <- (exp_ln (Rabs x)) by exact Ha. fold L.
  split; [apply exp_le_mono | apply exp_increasing].
  - rewrite <- HL. apply Rmult_le_compat_r; lra.
  - rewrite <- HL. apply Rmult_lt_compat_r; lra.
Qed.

Lemma quantum32_normal e x :
  (-126 <= e)%Z -> powerRZ 2 e <= Rabs x < powerRZ 2 (e + 1) ->
  quantum32 x = powerRZ 2 (e - 23).
Proof.
  intros He Hx. unfold quantum32. rewrite (mag2_spec e x Hx).
  now rewrite Z.max_l by exact He.
Qed.

(** Normal numbers are spaced [2^-23] of their magnitude apart at most,
    subnormals [2^-149]. *)
Lemma quantum32_bound x :
  x <> 0 -> quantum32 x <= Rmax (Rabs x * powerRZ 2 (-23)) (powerRZ 2 (-149)).
Proof.
  intros Hx. unfold quantum32. destruct (mag2_bounds x Hx) as [B _].
  destruct (Z.max_spec (mag2 x) (-126)) as [[_ ->] | [_ ->]].
  - apply Rmax_r.
  - eapply Rle_trans; [|apply Rmax_l]. replace (mag2 x - 23)%Z with (mag2 x + -23)%Z by lia.
    rewrite powerRZ2_shift.
    apply Rmult_le_compat_r; [apply Rlt_le, powerRZ2_pos | exact B].
Qed.

(** ** Rounding error *)

(** The error bound of round-to-nearest: half a spacing. *)
Lemma round32_error x : Rabs (round32 x - x) <= quantum32 x / 2.
Proof.
  unfold round32. set (q := quantum32 x). assert (Hq : 0 < q) by apply powerRZ2_pos.
  replace (q * IZR (round_ne (x / q)) - x) with (q * (IZR (round_ne (x / q)) - x / q)) by (field; lra).
  rewrite Rabs_mult, (Rabs_right q) by lra. pose proof (round_ne_error (x / q)). nra.
Qed.

(** The error model of binary32 round-to-nearest: relative [2^-24] for
    normal results, absolute [2^-150] for subnormal ones. *)
Definition err32 (x : R) : R := Rmax (Rabs x * powerRZ 2 (-24)) (powerRZ 2 (-150)).

Lemma err32_pos x : 0 < err32 x.
Proof. unfold err32. eapply Rlt_le_trans; [apply powerRZ2_pos | apply Rmax_r]. Qed.

Lemma err32_le_plus x : err32 x <= Rabs x * powerRZ 2 (-24) + powerRZ 2 (-150).
Proof.
  unfold err32. pose proof (powerRZ2_pos (-24)). pose proof (powerRZ2_pos (-150)).
  pose proof (Rabs_pos x). apply Rmax_lub; nra.
Qed.

Lemma round32_rel x : Rabs (round32 x - x) <= err32 x.
Proof.
  destruct (Req_dec x 0) as [->|Hx].
  - unfold round32. rewrite (round_ne_near 0) by (rewrite Rdiv_0_l, Rminus_0_r, Rabs_R0; lra).
    rewrite Rmult_0_r, Rminus_0_r, Rabs_R0. apply Rlt_le, err32_pos.
  - eapply Rle_trans; [apply round32_error|]. pose proof (quantum32_bound x Hx) as Hq.
    assert (H23 : powerRZ 2 (-23) = 2 * powerRZ 2 (-24))
      by (replace (-23)%Z with (-24 + 1)%Z by lia; rewrite powerRZ2_shift; simpl; ring).
    assert (H149 : powerRZ 2 (-149) = 2 * powerRZ 2 (-150))
      by (replace (-149)%Z with (-150 + 1)%Z by lia; rewrite powerRZ2_shift; simpl; ring).
    rewrite H23, H149 in Hq. unfold err32. revert Hq. unfold Rmax.
    destruct (Rle_dec (Rabs x * (2 * powerRZ 2 (-24))) (2 * powerRZ 2 (-150)));
    destruct (Rle_dec (Rabs x * powerRZ 2 (-24)) (powerRZ 2 (-150))); intros; lra.
Qed.

(** ** Absorption *)

(** A binary32 number [k * 2^(e-23)] strictly inside its binade [e]
    absorbs any addend below a quarter of its spacing. *)
Lemma round32_absorb k e y :
  (-126 <= e)%Z ->
  powerRZ 2 e < Rabs (IZR k * powerRZ 2 (e - 23)) < powerRZ 2 (e + 1) ->
  Rabs y < powerRZ 2 (e - 25) ->
  round32 (IZR k * powerRZ 2 (e - 23) + y) = IZR k * powerRZ 2 (e - 23).
Proof.
  intros He [Hk1 Hk2] Hy.
  set (q := powerRZ 2 (e - 23)) in *. assert (Hq : 0 < q) by apply powerRZ2_pos.
  assert (E1 : powerRZ 2 e = 8388608 * q)
    by (unfold q; replace e with (e - 23 + 23)%Z at 1 by lia; rewrite powerRZ2_shift; simpl; ring).
  assert (E2 : powerRZ 2 (e + 1) = 16777216 * q)
    by (unfold q; replace (e + 1)%Z with (e - 23 + 24)%Z by lia; rewrite powerRZ2_shift; simpl; ring).
  assert (E3 : powerRZ 2 (e - 25) = q / 4)
    by (unfold q; replace (e - 25)%Z with (e - 23 + -2)%Z by lia; rewrite powerRZ2_shift; pow2_num; field).
  rewrite E1, E2 in *. rewrite E3 in Hy.
  rewrite Rabs_mult, (Rabs_right q), Rabs_Zabs in Hk1, Hk2 by lra.
  assert (K1 : (8388608 < Z.abs k)%Z) by (apply lt_IZR; nra).
  assert (K2 : (Z.abs k < 16777216)%Z) by (apply lt_IZR; nra).
  assert (K1' : 8388609 <= IZR (Z.abs k)) by (apply IZR_le; lia).
  assert (K2' : IZR (Z.abs k) <= 16777215) by (apply IZR_le; lia).
  rewrite <- Rabs_Zabs in K1', K2'.
  assert (Hb : 8388608 * q <= Rabs (IZR k * q + y) < 16777216 * q).
  { pose proof (Rabs_triang_inv (IZR k * q) (- y)) as T1.
    pose proof (Rabs_triang (IZR k * q) y) as T2.
    rewrite Rabs_Ropp in T1. replace (IZR k * q - - y) with (IZR k * q + y) in T1 by ring.
    rewrite Rabs_mult, (Rabs_right q) in T1, T2 by lra. split; nra. }
  unfold round32. rewrite (quantum32_normal e) by (exact He || (rewrite E1, E2; exact Hb)).
  fold q. rewrite (round_ne_near k); [ring|].
  replace ((IZR k * q + y) / q - IZR k) with (y / q) by (field; lra).
  unfold Rdiv. rewrite Rabs_mult, Rabs_inv, (Rabs_right q) by lra.
  apply (Rmult_lt_reg_r q); [exact Hq|]. rewrite Rmult_assoc, Rinv_l by lra. lra.
Qed.

(** Zero and the binary32 numbers are their own rounding. *)
Lemma round32_0 : round32 0 = 0.
Proof. unfold round32. rewrite (round_ne_near 0) by (rewrite Rdiv_0_l, Rminus_0_r, Rabs_R0; lra). ring. Qed.

Lemma round32_repr x k e :
  x = IZR k * powerRZ 2 (e - 23) -> (-126 <= e)%Z -> powerRZ 2 e <= Rabs x < powerRZ 2 (e + 1) ->
  round32 x = x.
Proof.
  intros -> He Hb. unfold round32. rewrite (quantum32_normal e) by assumption.
  rewrite (round_ne_near k); [ring|].
  replace (IZR k * powerRZ 2 (e - 23) / powerRZ 2 (e - 23) - IZR k) with 0
    by (field; apply Rgt_not_eq, powerRZ2_pos).
  rewrite Rabs_R0. lra.
Qed.

(** ** The constant [0.00001f] *)

(** [0.00001f] is [10995116 * 2^-40], about [1.0000000180e-5]. *)
Lemma step32_value : step32 = IZR 10995116 * powerRZ 2 (-40).
Proof.
  unfold step32, round32. rewrite (quantum32_normal (-17)).
  2: lia.
  2: rewrite Rabs_right by lra; simpl Z.add; pow2_num; split; lra.
  simpl Z.sub. rewrite (round_ne_near 10995116); [ring|]. pow2_num.
  replace (1 / 100000 / / IZR 1099511627776 - IZR 10995116) with (27776 / 100000) by field.
  rewrite Rabs_right; lra.
Qed.

Lemma step32_bounds : 0 < step32 /\ 99999 * step32 <= 1.
Proof. rewrite step32_value. pow2_num. split; lra. Qed.

(** [step32] is within [2^-41] of the real [step]. *)
Lemma step32_close : Rabs (step32 - step) <= powerRZ 2 (-41).
Proof.
  rewrite step32_value. unfold step. pow2_num.
  rewrite Rabs_left1 by lra. lra.
Qed.

(** ** The float update *)

Lemma apply_step_f32_map theta dtheta :
  length theta = numBones ->
  apply_step_f32 theta dtheta
  = map (fun i => round32 (theta.[i] + round32 (dtheta.[i] * step32))) (seq 0 numBones).
Proof. exact (fold_set_nth_all (fun i x => round32 (x + round32 (dtheta.[i] * step32))) theta numBones). Qed.

(** One update [theta[i] += dtheta[i] * step] is lost when [theta[i]] is
    strictly inside the binade [e] and [|dtheta[i]| <= 99999 * 2^(e-26)]:
    the rounded product is below a quarter of the spacing [2^(e-23)]. *)
Lemma round32_update_absorbed k e d :
  (-100 <= e)%Z ->
  powerRZ 2 e < Rabs (IZR k * powerRZ 2 (e - 23)) < powerRZ 2 (e + 1) ->
  Rabs d <= powerRZ 2 (e - 26) * 99999 ->
  round32 (IZR k * powerRZ 2 (e - 23) + round32 (d * step32)) = IZR k * powerRZ 2 (e - 23).
Proof.
  intros He Hk Hd. apply round32_absorb; [lia | exact Hk |].
  set (P := powerRZ 2 (e - 26)) in *. assert (HP : 0 < P) by apply powerRZ2_pos.
  assert (E25 : powerRZ 2 (e - 25) = 2 * P)
    by (unfold P; replace (e - 25)%Z with (e - 26 + 1)%Z by lia; rewrite powerRZ2_shift; simpl; ring).
  assert (E150 : powerRZ 2 (-150) <= P * powerRZ 2 (-24))
    by (unfold P; rewrite <- powerRZ2_shift; apply powerRZ2_le; lia).
  assert (P24 : powerRZ 2 (-24) = / 16777216) by (pow2_num; reflexivity).
  destruct step32_bounds as [S1 S2].
  assert (Hz : Rabs (d * step32) <= P).
  { rewrite Rabs_mult, (Rabs_right step32) by lra.
    pose proof (Rmult_le_compat_r step32 _ _ (Rlt_le _ _ S1) Hd).
    pose proof (Rmult_le_compat_l P _ _ (Rlt_le _ _ HP) S2). nra. }
  pose proof (round32_rel (d * step32)) as R. pose proof (err32_le_plus (d * step32)) as R'.
  pose proof (Rabs_triang (round32 (d * step32) - d * step32) (d * step32)) as T.
  replace (round32 (d * step32) - d * step32 + d * step32) with (round32 (d * step32)) in T by ring.
  rewrite E25. rewrite P24 in *. pose proof (Rabs_pos (d * step32)). nra.
Qed.

(** ** What the float loop does *)

(** In single precision the loop of lines 348-350 loses its
    increments: when every [theta[i]] is a binary32 number strictly inside
    a normal binade [e] ([-100 <= e <= 127]) and [|dtheta[i]| <= 99999 *
    2^(e-26)], [theta[i] += dtheta[i] * step] leaves every [theta[i]]
    unchanged.  For angles in [(1, 2)] this holds for every [|dtheta[i]|]
    up to [0.00149]. *)
Lemma apply_step_f32_absorbed theta dtheta :
  length theta = numBones ->
  (forall i, (i < numBones)%nat ->
     exists k e, (-100 <= e <= 127)%Z /\ theta.[i] = IZR k * powerRZ 2 (e - 23) /\
       powerRZ 2 e < Rabs theta.[i] < powerRZ 2 (e + 1) /\
       Rabs dtheta.[i] <= powerRZ 2 (e - 26) * 99999) ->
  apply_step_f32 theta dtheta = theta.
Proof.
  intros Hl H. unfold apply_step_f32.
  rewrite (fold_set_nth_all (fun i x => round32 (x + round32 (dtheta.[i] * step32)))) by exact Hl.
  transitivity (map (fun i => theta.[i]) (seq 0 numBones)); [|rewrite <- Hl; apply map_nth_seq_self].
  apply map_ext_in. intros i Hi. apply in_seq in Hi.
  destruct (H i ltac:(lia)) as (k & e & He & Ht & Hb & Hd). rewrite Ht in Hb |- *.
  apply round32_update_absorbed; [lia | exact Hb | exact Hd].
Qed.

(** The float update stays within three rounding errors of the real
    update [apply_step]: the rounding of the sum, of the product, and the
    [2^-41] by which [0.00001f] differs from [0.00001]. *)
Lemma apply_step_f32_error theta dtheta i :
  length theta = numBones -> (i < numBones)%nat ->
  Rabs ((apply_step_f32 theta dtheta).[i] - (apply_step theta dtheta).[i])
  <= err32 (theta.[i] + round32 (dtheta.[i] * step32)) + err32 (dtheta.[i] * step32)
     + Rabs dtheta.[i] * powerRZ 2 (-41).
Proof.
  intros Hl Hi. rewrite apply_step_f32_map, apply_step_map, !nth_map_seq by assumption.
  set (z := dtheta.[i] * step32). set (s := theta.[i] + round32 z).
  replace (round32 s - (theta.[i] + dtheta.[i] * step))
    with ((round32 s - s) + (round32 z - z) + dtheta.[i] * (step32 - step)) by (unfold s, z; ring).
  pose proof (round32_rel s). pose proof (round32_rel z).
  pose proof (Rabs_triang (round32 s - s + (round32 z - z)) (dtheta.[i] * (step32 - step))).
  pose proof (Rabs_triang (round32 s - s) (round32 z - z)).
  rewrite Rabs_mult in *. pose proof step32_close. pose proof (Rabs_pos dtheta.[i]).
  pose proof (Rmult_le_compat_l _ _ _ (Rabs_pos dtheta.[i]) step32_close). lra.
Qed.

(** ** The float [dtheta] near the target *)

(** One rounding grows a magnitude by at most [2^-24] of it plus [2^-150]. *)
Definition rbound (t : R) : R := t * (1 + / 16777216) + powerRZ 2 (-150).

Lemma round32_abs_le x : Rabs (round32 x) <= rbound (Rabs x).
Proof.
  pose proof (round32_rel x) as H. pose proof (err32_le_plus x) as H'.
  pose proof (Rabs_triang (round32 x - x) x) as T.
  replace (round32 x - x + x) with (round32 x) in T by ring.
  unfold rbound. replace (powerRZ 2 (-24)) with (/ 16777216) in H' by (pow2_num; reflexivity). lra.
Qed.

Lemma rbound_mono a b : a <= b -> rbound a <= rbound b.
Proof. unfold rbound. intros H. apply Rplus_le_compat_r. apply Rmult_le_compat_r; lra. Qed.

Lemma round32_le x b : Rabs x <= b -> Rabs (round32 x) <= rbound b.
Proof. intros H. eapply Rle_trans; [apply round32_abs_le | now apply rbound_mono]. Qed.

Lemma eta_small : powerRZ 2 (-150) <= / 2 ^ 140.
Proof.
  pow2_num. apply Rinv_le_contravar; [apply pow_lt; lra|].
  rewrite pow_IZR. apply IZR_le. vm_compute. discriminate.
Qed.

(** With raw lever-arm components of at most [L] and raw error components
    of at most [w], the float [dtheta[i] = dot(cross(rotAxis, endEffect -
    positions[i]), target - endEffect)] is at most [2 L w] up to a
    relative [10^-6] and an absolute [2^-130]: the forward error of a
    two-term dot product, as in LAProof's [dotprod_forward_error]. *)
Lemma dtheta32_bound ee p t L w :
  Rabs (vx ee - vx p) <= L -> Rabs (vy ee - vy p) <= L ->
  Rabs (vx t - vx ee) <= w -> Rabs (vy t - vy ee) <= w -> 0 <= L <= 64 -> 0 <= w <= 64 ->
  Rabs (dot32 (cross32 rotAxis (vsub32 ee p)) (vsub32 t ee)) <= 2 * L * w * (1 + / 1000000) + powerRZ 2 (-130).
Proof.
  intros Hx Hy Vx Vy HL Hw. unfold dot32, cross32, rotAxis, vsub32. cbn [vx vy vz].
  repeat rewrite ?Rmult_0_l, ?Rmult_0_r, ?Rmult_1_l, ?Rmult_1_r, ?Rminus_0_l, ?Rminus_0_r, ?Rplus_0_r, ?Ropp_0,
    ?round32_0.
  set (dx := round32 (vx ee - vx p)). set (dy := round32 (vy ee - vy p)).
  set (Wx := round32 (vx t - vx ee)). set (Wy := round32 (vy t - vy ee)).
  assert (Hdx : Rabs dx <= rbound L) by now apply round32_le.
  assert (Hdy : Rabs dy <= rbound L) by now apply round32_le.
  assert (HWx : Rabs Wx <= rbound w) by now apply round32_le.
  assert (HWy : Rabs Wy <= rbound w) by now apply round32_le.
  set (L3 := rbound (rbound (rbound L))). set (W1 := rbound w).
  assert (Jx : Rabs (round32 (- round32 dy)) <= L3).
  { apply round32_le. rewrite Rabs_Ropp. now apply round32_le. }
  assert (Jy : Rabs (round32 (round32 dx)) <= L3) by (apply round32_le, round32_le; exact Hdx).
  assert (P : forall a b, Rabs a <= L3 -> Rabs b <= W1 -> Rabs (round32 (a * b)) <= rbound (L3 * W1)).
  { intros a b Ha Hb. apply round32_le. rewrite Rabs_mult.
    apply Rmult_le_compat; [apply Rabs_pos | apply Rabs_pos | exact Ha | exact Hb]. }
  pose proof (P _ _ Jx HWx) as P1. pose proof (P _ _ Jy HWy) as P2.
  assert (S : Rabs (round32 (round32 (round32 (- round32 dy) * Wx) + round32 (round32 (round32 dx) * Wy)))
              <= rbound (2 * rbound (L3 * W1))).
  { apply round32_le. eapply Rle_trans; [apply Rabs_triang | lra]. }
  eapply Rle_trans; [apply round32_le; exact S|].
  pose proof eta_small as He. set (eta := powerRZ 2 (-150)) in *.
  assert (Heta : 0 < eta) by apply powerRZ2_pos.
  assert (H130 : powerRZ 2 (-130) = eta * 2 ^ 20).
  { unfold eta. replace (-130)%Z with (-150 + 20)%Z by lia. rewrite powerRZ2_shift. reflexivity. }
  rewrite H130. unfold L3, W1, rbound. fold eta.
  assert (0 <= L * w <= 4096) by nra. nra.
Qed.

(** C30: in single precision the solver block of lines 332-351 does
    nothing near the target: when every [theta[i]] is a binary32 number
    strictly inside a normal binade [e_i], the raw lever arms
    [endEffect - positions[i]] have components of at most [L], the raw
    error [target - endEffect] components of at most [w], and
    [2 L w (1 + 10^-6) + 2^-130 <= 99999 * 2^(e_i - 26)], then
    [solve_step_f32] returns [theta] unchanged, whether or not the guard
    fires.  With the reach [L = 39] and angles in [(1, 2)] this holds for
    every [w <= 1.9e-5], above the threshold [0.00001]. *)
Theorem solve_step_f32_stalls ps ee t theta L w :
  length theta = numBones ->
  (forall i, (i < numBones)%nat ->
     Rabs (vx ee - vx (nth i ps vec3_zero)) <= L /\ Rabs (vy ee - vy (nth i ps vec3_zero)) <= L) ->
  Rabs (vx t - vx ee) <= w -> Rabs (vy t - vy ee) <= w -> 0 <= L <= 64 -> 0 <= w <= 64 ->
  (forall i, (i < numBones)%nat ->
     exists k e, (-100 <= e <= 127)%Z /\ theta.[i] = IZR k * powerRZ 2 (e - 23) /\
       powerRZ 2 e < Rabs theta.[i] < powerRZ 2 (e + 1) /\
       2 * L * w * (1 + / 1000000) + powerRZ 2 (-130) <= powerRZ 2 (e - 26) * 99999) ->
  solve_step_f32 ps ee t theta = theta.
Proof.
  intros Hl Hp Hx Hy HL Hw H. unfold solve_step_f32.
  destruct (Rlt_dec _ _); [|reflexivity]. unfold apply_step_f32.
  rewrite (fold_set_nth_all (fun i x => round32 (x + round32 (_.[i] * step32)))) by exact Hl.
  transitivity (map (fun i => theta.[i]) (seq 0 numBones)); [|rewrite <- Hl; apply map_nth_seq_self].
  apply map_ext_in. intros i Hi. apply in_seq in Hi.
  destruct (H i ltac:(lia)) as (k & e & He & Ht & Hb & Hd). destruct (Hp i ltac:(lia)) as [Px Py].
  rewrite Ht in Hb |- *. apply round32_update_absorbed; [lia | exact Hb |].
  unfold dtheta_of32, jacobian32. rewrite nth_map_seq by lia.
  rewrite nth_map_seq with (d := vec3_zero) by lia.
  eapply Rle_trans; [apply (dtheta32_bound ee _ t L w); assumption | exact Hd].
Qed.

Lemma solve_step_f32_stalls_witness :
  solve_step_f32 (repeat vec3_zero 5) (Vec3 32 0 0) (Vec3 32 (/ 65536) 0) (repeat (3 / 2) 5)
  = repeat (3 / 2) 5.
Proof.
  apply (solve_step_f32_stalls _ _ _ _ 32 (/ 65536)); [reflexivity | | | | | | ].
  - intros i Hi. unfold numBones in Hi. rewrite nth_repeat. unfold vec3_zero. cbn [vx vy].
    rewrite !Rminus_0_r, Rabs_R0, Rabs_right by lra. lra.
  - cbn [vx]. rewrite Rminus_diag, Rabs_R0. lra.
  - cbn [vy]. rewrite Rminus_0_r, Rabs_right by lra. lra.
  - lra.
  - lra.
  - intros i Hi. unfold numBones in Hi.
    replace ((repeat (3 / 2) 5).[i]) with (3 / 2) by (destruct i as [|[|[|[|[|i]]]]]; [reflexivity.. | lia]).
    exists 12582912%Z, 0%Z.
    split; [lia|]. simpl Z.sub; simpl Z.add. pow2_num.
    split; [field|]. rewrite Rabs_right by lra. split; [lra | lra].
Defined.

(** ** Agreement with the IEEE 754 specification of the Standard Library *)

(** The real value of a finite [SpecFloat.spec_float] ([0] for the
    others). *)
Definition SF2R (f : spec_float) : R :=
  match f with
  | S754_finite s m e => (if s then -1 else 1) * IZR (Zpos m) * powerRZ 2 e
  | _ => 0
  end.

(** The binary32 division [1 / 100000] of [SpecFloat] is [step32]. *)
Lemma step32_specfloat :
  SF2R (SFdiv 24 128 (S754_finite false 1 0) (S754_finite false 100000 0)) = step32.
Proof.
  change (SFdiv 24 128 (S754_finite false 1 0) (S754_finite false 100000 0))
    with (S754_finite false 10995116 (-40)).
  rewrite step32_value. cbn [SF2R]. ring.
Qed.

(** One float update [1.5 += 2^-10 * 0.00001f] computed by [SpecFloat]'s
    [SFmul] and [SFadd] is the one of [round32]: both give back [1.5]. *)
Lemma update_specfloat :
  let th := S754_finite false 12582912 (-23) in
  let d := S754_finite false 1 (-10) in
  let st := S754_finite false 10995116 (-40) in
  SF2R (SFadd 24 128 th (SFmul 24 128 d st)) = round32 (SF2R th + round32 (SF2R d * SF2R st)).
Proof.
  intros th d st.
  change (SFadd 24 128 th (SFmul 24 128 d st)) with th.
  assert (Hst : SF2R st = step32) by (unfold st; rewrite step32_value; cbn [SF2R]; ring).
  rewrite Hst. unfold th. cbn [SF2R]. rewrite Rmult_1_l.
  rewrite (round32_update_absorbed 12582912 0); [reflexivity | lia | |].
  - simpl Z.sub. simpl Z.add. pow2_num. rewrite Rabs_right; simpl; lra.
  - unfold d. cbn [SF2R]. simpl Z.sub. pow2_num. rewrite Rabs_right; lra.
Qed.

(** ** The solver's increments near the target *)

(** For the chain of line 149 the increments [dtheta[i]] of the real
    model are at most [39 (|Vx| + |Vy|)], so they meet the bound of [apply_step_f32_absorbed] as
    soon as the error [V] is small enough: for angles in [(1, 2)], every
    [|Vx| + |Vy| <= 3.8e-5]. *)
Lemma dtheta_absorption_bound theta target e i :
  (i < numBones)%nat ->
  let ps := fst (forward lengths theta) in
  let ee := snd (forward lengths theta) in
  let V := error_vec target ee in
  39 * (Rabs (vx V) + Rabs (vy V)) <= powerRZ 2 (e - 26) * 99999 ->
  Rabs ((dtheta_of (jacobian ee ps) V).[i]) <= powerRZ 2 (e - 26) * 99999.
Proof.
  intros Hi ps ee V H. unfold V, ee, ps in *. rewrite (dtheta_grad (forward lengths) theta target i Hi).
  cbn [chain_lengths forward_chain]. eapply Rle_trans; [apply grad_bound; [exact lengths_nonneg | lia]|].
  rewrite sum_lengths. rewrite forward_joint in H by exact lengths_nonzero. exact H.
Qed.
