(* ===== verification/Program.v ===== *)
(** * The whole of [main]: start-up, the calls of each frame, cleanup
    (src/IKTest.cpp lines 22-372)

    [main] talks to three libraries: GLFW (window, input, context), GLEW
    (loading OpenGL) and OpenGL (objects, buffers, draws).  [main p ins]
    lists, in order, every call [main] makes when the three start-up calls
    answer as [p] says and the loop reads the inputs [ins], together with
    its return value ([None] while it is still in the loop when the inputs
    run out).  The calls carry what the code passes that matters to the
    libraries' rules: the object a call names, the bytes of [glBufferData],
    the attribute and size of [glVertexAttribPointer], the range of
    [glDrawArrays], the [MVP] of [glUniformMatrix4fv] and the lines
    printed.  [api_step] is the usage contract of GLFW 3 and OpenGL 3.3
    as their documentation states it (initialise before use, a current
    context for GL calls, live names only, in-bounds vertex fetches,
    nothing after [glfwTerminate]); the theorems show that every run of
    [main] meets it, on the three error paths and on the main path, and
    that it deletes every GL object it creates. *)

From Stdlib Require Import ZArith Bool.
From Stdlib Require String.
From S2P Require Import Prelude Glm Chain Jacobian Stepper Frame Camera Drawing Session.
Import Spec.

(** ** What [main] calls *)

(** The window hints of lines 32-36. *)
Inductive window_hint :=
| Samples4 | ContextVersionMajor3 | ContextVersionMinor3 | OpenglForwardCompat | OpenglCoreProfile.

(** The GL objects [main] creates: the vertex array of lines 71-73, the
    program of line 76 and the buffers of lines 130-138. *)
Inductive gl_object := VertexArray | ShaderProgram | VertexBuffer | ColorBuffer.

Scheme Equality for gl_object.

Module Messages.
Import String.

(** The messages of lines 27, 41 and 51 (without their final newline). *)
Definition msg_glfw : string := "Failed to initialize GLFW".
Definition msg_window : string :=
  "Failed to open GLFW window. If you have an Intel GPU, they are not 3.3 compatible. Try the 2.1 version of the tutorials.".
Definition msg_glew : string := "Failed to initialize GLEW".

End Messages.
Import Messages.

Inductive call :=
(* GLFW and GLEW *)
| GlfwInit | WindowHint (h : window_hint) | CreateWindow (width height : Z)
| MakeContextCurrent | GlewInit | SetStickyKeys | Terminate
| GetMouseButton | GetCursorPos | SwapBuffers | PollEvents | GetKeyEscape | WindowShouldClose
(* the C library *)
| PrintError (msg : String.string) | Getchar | Print (l : trace_line)
(* OpenGL *)
| ClearColor | EnableDepthTest | DepthFuncLess | Clear
| GenObject (o : gl_object) | BindVertexArray | GetUniformLocation
| BindArrayBuffer (o : gl_object) | BufferData (bytes : nat)
| UseProgram | UniformMVP (m : mat4)
| EnableAttrib (a : nat) | AttribPointer (a : nat) (size : nat) | DisableAttrib (a : nat)
| DrawTriangles (first count : nat)
| DeleteObject (o : gl_object).

(** The answers of the three start-up calls that [main] tests: [glfwInit()]
    (line 25), [glfwCreateWindow] (lines 39-40) and [glewInit()] (line
    50). *)
Record platform := Platform { glfw_init_ok : bool; window_created : bool; glew_init_ok : bool }.

(** ** The code *)

(** Lines 115-128: three red vertices, six white, three red. *)
Definition g_color_buffer_data : list vec3 :=
  [Vec3 1 0 0; Vec3 1 0 0; Vec3 1 0 0;
   Vec3 1 1 1; Vec3 1 1 1; Vec3 1 1 1;
   Vec3 1 1 1; Vec3 1 1 1; Vec3 1 1 1;
   Vec3 1 0 0; Vec3 1 0 0; Vec3 1 0 0].

(** [sizeof] of a [static const GLfloat[]] of 3-component vertices. *)
Definition sizeof_floats3 (l : list vec3) : nat := 4 * (3 * length l).

(** Lines 58-79, after a successful start-up: GL state, the vertex array
    and the program.  [LoadShaders] (line 76, outside [src/]) creates the
    program; [glewExperimental = true] (line 49) sets a flag and is no
    call. *)
Definition gl_setup_calls : list call :=
  [SetStickyKeys; ClearColor; EnableDepthTest; DepthFuncLess;
   GenObject VertexArray; BindVertexArray;
   GenObject ShaderProgram; GetUniformLocation].

(** Lines 130-138: the two buffers and their data. *)
Definition buffer_calls : list call :=
  [GenObject VertexBuffer; BindArrayBuffer VertexBuffer; BufferData (sizeof_floats3 g_vertex_buffer_data);
   GenObject ColorBuffer; BindArrayBuffer ColorBuffer; BufferData (sizeof_floats3 g_color_buffer_data)].

Definition setup_calls : list call := gl_setup_calls ++ buffer_calls.

(** Lines 206-240 (the marker) and 278-312 (each bone): one draw with the
    matrix [mvp]. *)
Definition draw_calls (mvp : mat4) : list call :=
  [UseProgram; UniformMVP mvp;
   EnableAttrib 0; BindArrayBuffer VertexBuffer; AttribPointer 0 3;
   EnableAttrib 1; BindArrayBuffer ColorBuffer; AttribPointer 1 3;
   DrawTriangles 0 (4 * 3);
   DisableAttrib 0; DisableAttrib 1].

(** Lines 330-360, the end of an iteration: the [P4] and [EE] lines of
    330-331 for the kinematics [fk], the buffer swap and the event poll
    (355-356), then the loop test of 359-360, whose [&&] skips
    [glfwWindowShouldClose] once [ESC] is down. *)
Definition frame_end_calls (fk : list vec3 * vec3) (i : input) : list call :=
  [Print (TraceP4 (vx (nth 4 (fst fk) vec3_zero)) (vy (nth 4 (fst fk) vec3_zero)));
   Print (TraceEE (vx (snd fk)) (vy (snd fk)));
   SwapBuffers; PollEvents; GetKeyEscape]
  ++ (if esc_pressed i then [] else [WindowShouldClose]).

(** One iteration of the [do ... while] loop (lines 158-360) from the
    state [st] with the input [i]: clear, the mouse (and the cursor and
    the line of line 181 on a press), the draws of [Drawing.frame_draws],
    then [frame_end_calls]. *)
Definition frame_calls (st : state) (i : input) : list call :=
  let m := mouse_in i in
  let st1 := read_input st m in
  [Clear; GetMouseButton]
  ++ match m with
     | Pressed _ _ => [GetCursorPos; Print (TraceTarget (worldTargetX st1) (worldTargetY st1))]
     | Released => []
     end
  ++ flat_map draw_calls (frame_draws st m)
  ++ frame_end_calls (forward lengths (theta st1)) i.

(** The calls of the loop, iteration after iteration, up to the first
    exit request. *)
Fixpoint loop_calls (ins : list input) (st : state) : list call :=
  match ins with
  | [] => []
  | i :: rest =>
      frame_calls st i ++ (if exit_requested i then [] else loop_calls rest (frame st (mouse_in i)))
  end.

(** Lines 362-369. *)
Definition cleanup_calls : list call :=
  [DeleteObject VertexBuffer; DeleteObject ColorBuffer; DeleteObject ShaderProgram;
   DeleteObject VertexArray; Terminate].

(** Lines 25-39: [glfwInit] and the window hints, before the window. *)
Definition init_calls : list call :=
  [GlfwInit; WindowHint Samples4; WindowHint ContextVersionMajor3; WindowHint ContextVersionMinor3;
   WindowHint OpenglForwardCompat; WindowHint OpenglCoreProfile; CreateWindow 1024 768].

(** [main] (lines 22-372): its calls and, once it returns, its value.  Each
    failed start-up call prints its message, waits for a key and returns
    [-1]; the last two also call [glfwTerminate]. *)
Definition main (p : platform) (ins : list input) : list call * option Z :=
  if negb (glfw_init_ok p) then ([GlfwInit; PrintError msg_glfw; Getchar], Some (-1)%Z)
  else if negb (window_created p) then
    (init_calls ++ [PrintError msg_window; Getchar; Terminate], Some (-1)%Z)
  else if negb (glew_init_ok p) then
    (init_calls ++ [MakeContextCurrent; GlewInit; PrintError msg_glew; Getchar; Terminate], Some (-1)%Z)
  else
    let body := init_calls ++ [MakeContextCurrent; GlewInit] ++ setup_calls ++ loop_calls ins init_state in
    match main_exit ins with
    | Some r => (body ++ cleanup_calls, Some (Z.of_nat r))
    | None => (body, None)
    end.

(** ** The contract of GLFW 3 and OpenGL 3.3 core *)

(** How far the start-up has got. *)
Inductive phase := Uninit | Initialised | Windowed | Current | Loaded | Terminated.

(** What the libraries' rules depend on: the phase, the GL names
    generated and not deleted, the [GL_ARRAY_BUFFER] binding, the size of
    each buffer's data store, the source buffer and components of each
    vertex attribute, the enabled attributes, and whether a program is in
    use and a vertex array bound (the core profile draws nothing
    without). *)
Record api_state := Api {
  api_phase : phase;
  live : list gl_object;
  bound : option gl_object;
  size_of : gl_object -> nat;
  source : nat -> option (gl_object * nat);
  enabled : list nat;
  program_in_use : bool;
  vao_bound : bool
}.

Definition api_init : api_state := Api Uninit [] None (fun _ => 0%nat) (fun _ => None) [] false false.

Definition mem_obj (o : gl_object) (l : list gl_object) : bool := existsb (gl_object_beq o) l.
Definition remove_obj (o : gl_object) (l : list gl_object) : list gl_object :=
  filter (fun x => negb (gl_object_beq o x)) l.

(** GLFW functions other than [glfwInit] need the library initialised
    and not terminated; window functions need the window. *)
Definition glfw_ready (ph : phase) : bool :=
  match ph with Initialised | Windowed | Current | Loaded => true | _ => false end.
Definition window_ready (ph : phase) : bool :=
  match ph with Windowed | Current | Loaded => true | _ => false end.
Definition gl_ready (ph : phase) : bool := match ph with Loaded => true | _ => false end.

Definition with_phase (s : api_state) (ph : phase) : api_state :=
  Api ph (live s) (bound s) (size_of s) (source s) (enabled s) (program_in_use s) (vao_bound s).

(** The bytes a draw of [count] vertices from [first] reads from every
    enabled attribute: tightly packed [float] components (stride 0). *)
Definition attrib_in_bounds (s : api_state) (first count a : nat) : bool :=
  match source s a with
  | Some (o, k) => mem_obj o (live s) && (4 * k * (first + count) <=? size_of s o)%nat
  | None => false
  end.

Definition is_buffer (o : gl_object) : bool :=
  match o with VertexBuffer | ColorBuffer => true | _ => false end.

(** One call: [Some] the state after it when the call is allowed, [None]
    when it breaks a rule. *)
Definition api_step (p : platform) (s : api_state) (c : call) : option api_state :=
  let ph := api_phase s in
  let gl := gl_ready ph in
  match c with
  | GlfwInit =>
      match ph with Uninit => Some (with_phase s (if glfw_init_ok p then Initialised else Uninit)) | _ => None end
  | WindowHint _ => if glfw_ready ph then Some s else None
  | CreateWindow _ _ =>
      match ph with Initialised => Some (with_phase s (if window_created p then Windowed else Initialised))
              | _ => None end
  | MakeContextCurrent =>
      match ph with Windowed => Some (with_phase s Current) | Current | Loaded => Some s | _ => None end
  | GlewInit =>
      match ph with Current => Some (with_phase s (if glew_init_ok p then Loaded else Current)) | _ => None end
  | SetStickyKeys | GetMouseButton | GetCursorPos | SwapBuffers | PollEvents | GetKeyEscape
  | WindowShouldClose => if window_ready ph then Some s else None
  | Terminate => if glfw_ready ph then Some (with_phase s Terminated) else None
  | PrintError _ | Getchar | Print _ => Some s
  | ClearColor | EnableDepthTest | DepthFuncLess | Clear => if gl then Some s else None
  | GenObject o =>
      if gl && negb (mem_obj o (live s)) then
        Some (Api ph (o :: live s) (bound s) (size_of s) (source s) (enabled s) (program_in_use s) (vao_bound s))
      else None
  | BindVertexArray =>
      if gl && mem_obj VertexArray (live s) then
        Some (Api ph (live s) (bound s) (size_of s) (source s) (enabled s) (program_in_use s) true)
      else None
  | GetUniformLocation => if gl && mem_obj ShaderProgram (live s) then Some s else None
  | BindArrayBuffer o =>
      if gl && is_buffer o && mem_obj o (live s) then
        Some (Api ph (live s) (Some o) (size_of s) (source s) (enabled s) (program_in_use s) (vao_bound s))
      else None
  | BufferData n =>
      match bound s with
      | Some o =>
          if gl && mem_obj o (live s) then
            Some (Api ph (live s) (bound s)
                      (fun o' => if gl_object_beq o o' then n else size_of s o')
                      (source s) (enabled s) (program_in_use s) (vao_bound s))
          else None
      | None => None
      end
  | UseProgram =>
      if gl && mem_obj ShaderProgram (live s) then
        Some (Api ph (live s) (bound s) (size_of s) (source s) (enabled s) true (vao_bound s))
      else None
  | UniformMVP _ => if gl && program_in_use s then Some s else None
  | EnableAttrib a =>
      if gl then
        Some (Api ph (live s) (bound s) (size_of s) (source s)
                  (a :: filter (fun b => negb (b =? a)%nat) (enabled s)) (program_in_use s) (vao_bound s))
      else None
  | DisableAttrib a =>
      if gl then
        Some (Api ph (live s) (bound s) (size_of s) (source s)
                  (filter (fun b => negb (b =? a)%nat) (enabled s)) (program_in_use s) (vao_bound s))
      else None
  | AttribPointer a k =>
      match bound s with
      | Some o =>
          if gl && mem_obj o (live s) then
            Some (Api ph (live s) (bound s) (size_of s)
                      (fun b => if (b =? a)%nat then Some (o, k) else source s b)
                      (enabled s) (program_in_use s) (vao_bound s))
          else None
      | None => None
      end
  | DrawTriangles first count =>
      if gl && program_in_use s && vao_bound s && forallb (attrib_in_bounds s first count) (enabled s)
      then Some s else None
  | DeleteObject o =>
      if gl && mem_obj o (live s) then
        Some (Api ph (remove_obj o (live s))
                  (match bound s with Some b => if gl_object_beq o b then None else Some b | None => None end)
                  (size_of s) (source s) (enabled s) (program_in_use s)
                  (match o with VertexArray => false | _ => vao_bound s end))
      else None
  end.

(** A sequence of calls, stopping at the first that breaks a rule. *)
Fixpoint api_run (p : platform) (s : api_state) (cs : list call) : option api_state :=
  match cs with
  | [] => Some s
  | c :: rest => match api_step p s c with Some s' => api_run p s' rest | None => None end
  end.

(** ** Running the calls *)

Lemma api_run_app p s l1 l2 :
  api_run p s (l1 ++ l2) = match api_run p s l1 with Some s' => api_run p s' l2 | None => None end.
Proof.
  revert s. induction l1 as [|c l1 IH]; intros s; [reflexivity|].
  cbn [app api_run]. destruct (api_step p s c); [apply IH | reflexivity].
Qed.

(** The state of the libraries between two frames: GL loaded, the four
    objects alive, the vertex array bound, both buffers holding [144]
    bytes, no attribute enabled. *)
Definition steady (s : api_state) : Prop :=
  api_phase s = Loaded /\ live s = [ColorBuffer; VertexBuffer; ShaderProgram; VertexArray] /\
  vao_bound s = true /\ size_of s VertexBuffer = 144%nat /\ size_of s ColorBuffer = 144%nat /\
  enabled s = [].

(** Calls that read input, print, or act on the window or the frame
    buffer only: allowed in a steady state and without effect on it. *)
Definition passive (c : call) : bool :=
  match c with
  | Clear | GetMouseButton | GetCursorPos | Print _ | SwapBuffers | PollEvents | GetKeyEscape
  | WindowShouldClose => true
  | _ => false
  end.

Lemma api_run_passive p s cs : steady s -> forallb passive cs = true -> api_run p s cs = Some s.
Proof.
  intros Hs. induction cs as [|c cs IH]; intros Hp; [reflexivity|].
  cbn [forallb] in Hp. apply andb_true_iff in Hp as [Hc Hp].
  destruct Hs as (Hph & _). cbn [api_run].
  destruct c; try discriminate Hc; cbn [api_step]; rewrite ?Hph; cbn; apply IH; exact Hp.
Qed.

Lemma draw_calls_steady p s m :
  steady s -> exists s', api_run p s (draw_calls m) = Some s' /\ steady s'.
Proof.
  destruct s as [ph lv bd sz src en pu vb]. unfold steady. cbn [api_phase live vao_bound size_of enabled].
  intros (-> & -> & -> & Hv & Hc & ->).
  eexists. split.
  - cbv -[Nat.leb Nat.mul]. rewrite Hv, Hc. reflexivity.
  - cbv. repeat split; assumption.
Qed.

Lemma draws_steady p s ms :
  steady s -> exists s', api_run p s (flat_map draw_calls ms) = Some s' /\ steady s'.
Proof.
  revert s. induction ms as [|m ms IH]; intros s Hs; [exists s; split; [reflexivity | exact Hs]|].
  cbn [flat_map]. rewrite api_run_app. destruct (draw_calls_steady p s m Hs) as (s1 & -> & H1).
  exact (IH s1 H1).
Qed.

Lemma frame_calls_steady p s st i :
  steady s -> exists s', api_run p s (frame_calls st i) = Some s' /\ steady s'.
Proof.
  intros Hs. unfold frame_calls. cbv zeta. rewrite app_assoc, api_run_app.
  rewrite (api_run_passive p s) by (exact Hs || (destruct (mouse_in i); reflexivity)).
  rewrite api_run_app. destruct (draws_steady p s (frame_draws st (mouse_in i)) Hs) as (s1 & -> & H1).
  exists s1. split; [|exact H1]. apply api_run_passive; [exact H1|].
  unfold frame_end_calls. now destruct (esc_pressed i).
Qed.

Lemma loop_calls_steady p s ins st :
  steady s -> exists s', api_run p s (loop_calls ins st) = Some s' /\ steady s'.
Proof.
  revert s st. induction ins as [|i ins IH]; intros s st Hs; [exists s; split; [reflexivity | exact Hs]|].
  cbn [loop_calls]. rewrite api_run_app. destruct (frame_calls_steady p s st i Hs) as (s1 & -> & H1).
  destruct (exit_requested i); [exists s1; split; [reflexivity | exact H1]|]. exact (IH s1 _ H1).
Qed.

(** A successful start-up (lines 25-138) leaves the libraries steady. *)
Lemma startup_steady p :
  glfw_init_ok p = true -> window_created p = true -> glew_init_ok p = true ->
  exists s, api_run p api_init ((init_calls ++ [MakeContextCurrent; GlewInit]) ++ setup_calls) = Some s
            /\ steady s.
Proof.
  destruct p as [g w e]; cbn [glfw_init_ok window_created glew_init_ok]; intros -> -> ->.
  eexists. split; [cbv; reflexivity | repeat split].
Qed.

(** The calls of the three failed start-ups. *)
Ltac failed_startup :=
  unfold main; cbn [negb glfw_init_ok window_created glew_init_ok];
  eexists; split; [cbv; reflexivity | split; reflexivity].

(** ** What [main] does *)

(** C16: every run of [main] keeps to the contract of GLFW and OpenGL:
    no GLFW call before [glfwInit] succeeded or after [glfwTerminate], no
    GL call without a current context with GL loaded, only live names
    bound, used and deleted, and every [glDrawArrays] reading within the
    data of the buffers its enabled attributes point to.  When [main]
    returns, every GL object it created has been deleted, and GLFW is
    terminated exactly when [glfwInit] had succeeded; while the loop runs
    the four objects are alive and the libraries steady. *)
Theorem main_respects_api p ins :
  exists s, api_run p api_init (fst (main p ins)) = Some s /\
    match snd (main p ins) with
    | Some _ => live s = [] /\ api_phase s = (if glfw_init_ok p then Terminated else Uninit)
    | None => steady s
    end.
Proof.
  destruct p as [[|] [|] [|]]; [|failed_startup ..].
  unfold main. cbn [negb glfw_init_ok window_created glew_init_ok]. rewrite !app_assoc.
  destruct (startup_steady (Platform true true true) eq_refl eq_refl eq_refl) as (s0 & H0 & S0).
  destruct (loop_calls_steady (Platform true true true) s0 ins init_state S0) as (s1 & H1 & S1).
  destruct (main_exit ins); cbn [fst snd].
  - rewrite api_run_app, api_run_app, H0, H1. destruct s1 as [ph lv bd sz src en pu vb]. unfold steady in S1.
    cbn [api_phase live vao_bound size_of enabled] in S1. destruct S1 as (-> & -> & -> & _ & _ & ->).
    eexists. split; [cbv; reflexivity | split; reflexivity].
  - rewrite api_run_app, H0, H1. exists s1. auto.
Qed.

(** The calls to OpenGL. *)
Definition is_gl_call (c : call) : bool :=
  match c with
  | ClearColor | EnableDepthTest | DepthFuncLess | Clear | GenObject _ | BindVertexArray
  | GetUniformLocation | BindArrayBuffer _ | BufferData _ | UseProgram | UniformMVP _
  | EnableAttrib _ | AttribPointer _ _ | DisableAttrib _ | DrawTriangles _ _ | DeleteObject _ => true
  | _ => false
  end.

Definition is_terminate (c : call) : bool := match c with Terminate => true | _ => false end.
Definition is_error_report (c : call) : bool := match c with PrintError _ => true | _ => false end.

(** C17: [main] returns [-1] exactly when one of [glfwInit],
    [glfwCreateWindow] and [glewInit] fails.  It then reports one error
    on [stderr], waits for a key ([getchar]), makes no OpenGL call, and
    calls [glfwTerminate] exactly when [glfwInit] had succeeded. *)
Theorem main_startup_failure p ins :
  (snd (main p ins) = Some (-1)%Z <-> glfw_init_ok p && window_created p && glew_init_ok p = false) /\
  (glfw_init_ok p && window_created p && glew_init_ok p = false ->
   length (filter is_terminate (fst (main p ins))) = (if glfw_init_ok p then 1 else 0)%nat /\
   length (filter is_error_report (fst (main p ins))) = 1%nat /\
   In Getchar (fst (main p ins)) /\
   forallb (fun c => negb (is_gl_call c)) (fst (main p ins)) = true).
Proof.
  destruct p as [[|] [|] [|]]; unfold main; cbn [negb glfw_init_ok window_created glew_init_ok andb];
    [ split; [split; [|discriminate] | discriminate];
      unfold main_exit; destruct (run ins init_state); cbn; intros H; discriminate H
    | split; [split; reflexivity | intros _; cbn; repeat split;
                                   repeat (solve [left; reflexivity] || right)] .. ].
Qed.

Lemma main_startup_failure_witness :
  glfw_init_ok (Platform true false true) && window_created (Platform true false true)
    && glew_init_ok (Platform true false true) = false /\
  length (filter is_terminate (fst (main (Platform true false true) []))) = 1%nat.
Proof.
  split; [reflexivity|].
  exact (proj1 (proj2 (main_startup_failure (Platform true false true) []) eq_refl)).
Defined.

(** ** What [main] prints *)

Definition prints (cs : list call) : list trace_line :=
  flat_map (fun c => match c with Print l => [l] | _ => [] end) cs.

Lemma prints_app l1 l2 : prints (l1 ++ l2) = prints l1 ++ prints l2.
Proof. apply flat_map_app. Qed.

Lemma prints_draws ms : prints (flat_map draw_calls ms) = [].
Proof. induction ms as [|m ms IH]; [reflexivity|]. cbn [flat_map]. now rewrite prints_app, IH. Qed.

(** After a successful start-up, what [main] writes to [stdout] and
    [stderr] is the console trace of the loop, [Session.run_trace]: one
    target line per click, then the [P4] and [EE] lines of every
    iteration, up to the first exit request; start-up and cleanup print
    nothing. *)
Theorem main_prints p ins :
  glfw_init_ok p && window_created p && glew_init_ok p = true ->
  prints (fst (main p ins)) = run_trace ins init_state.
Proof.
  destruct p as [[|] [|] [|]]; intros H; try discriminate H.
  unfold main. cbn [negb glfw_init_ok window_created glew_init_ok].
  assert (HL : forall ins st, prints (loop_calls ins st) = run_trace ins st).
  { clear ins. induction ins as [|i ins IH]; intros st; [reflexivity|].
    cbn [loop_calls run_trace]. rewrite prints_app.
    replace (prints (frame_calls st i)) with (frame_trace st (mouse_in i)).
    - destruct (exit_requested i); [reflexivity | now rewrite IH].
    - unfold frame_calls, frame_end_calls, frame_trace. cbv zeta. rewrite !prints_app, prints_draws.
      destruct (mouse_in i), (esc_pressed i); reflexivity. }
  destruct (main_exit ins); cbn [fst]; rewrite !prints_app, HL; cbn; now rewrite ?app_nil_r.
Qed.

Lemma main_prints_witness :
  glfw_init_ok (Platform true true true) && window_created (Platform true true true)
    && glew_init_ok (Platform true true true) = true /\
  prints (fst (main (Platform true true true) [Input Released true false]))
  = run_trace [Input Released true false] init_state.
Proof. split; [reflexivity | apply main_prints; reflexivity]. Defined.
