(* ===== verification/Console.v ===== *)
(** * The text of the console trace (lines 181, 330-331)

    [printf("%f", x)] (and [%lf], the same for [printf]) writes an
    optional [-], the integer part of [|x|] rounded to six decimals
    without leading zeros, a [.] and exactly six digits; the value written
    is [|x| * 10^6] rounded to the nearest integer, ties to even, as the C
    library does for the exact value of a binary number.  [fixed6] is that
    text; [target_text] and [point_text] are the lines of line 181
    ([stderr]) and lines 330-331 ([stdout]).  [parse_fixed6] reads such a
    text back; the theorems show the round trip, and that what is read
    back is [x] to within [5e-7]. *)

From Stdlib Require Import ZArith Ascii String DecimalString DecimalN.
From S2P Require Import Prelude Glm Chain Session Float32.

Local Open Scope string_scope.

(** ** Digits *)

Definition digit_char (k : Z) : ascii := ascii_of_nat (48 + Z.to_nat k).

Definition digit_val (c : ascii) : option Z :=
  let n := nat_of_ascii c in
  if ((48 <=? n)%nat && (n <=? 57)%nat)%bool then Some (Z.of_nat n - 48)%Z else None.

(** The last [k] decimal digits of [f], leading zeros included. *)
Fixpoint digits (k : nat) (f : Z) : string :=
  match k with
  | O => ""
  | S k' => digits k' (f / 10) ++ String (digit_char (f mod 10)) ""
  end.

(** Reads decimal digits into [acc]. *)
Fixpoint read_digits (s : string) (acc : Z) : option Z :=
  match s with
  | "" => Some acc
  | String c r => match digit_val c with Some v => read_digits r (10 * acc + v) | None => None end
  end.

(** ** [%f] *)

(** The text of [%f] for the sign [neg] and the value [n / 10^6]. *)
Definition fixed6_text (neg : bool) (n : Z) : string :=
  (if neg then "-" else "")
  ++ NilEmpty.string_of_uint (N.to_uint (Z.to_N (n / 1000000)))
  ++ "." ++ digits 6 (n mod 1000000).

(** [printf("%f", x)]. *)
Definition fixed6 (x : R) : string :=
  fixed6_text (if Rlt_dec x 0 then true else false) (round_ne (Rabs x * 1000000)).

Definition newline : string := String (ascii_of_nat 10) "".

(** Line 181: [fprintf(stderr, "Wx %lf, Wy %lf\n", worldTargetX, worldTargetY)]. *)
Definition target_text (wx wy : R) : string :=
  "Wx " ++ fixed6 wx ++ ", Wy " ++ fixed6 wy ++ newline.

(** Lines 330-331: [printf("P4: %fx, %fy\n", ...)] and
    [printf("EE: %fx, %fy\n\n", ...)]. *)
Definition point_text (tag : string) (x y : R) (last : bool) : string :=
  tag ++ ": " ++ fixed6 x ++ "x, " ++ fixed6 y ++ "y" ++ newline ++ (if last then newline else "").

Definition trace_text (l : trace_line) : string :=
  match l with
  | TraceTarget wx wy => target_text wx wy
  | TraceP4 x y => point_text "P4" x y false
  | TraceEE x y => point_text "EE" x y true
  end.

(** What the trace writes on [stdout] (the [P4] and [EE] lines) and on
    [stderr] (the target lines). *)
Definition stdout_text (ls : list trace_line) : string :=
  fold_right (fun l s => match l with TraceTarget _ _ => s | _ => trace_text l ++ s end) "" ls.
Definition stderr_text (ls : list trace_line) : string :=
  fold_right (fun l s => match l with TraceTarget _ _ => trace_text l ++ s | _ => s end) "" ls.

(** ** Reading a [%f] text back *)

(** Splits at the first [.]. *)
Fixpoint split_dot (s : string) : string * string :=
  match s with
  | "" => ("", "")
  | String c r =>
      if Ascii.eqb c "." then ("", r) else let (a, b) := split_dot r in (String c a, b)
  end.

Definition parse_fixed6 (s : string) : option (bool * Z) :=
  let (neg, r) := match s with
                  | String c r => if Ascii.eqb c "-" then (true, r) else (false, s)
                  | "" => (false, s)
                  end in
  let (ip, fp) := split_dot r in
  match NilEmpty.uint_of_string ip, read_digits fp 0 with
  | Some u, Some f =>
      if (String.length fp =? 6)%nat then Some (neg, (Z.of_N (N.of_uint u) * 1000000 + f)%Z) else None
  | _, _ => None
  end.

(** The number a parsed text denotes. *)
Definition fixed6_value (r : bool * Z) : R :=
  (if fst r then -1 else 1) * (IZR (snd r) / 1000000).

(** ** The round trip *)

Lemma digit_val_char k : (0 <= k <= 9)%Z -> digit_val (digit_char k) = Some k.
Proof.
  intros Hk. assert (k = 0 \/ k = 1 \/ k = 2 \/ k = 3 \/ k = 4 \/ k = 5 \/ k = 6 \/ k = 7 \/ k = 8 \/ k = 9)%Z
    as Hc by lia.
  repeat destruct Hc as [->|Hc]; [reflexivity ..|]. subst. reflexivity.
Qed.

Lemma read_digits_app s1 s2 acc :
  read_digits (s1 ++ s2) acc = match read_digits s1 acc with Some a => read_digits s2 a | None => None end.
Proof.
  revert acc. induction s1 as [|c s1 IH]; intros acc; [reflexivity|].
  cbn [append read_digits]. destruct (digit_val c); [apply IH | reflexivity].
Qed.

Lemma read_digits_digits k f acc :
  read_digits (digits k f) acc = Some (acc * 10 ^ Z.of_nat k + f mod 10 ^ Z.of_nat k)%Z.
Proof.
  revert f acc. induction k as [|k IH]; intros f acc.
  - cbn. f_equal. rewrite Z.mod_1_r. ring.
  - cbn [digits]. rewrite read_digits_app, IH. cbn [read_digits].
    rewrite digit_val_char by (pose proof (Z.mod_pos_bound f 10); lia). f_equal.
    rewrite Nat2Z.inj_succ, Z.pow_succ_r by lia.
    rewrite Z.rem_mul_r by lia. ring.
Qed.

Lemma string_length_append (s1 s2 : string) :
  String.length (s1 ++ s2) = (String.length s1 + String.length s2)%nat.
Proof. induction s1 as [|c s1 IH]; cbn; [reflexivity | now rewrite IH]. Qed.

Lemma length_digits k f : String.length (digits k f) = k.
Proof.
  revert f. induction k as [|k IH]; intros f; [reflexivity|].
  cbn [digits]. rewrite string_length_append, IH. cbn. lia.
Qed.

Lemma split_dot_uint d r : split_dot (NilEmpty.string_of_uint d ++ String "." r) = (NilEmpty.string_of_uint d, r).
Proof. induction d; cbn [NilEmpty.string_of_uint append split_dot]; try rewrite IHd; reflexivity. Qed.

(** A number's digits do not start with [-]. *)
Lemma sign_uint d r :
  match NilEmpty.string_of_uint d ++ String "." r with
  | String c r' => if Ascii.eqb c "-" then (true, r') else (false, NilEmpty.string_of_uint d ++ String "." r)
  | "" => (false, NilEmpty.string_of_uint d ++ String "." r)
  end = (false, NilEmpty.string_of_uint d ++ String "." r).
Proof. destruct d; reflexivity. Qed.

(** Reading back the text of a sign and a non-negative scaled value. *)
Lemma parse_fixed6_text neg n : (0 <= n)%Z -> parse_fixed6 (fixed6_text neg n) = Some (neg, n).
Proof.
  intros Hn. unfold parse_fixed6, fixed6_text.
  set (d := N.to_uint (Z.to_N (n / 1000000))).
  change ("." ++ digits 6 (n mod 1000000)) with (String "." (digits 6 (n mod 1000000))).
  destruct neg; cbn [append]; [|rewrite sign_uint]; cbn [Ascii.eqb Bool.eqb];
    rewrite split_dot_uint, NilEmpty.usu, read_digits_digits, length_digits; cbn [Nat.eqb];
    unfold d; rewrite Unsigned.of_to, Z2N.id by (apply Z.div_pos; lia);
    do 2 f_equal; change (10 ^ Z.of_nat 6)%Z with 1000000%Z; rewrite Z.mod_mod by lia;
    pose proof (Z.div_mod n 1000000); lia.
Qed.

Lemma round_ne_nonneg y : 0 <= y -> (0 <= round_ne y)%Z.
Proof.
  intros Hy. pose proof (round_ne_error y) as H. apply Rabs_le_bounds in H.
  assert (-1 < IZR (round_ne y)) by lra. apply lt_IZR in H0. lia.
Qed.

(** What [printf("%f", x)] writes reads back: its text parses, with
    the sign of [x], to a number within [5e-7] (half a unit in the sixth
    decimal) of [x]. *)
Theorem fixed6_roundtrip x :
  exists r, parse_fixed6 (fixed6 x) = Some r /\ (fst r = true <-> x < 0) /\
            Rabs (fixed6_value r - x) <= / 2000000.
Proof.
  unfold fixed6. set (n := round_ne (Rabs x * 1000000)).
  assert (Hn : (0 <= n)%Z) by (apply round_ne_nonneg; pose proof (Rabs_pos x); lra).
  pose proof (round_ne_error (Rabs x * 1000000)) as He. fold n in He. apply Rabs_le_bounds in He.
  destruct (Rlt_dec x 0) as [Hx|Hx]; eexists; (split; [apply parse_fixed6_text; exact Hn|]);
    unfold fixed6_value; cbn [fst snd]; (split; [split; intros; (lra || auto || discriminate)|]).
  - rewrite Rabs_left in He by exact Hx. apply Rabs_le. lra.
  - rewrite Rabs_right in He by lra. apply Rabs_le. lra.
Qed.
